(** * OAuth 2.0 + PKCE authentication of vscode-pomodoro-spotify

    A shallow embedding of the authentication subsystem of the extension:

    - [src/auth/AuthCallbackServer.ts]: the loopback redirect listener
      ([startServer], [stopServer], [handleCallback], [getErrorPageHtml]);
    - [src/spotify/SpotifyService.ts]: the coordinator ([authenticate], its
      five-minute timer, [handleAuthCallback]), the token exchanger
      ([exchangeCodeForTokens], [refreshAccessToken]), the validity check
      ([isAuthenticated]) and the PKCE helpers ([generateCodeVerifier],
      [generateCodeChallenge]);
    - [src/ui/WelcomeWebview.ts]: [htmlEscape], the only HTML escaper of the
      repository.

    JavaScript objects become records, [undefined]/[null] become [None],
    and promises live in a store indexed by an identifier.  The state is
    passed explicitly and every observable effect is appended to a trace.
    [handleAuthCallback] is cut at its [await]: the part before the
    suspension and the part after it are separate steps, so that the event
    loop may run other handlers in between, as it does in Node.  The
    answers of the outside world (whether the port can be bound, the
    response of the token endpoint, the clock, the entropy) are inputs of
    the steps.  Numbers are timestamps and small counters, all far below
    2^53, and are modelled by [Z]. *)

From Stdlib Require Import ZArith Ascii String List Lia.
From stdpp Require Import base option list gmap strings pretty.
Import ListNotations.

Local Open Scope Z_scope.

(** ** Characters and bytes *)

(** A byte is an integer in [0, 256).  A JavaScript string that only holds
    ASCII is the sequence of its bytes; this is what [hash.update(str)]
    feeds to the digest (UTF-8 of an ASCII string). *)
Definition byte_of_ascii (c : ascii) : Z := Z.of_N (N_of_ascii c).
Definition ascii_of_byte (b : Z) : ascii := ascii_of_N (Z.to_N (b mod 256)).
Definition bytes_of_string (s : string) : list Z :=
  map byte_of_ascii (list_ascii_of_string s).

(** The double quote, written by its code so that templates can be spelled
    in plain string literals. *)
Definition dquote : string := String (ascii_of_nat 34) EmptyString.

(** JavaScript truthiness of a [string | null | undefined] value: the test
    [if (x)] and the operand of [&&] and [!]. *)
Definition truthy (x : option string) : bool :=
  match x with
  | Some s => negb (String.eqb s "")
  | None => false
  end.

(** Truthiness of a [number | undefined] (NaN never arises on integers). *)
Definition truthy_num (x : option Z) : bool :=
  match x with
  | Some n => negb (n =? 0)
  | None => false
  end.

(** ** Node's [Buffer.toString('base64url')] *)
Module Base64Url.

(** RFC 4648 section 5: the URL and filename safe alphabet. *)
Definition alphabet : string :=
  "ABCDEFGHIJKLMNOPQRSTUVWXYZabcdefghijklmnopqrstuvwxyz0123456789-_".

Definition digit (i : Z) : ascii :=
  match String.get (Z.to_nat (Z.land i 63)) alphabet with
  | Some c => c
  | None => "A"%char
  end.

(** Three bytes give four digits; a tail of one byte gives two digits and
    a tail of two bytes gives three.  No [=] padding is emitted. *)
Fixpoint encode_bytes (l : list Z) : list ascii :=
  match l with
  | [] => []
  | [a] =>
      [digit (Z.shiftr a 2); digit (Z.shiftl (Z.land a 3) 4)]
  | [a; b] =>
      [digit (Z.shiftr a 2);
       digit (Z.lor (Z.shiftl (Z.land a 3) 4) (Z.shiftr b 4));
       digit (Z.shiftl (Z.land b 15) 2)]
  | a :: b :: c :: rest =>
      digit (Z.shiftr a 2)
      :: digit (Z.lor (Z.shiftl (Z.land a 3) 4) (Z.shiftr b 4))
      :: digit (Z.lor (Z.shiftl (Z.land b 15) 2) (Z.shiftr c 6))
      :: digit (Z.land c 63)
      :: encode_bytes rest
  end.

Definition encode (l : list Z) : string :=
  string_of_list_ascii (encode_bytes l).

Definition in_alphabet (c : ascii) : bool :=
  existsb (Ascii.eqb c) (list_ascii_of_string alphabet).

(** Every character of [s] is a digit of the alphabet: no [+], [/] or
    [=] occurs. *)
Definition url_safe (s : string) : bool :=
  forallb in_alphabet (list_ascii_of_string s).

(** The inverse direction, used to check that [encode] loses nothing:
    the value of a digit, and the bytes spelled by a sequence of values. *)
Fixpoint index_of (c : ascii) (s : string) (i : Z) : option Z :=
  match s with
  | EmptyString => None
  | String x rest => if Ascii.eqb x c then Some i else index_of c rest (i + 1)
  end.

Definition value (c : ascii) : option Z := index_of c alphabet 0.

Fixpoint values (l : list ascii) : option (list Z) :=
  match l with
  | [] => Some []
  | c :: rest =>
      match value c, values rest with
      | Some v, Some vs => Some (v :: vs)
      | _, _ => None
      end
  end.

Fixpoint decode_values (l : list Z) : list Z :=
  match l with
  | d1 :: d2 :: d3 :: d4 :: rest =>
      Z.lor (Z.shiftl d1 2) (Z.shiftr d2 4)
      :: Z.lor (Z.shiftl (Z.land d2 15) 4) (Z.shiftr d3 2)
      :: Z.lor (Z.shiftl (Z.land d3 3) 6) d4
      :: decode_values rest
  | [d1; d2; d3] =>
      [Z.lor (Z.shiftl d1 2) (Z.shiftr d2 4);
       Z.lor (Z.shiftl (Z.land d2 15) 4) (Z.shiftr d3 2)]
  | [d1; d2] => [Z.lor (Z.shiftl d1 2) (Z.shiftr d2 4)]
  | _ => []
  end.

Definition decode (s : string) : option (list Z) :=
  option_map decode_values (values (list_ascii_of_string s)).

(** The 256 byte values. *)
Definition all_bytes : list Z := map Z.of_nat (seq 0 256).

End Base64Url.

(** ** Node's [crypto.createHash('sha256')] (FIPS 180-4) *)
Module SHA256.

Definition wrap (x : Z) : Z := x mod 2 ^ 32.
Definition add32 (x y : Z) : Z := wrap (x + y).
Definition rotr (n x : Z) : Z :=
  Z.lor (Z.shiftr x n) (wrap (Z.shiftl x (32 - n))).
Definition not32 (x : Z) : Z := Z.lxor x (2 ^ 32 - 1).

Definition Ch (x y z : Z) : Z :=
  Z.lxor (Z.land x y) (Z.land (not32 x) z).
Definition Maj (x y z : Z) : Z :=
  Z.lxor (Z.lxor (Z.land x y) (Z.land x z)) (Z.land y z).
Definition bsig0 (x : Z) : Z :=
  Z.lxor (Z.lxor (rotr 2 x) (rotr 13 x)) (rotr 22 x).
Definition bsig1 (x : Z) : Z :=
  Z.lxor (Z.lxor (rotr 6 x) (rotr 11 x)) (rotr 25 x).
Definition ssig0 (x : Z) : Z :=
  Z.lxor (Z.lxor (rotr 7 x) (rotr 18 x)) (Z.shiftr x 3).
Definition ssig1 (x : Z) : Z :=
  Z.lxor (Z.lxor (rotr 17 x) (rotr 19 x)) (Z.shiftr x 10).

(** The constants are defined the way the standard defines them: the
    first 32 bits of the fractional parts of the cube roots (for [K]) and
    of the square roots (for [H0]) of the first primes. *)
Definition is_prime (n : nat) : bool :=
  forallb (fun d : nat => negb (Nat.eqb (n mod d) 0)) (seq 2 (n - 2)).

Definition primes : list Z :=
  Eval vm_compute in
    map Z.of_nat (firstn 64 (filter (fun n => is_prime n = true) (seq 2 400))).

(** The integer cube root of a number below 2^108, one bit at a time. *)
Definition icbrt (n : Z) : Z :=
  fold_left
    (fun (r : Z) (bit : nat) =>
       let r' := r + 2 ^ Z.of_nat bit in
       if r' * r' * r' <=? n then r' else r)
    (rev (seq 0 36)) 0.

Definition frac_cbrt32 (p : Z) : Z := wrap (icbrt (p * 2 ^ 96)).
Definition frac_sqrt32 (p : Z) : Z := wrap (Z.sqrt (p * 2 ^ 64)).

Definition K : list Z := Eval vm_compute in map frac_cbrt32 primes.

(** The eight working variables, also the intermediate hash value. *)
Record regs : Type := Regs
  { ra : Z; rb : Z; rc : Z; rd : Z; re : Z; rf : Z; rg : Z; rh : Z }.

Definition H0 : regs :=
  Eval vm_compute in
    Regs (frac_sqrt32 2) (frac_sqrt32 3) (frac_sqrt32 5) (frac_sqrt32 7)
         (frac_sqrt32 11) (frac_sqrt32 13) (frac_sqrt32 17) (frac_sqrt32 19).

(** Padding: the bit 1, zero bits up to 56 modulo 64 bytes, then the
    message length in bits as a 64-bit big-endian integer. *)
Definition be_bytes (n : nat) (x : Z) : list Z :=
  map (fun i : nat => Z.land (Z.shiftr x (8 * Z.of_nat i)) 255)
      (rev (seq 0 n)).

Definition pad (msg : list Z) : list Z :=
  let len := Z.of_nat (length msg) in
  msg ++ [128] ++ repeat 0 (Z.to_nat ((55 - len) mod 64))
      ++ be_bytes 8 (8 * len).

Fixpoint words (l : list Z) : list Z :=
  match l with
  | a :: b :: c :: d :: rest =>
      Z.lor (Z.shiftl a 24) (Z.lor (Z.shiftl b 16) (Z.lor (Z.shiftl c 8) d))
      :: words rest
  | _ => []
  end.

(** The message schedule: sixteen words of the block, then forty-eight
    derived ones. *)
Definition schedule_step (W : list Z) (t : nat) : list Z :=
  let at_ (k : nat) := nth (t - k) W 0 in
  W ++ [add32 (add32 (ssig1 (at_ 2%nat)) (at_ 7%nat))
              (add32 (ssig0 (at_ 15%nat)) (at_ 16%nat))].

Definition schedule (block : list Z) : list Z :=
  fold_left schedule_step (seq 16 48) (firstn 16 (words block)).

Definition round (r : regs) (kw : Z * Z) : regs :=
  let t1 := add32 (add32 (add32 (rh r) (bsig1 (re r)))
                         (add32 (Ch (re r) (rf r) (rg r)) (fst kw)))
                  (snd kw) in
  let t2 := add32 (bsig0 (ra r)) (Maj (ra r) (rb r) (rc r)) in
  Regs (add32 t1 t2) (ra r) (rb r) (rc r) (add32 (rd r) t1)
       (re r) (rf r) (rg r).

Definition compress (h : regs) (block : list Z) : regs :=
  let r := fold_left round (combine K (schedule block)) h in
  Regs (add32 (ra h) (ra r)) (add32 (rb h) (rb r))
       (add32 (rc h) (rc r)) (add32 (rd h) (rd r))
       (add32 (re h) (re r)) (add32 (rf h) (rf r))
       (add32 (rg h) (rg r)) (add32 (rh h) (rh r)).

Fixpoint blocks (n : nat) (l : list Z) : list (list Z) :=
  match n with
  | O => []
  | S n' => firstn 64 l :: blocks n' (skipn 64 l)
  end.

Definition be32 (x : Z) : list Z :=
  [Z.land (Z.shiftr x 24) 255; Z.land (Z.shiftr x 16) 255;
   Z.land (Z.shiftr x 8) 255; Z.land x 255].

Definition output (h : regs) : list Z :=
  be32 (ra h) ++ be32 (rb h) ++ be32 (rc h) ++ be32 (rd h)
  ++ be32 (re h) ++ be32 (rf h) ++ be32 (rg h) ++ be32 (rh h).

Definition digest (msg : list Z) : list Z :=
  let p := pad msg in
  output (fold_left compress (blocks (length p / 64) p) H0).

End SHA256.

(** ** JavaScript values shared by the two classes *)

(** An [Error] object: its [name], the [code] property Node sets on system
    errors, and its [message]. *)
Record JsError : Type := MkError
  { err_name : string; err_code : option string; err_message : string }.

(** [new Error(msg)] *)
Definition Error (msg : string) : JsError := MkError "Error" None msg.

(** [String(error)], as in a template literal: the name alone when the
    message is empty, the message alone when the name is empty. *)
Definition error_to_string (e : JsError) : string :=
  if String.eqb (err_name e) "" then err_message e
  else if String.eqb (err_message e) "" then err_name e
  else err_name e +:+ ": " +:+ err_message e.

(** A promise settles once; later calls of its [resolve] or [reject] have
    no effect. *)
Inductive PromiseState : Type :=
| Pending
| Fulfilled
| Rejected (e : JsError).

(** The parsed query of a redirect or of a re-entry URI
    ([query.code], [query.get('code')], ...). *)
Record Query : Type := MkQuery
  { q_code : option string; q_error : option string; q_state : option string }.

(** The loopback port 3000 is free, bound by server object [srv] of this
    process, or bound by another process. *)
Inductive PortState : Type :=
| PortFree
| PortHeld (srv : nat)
| PortForeign.

(** The form-encoded body of a POST to the provider's token endpoint. *)
Inductive TokenRequestBody : Type :=
| AuthorizationCodeGrant (code redirect_uri client_id code_verifier : string)
| RefreshTokenGrant (refresh_token client_id : string).

(** What the outside world can observe, in the order it happened. *)
Inductive Effect : Type :=
| PostToken (body : TokenRequestBody)
| ShowErrorMessage (msg : string)
| ShowInformationMessage (msg : string)
| ConsoleError (msg : string)
| FireAuthStateChange (b : bool)
| OpenExternal (uri : string)
| CallResolve (p : nat)
| CallReject (p : nat) (e : JsError)
| ServerClose (srv : nat).

(** The JSON body of a token response.  The authorization-code grant
    always carries a refresh token; a refresh response may omit it. *)
Record CodeTokenData : Type := MkCodeTokenData
  { c_access_token : string; c_refresh_token : string; c_expires_in : Z }.

Record RefreshTokenData : Type := MkRefreshTokenData
  { r_access_token : string; r_refresh_token : option string;
    r_expires_in : Z }.

(** The outcome of an HTTPS request: the socket fails ([req.on('error')]),
    or a response arrives with a status code, the raw body, and the result
    of [JSON.parse] on it ([None] when it throws). *)
Inductive HttpOutcome (A : Type) : Type :=
| NetworkError (e : JsError)
| HttpResponse (statusCode : Z) (data : string) (parsed : option A).
Arguments NetworkError {A} e.
Arguments HttpResponse {A} statusCode data parsed.

(** The error [JSON.parse] throws. *)
Definition jsonSyntaxError : JsError :=
  MkError "SyntaxError" None "Unexpected token in JSON".

(** ** The state of the extension host

    The first five fields are the fields of the [SpotifyService] instance
    ([server] is [this.authCallbackServer.server]; the instance field
    [authCallbackServer] is set by the constructor and never cleared, so
    [this.authCallbackServer?.stopServer()] always calls).  The others are
    the parts of the host the service acts on: the promises it created,
    the loopback port, secret storage, [globalState], the handlers
    suspended at [await this.exchangeCodeForTokens(code)], the armed
    five-minute timers, the configured client id and the effects so far. *)
Record World : Type := MkWorld
  { codeVerifier : string;
    authState : string;
    pendingAuthResolve : option nat;
    pendingAuthReject : option nat;
    server : option nat;
    promises : list PromiseState;
    port : PortState;
    nextServer : nat;
    secrets : gmap string string;
    globalState : gmap string Z;
    inflight : nat;
    timers : nat;
    settingsClientId : string;
    envClientId : option string;
    trace : list Effect }.

Definition set_codeVerifier (v : string) (w : World) : World :=
  MkWorld v (authState w) (pendingAuthResolve w) (pendingAuthReject w)
    (server w) (promises w) (port w) (nextServer w) (secrets w)
    (globalState w) (inflight w) (timers w) (settingsClientId w)
    (envClientId w) (trace w).
Definition set_authState (v : string) (w : World) : World :=
  MkWorld (codeVerifier w) v (pendingAuthResolve w) (pendingAuthReject w)
    (server w) (promises w) (port w) (nextServer w) (secrets w)
    (globalState w) (inflight w) (timers w) (settingsClientId w)
    (envClientId w) (trace w).
Definition set_pendingAuthResolve (v : option nat) (w : World) : World :=
  MkWorld (codeVerifier w) (authState w) v (pendingAuthReject w)
    (server w) (promises w) (port w) (nextServer w) (secrets w)
    (globalState w) (inflight w) (timers w) (settingsClientId w)
    (envClientId w) (trace w).
Definition set_pendingAuthReject (v : option nat) (w : World) : World :=
  MkWorld (codeVerifier w) (authState w) (pendingAuthResolve w) v
    (server w) (promises w) (port w) (nextServer w) (secrets w)
    (globalState w) (inflight w) (timers w) (settingsClientId w)
    (envClientId w) (trace w).
Definition set_server (v : option nat) (w : World) : World :=
  MkWorld (codeVerifier w) (authState w) (pendingAuthResolve w)
    (pendingAuthReject w) v (promises w) (port w) (nextServer w) (secrets w)
    (globalState w) (inflight w) (timers w) (settingsClientId w)
    (envClientId w) (trace w).
Definition set_promises (v : list PromiseState) (w : World) : World :=
  MkWorld (codeVerifier w) (authState w) (pendingAuthResolve w)
    (pendingAuthReject w) (server w) v (port w) (nextServer w) (secrets w)
    (globalState w) (inflight w) (timers w) (settingsClientId w)
    (envClientId w) (trace w).
Definition set_port (v : PortState) (w : World) : World :=
  MkWorld (codeVerifier w) (authState w) (pendingAuthResolve w)
    (pendingAuthReject w) (server w) (promises w) v (nextServer w) (secrets w)
    (globalState w) (inflight w) (timers w) (settingsClientId w)
    (envClientId w) (trace w).
Definition set_nextServer (v : nat) (w : World) : World :=
  MkWorld (codeVerifier w) (authState w) (pendingAuthResolve w)
    (pendingAuthReject w) (server w) (promises w) (port w) v (secrets w)
    (globalState w) (inflight w) (timers w) (settingsClientId w)
    (envClientId w) (trace w).
Definition set_secrets (v : gmap string string) (w : World) : World :=
  MkWorld (codeVerifier w) (authState w) (pendingAuthResolve w)
    (pendingAuthReject w) (server w) (promises w) (port w) (nextServer w) v
    (globalState w) (inflight w) (timers w) (settingsClientId w)
    (envClientId w) (trace w).
Definition set_globalState (v : gmap string Z) (w : World) : World :=
  MkWorld (codeVerifier w) (authState w) (pendingAuthResolve w)
    (pendingAuthReject w) (server w) (promises w) (port w) (nextServer w)
    (secrets w) v (inflight w) (timers w) (settingsClientId w)
    (envClientId w) (trace w).
Definition set_inflight (v : nat) (w : World) : World :=
  MkWorld (codeVerifier w) (authState w) (pendingAuthResolve w)
    (pendingAuthReject w) (server w) (promises w) (port w) (nextServer w)
    (secrets w) (globalState w) v (timers w) (settingsClientId w)
    (envClientId w) (trace w).
Definition set_timers (v : nat) (w : World) : World :=
  MkWorld (codeVerifier w) (authState w) (pendingAuthResolve w)
    (pendingAuthReject w) (server w) (promises w) (port w) (nextServer w)
    (secrets w) (globalState w) (inflight w) v (settingsClientId w)
    (envClientId w) (trace w).
Definition set_trace (v : list Effect) (w : World) : World :=
  MkWorld (codeVerifier w) (authState w) (pendingAuthResolve w)
    (pendingAuthReject w) (server w) (promises w) (port w) (nextServer w)
    (secrets w) (globalState w) (inflight w) (timers w) (settingsClientId w)
    (envClientId w) v.

(** Record an effect. *)
Definition emit (e : Effect) (w : World) : World :=
  set_trace (trace w ++ [e]) w.

(** Calling the [resolve] function of promise [p]. *)
Definition call_resolve (p : nat) (w : World) : World :=
  let w := emit (CallResolve p) w in
  match promises w !! p with
  | Some Pending => set_promises (<[p := Fulfilled]> (promises w)) w
  | _ => w
  end.

(** Calling the [reject] function of promise [p]. *)
Definition call_reject (p : nat) (e : JsError) (w : World) : World :=
  let w := emit (CallReject p e) w in
  match promises w !! p with
  | Some Pending => set_promises (<[p := Rejected e]> (promises w)) w
  | _ => w
  end.

(** ** [encodeURIComponent] on byte strings *)

Definition hexdigit (n : Z) : ascii :=
  match String.get (Z.to_nat (Z.land n 15)) "0123456789ABCDEF" with
  | Some c => c
  | None => "0"%char
  end.

Definition uri_unreserved (c : ascii) : bool :=
  existsb (Ascii.eqb c)
    (list_ascii_of_string
       "ABCDEFGHIJKLMNOPQRSTUVWXYZabcdefghijklmnopqrstuvwxyz0123456789-_.!~*'()").

Fixpoint encodeURIComponent (s : string) : string :=
  match s with
  | EmptyString => EmptyString
  | String c rest =>
      if uri_unreserved c then String c (encodeURIComponent rest)
      else String "%"%char
             (String (hexdigit (Z.shiftr (byte_of_ascii c) 4))
                (String (hexdigit (byte_of_ascii c))
                   (encodeURIComponent rest)))
  end.

(** ** [WelcomeWebview.htmlEscape] *)

(** [s.replace(/c/g, by)] for a one-character pattern. *)
Fixpoint replace_char (c : ascii) (by_ : string) (s : string) : string :=
  match s with
  | EmptyString => EmptyString
  | String x rest =>
      if Ascii.eqb x c then by_ +:+ replace_char c by_ rest
      else String x (replace_char c by_ rest)
  end.

Definition htmlEscape (unsafe : string) : string :=
  replace_char "'"%char "&#039;"
    (replace_char (ascii_of_nat 34) "&quot;"
       (replace_char ">"%char "&gt;"
          (replace_char "<"%char "&lt;"
             (replace_char "&"%char "&amp;" unsafe)))).

(** [needle] occurs in [hay]. *)
Fixpoint contains (needle hay : string) : bool :=
  String.prefix needle hay
  || match hay with
     | EmptyString => false
     | String _ rest => contains needle rest
     end.

(** ** [AuthCallbackServer] *)
Module AuthCallbackServer.

(** [private readonly port: number = 3000] *)
Definition port_number : Z := 3000.

(** The system error Node emits when the address is taken. *)
Definition EADDRINUSE : JsError :=
  MkError "Error" (Some "EADDRINUSE")
    "listen EADDRINUSE: address already in use 127.0.0.1:3000".

(** [server.listen(port, '127.0.0.1', cb)]: the host may fail the bind for
    a reason of its own ([fault], for instance EACCES); otherwise the bind
    succeeds exactly when the port is free. *)
Definition listen (fault : option JsError) (srv : nat) (w : World)
  : JsError + World :=
  match fault with
  | Some e => inl e
  | None =>
      match port w with
      | PortFree => inr (set_port (PortHeld srv) w)
      | _ => inl EADDRINUSE
      end
  end.

(** [server.close()]: stop accepting connections; releases the port when
    this server object holds it. *)
Definition close (srv : nat) (w : World) : World :=
  let w := emit (ServerClose srv) w in
  match port w with
  | PortHeld s => if decide (s = srv) then set_port PortFree w else w
  | _ => w
  end.

Definition portInUseError : JsError :=
  Error ("Port " +:+ pretty port_number
         +:+ " is already in use. Please ensure no other application is using this port and try again.").

(** [startServer]: [this.server] is assigned the fresh server object before
    the bind is attempted; the promise rejects through the ['error']
    listener or resolves with the port. *)
Definition startServer (fault : option JsError) (w : World)
  : World * (JsError + Z) :=
  let srv := nextServer w in
  let w := set_server (Some srv) (set_nextServer (S srv) w) in
  match listen fault srv w with
  | inl error =>
      if decide (err_code error = Some "EADDRINUSE")
      then (w, inl portInUseError)
      else (w, inl error)
  | inr w' => (w', inr port_number)
  end.

Definition stopServer (w : World) : World :=
  match server w with
  | Some srv => set_server None (close srv w)
  | None => w
  end.

Definition getCallbackUrl : string :=
  "http://127.0.0.1:" +:+ pretty port_number +:+ "/callback".

Definition successPage : string :=
  "<!DOCTYPE html>
<html lang="
  +:+ dquote +:+ "en"
  +:+ dquote +:+ ">
<head>
    <meta charset="
  +:+ dquote +:+ "UTF-8"
  +:+ dquote +:+ ">
    <meta name="
  +:+ dquote +:+ "viewport"
  +:+ dquote +:+ " content="
  +:+ dquote +:+ "width=device-width, initial-scale=1.0"
  +:+ dquote +:+ ">
    <title>Spotify Authorization - Success</title>
    <style>
        body {
            font-family: -apple-system, BlinkMacSystemFont, 'Segoe UI', Roboto, Oxygen, Ubuntu, Cantarell, sans-serif;
            background: linear-gradient(135deg, #1db954, #1ed760);
            color: white;
            margin: 0;
            padding: 0;
            display: flex;
            justify-content: center;
            align-items: center;
            height: 100vh;
            text-align: center;
        }
        .container {
            background: rgba(0, 0, 0, 0.1);
            backdrop-filter: blur(10px);
            padding: 3rem;
            border-radius: 20px;
            max-width: 500px;
            box-shadow: 0 8px 32px rgba(0, 0, 0, 0.3);
        }
        .success-icon {
            font-size: 4rem;
            margin-bottom: 1rem;
            animation: bounce 1s ease-in-out;
        }
        h1 {
            margin: 1rem 0;
            font-size: 2rem;
            font-weight: 300;
        }
        p {
            font-size: 1.1rem;
            line-height: 1.6;
            margin: 1.5rem 0;
            opacity: 0.9;
        }
        .redirect-info {
            background: rgba(255, 255, 255, 0.1);
            padding: 1rem;
            border-radius: 10px;
            margin: 1.5rem 0;
            border: 1px solid rgba(255, 255, 255, 0.2);
        }
        .spinner {
            width: 20px;
            height: 20px;
            border: 2px solid rgba(255, 255, 255, 0.3);
            border-top: 2px solid white;
            border-radius: 50%;
            animation: spin 1s linear infinite;
            display: inline-block;
            margin-right: 0.5rem;
        }
        @keyframes bounce {
            0%, 20%, 60%, 100% { transform: translateY(0); }
            40% { transform: translateY(-20px); }
            80% { transform: translateY(-10px); }
        }
        @keyframes spin {
            0% { transform: rotate(0deg); }
            100% { transform: rotate(360deg); }
        }
        .footer {
            margin-top: 2rem;
            font-size: 0.9rem;
            opacity: 0.7;
        }
    </style>
</head>
<body>
    <div class="
  +:+ dquote +:+ "container"
  +:+ dquote +:+ ">
        <div class="
  +:+ dquote +:+ "success-icon"
  +:+ dquote +:+ ">✅</div>
        <h1>Authorization Successful!</h1>
        <p>You have successfully authorized the VSCode Pomodoro Spotify extension to access your Spotify account.</p>
        
        <div class="
  +:+ dquote +:+ "redirect-info"
  +:+ dquote +:+ ">
            <div class="
  +:+ dquote +:+ "spinner"
  +:+ dquote +:+ "></div>
            <strong>Redirecting to VS Code...</strong>
        </div>
        
        <p>If VS Code doesn't open automatically, please return to VS Code manually to continue. You can safely close this browser tab.</p>
        
        <div class="
  +:+ dquote +:+ "footer"
  +:+ dquote +:+ ">
            VSCode Pomodoro Spotify Extension
        </div>
    </div>
</body>
</html>".

Definition errorPagePrefix : string :=
  "<!DOCTYPE html>
<html lang="
  +:+ dquote +:+ "en"
  +:+ dquote +:+ ">
<head>
    <meta charset="
  +:+ dquote +:+ "UTF-8"
  +:+ dquote +:+ ">
    <meta name="
  +:+ dquote +:+ "viewport"
  +:+ dquote +:+ " content="
  +:+ dquote +:+ "width=device-width, initial-scale=1.0"
  +:+ dquote +:+ ">
    <title>Spotify Authorization - Error</title>
    <style>
        body {
            font-family: -apple-system, BlinkMacSystemFont, 'Segoe UI', Roboto, Oxygen, Ubuntu, Cantarell, sans-serif;
            background: linear-gradient(135deg, #dc2626, #ef4444);
            color: white;
            margin: 0;
            padding: 0;
            display: flex;
            justify-content: center;
            align-items: center;
            height: 100vh;
            text-align: center;
        }
        .container {
            background: rgba(0, 0, 0, 0.1);
            backdrop-filter: blur(10px);
            padding: 3rem;
            border-radius: 20px;
            max-width: 500px;
            box-shadow: 0 8px 32px rgba(0, 0, 0, 0.3);
        }
        .error-icon {
            font-size: 4rem;
            margin-bottom: 1rem;
        }
        h1 {
            margin: 1rem 0;
            font-size: 2rem;
            font-weight: 300;
        }
        p {
            font-size: 1.1rem;
            line-height: 1.6;
            margin: 1.5rem 0;
            opacity: 0.9;
        }
        .error-info {
            background: rgba(255, 255, 255, 0.1);
            padding: 1rem;
            border-radius: 10px;
            margin: 1.5rem 0;
            border: 1px solid rgba(255, 255, 255, 0.2);
        }
        .footer {
            margin-top: 2rem;
            font-size: 0.9rem;
            opacity: 0.7;
        }
    </style>
</head>
<body>
    <div class="
  +:+ dquote +:+ "container"
  +:+ dquote +:+ ">
        <div class="
  +:+ dquote +:+ "error-icon"
  +:+ dquote +:+ ">❌</div>
        <h1>Authorization Failed</h1>
        <p>There was an error during the Spotify authorization process.</p>
        
        <div class="
  +:+ dquote +:+ "error-info"
  +:+ dquote +:+ ">
            <strong>Error: ".

Definition errorPageSuffix : string :=
  "</strong>
        </div>
        
        <p>Please return to VS Code and try the authorization process again. You can safely close this browser tab.</p>
        
        <div class="
  +:+ dquote +:+ "footer"
  +:+ dquote +:+ ">
            VSCode Pomodoro Spotify Extension
        </div>
    </div>
</body>
</html>".

Definition getSuccessPageHtml : string := successPage.

(** The template literal of [getErrorPageHtml]: the text before the
    interpolation, the value of [error] as it is, the text after. *)
Definition getErrorPageHtml (error : string) : string :=
  errorPagePrefix +:+ error +:+ errorPageSuffix.

Record Response : Type := MkResponse
  { statusCode : Z;
    contentType : string;
    cacheControl : option string;
    body : string }.

(** What one request leads to: the response, and the URI that
    [setTimeout(..., 3000)] will hand to [vscode.env.openExternal]. *)
Record Handled : Type := MkHandled
  { response : Response; handoff : option string }.

Definition sendErrorResponse (message : string) : Handled :=
  MkHandled (MkResponse 400 "text/plain" None ("Error: " +:+ message)) None.

Definition send404Response : Handled :=
  MkHandled (MkResponse 404 "text/plain" None "Not Found") None.

(** [handleCallback].  Nothing in the [try] block throws on string
    parameters, so the [catch] branch does not appear. *)
Definition handleCallback (query : Query) : Handled :=
  if truthy (q_code query) then
    MkHandled
      (MkResponse 200 "text/html" (Some "no-cache") getSuccessPageHtml)
      (Some ("vscode://sbblanke.vscode-pomodoro-spotify/auth-callback?code="
             +:+ encodeURIComponent (default "" (q_code query))
             +:+ "&state="
             +:+ encodeURIComponent
                   (if truthy (q_state query)
                    then default "" (q_state query) else "")))
  else if truthy (q_error query) then
    MkHandled
      (MkResponse 200 "text/html" (Some "no-cache")
         (getErrorPageHtml (default "" (q_error query))))
      None
  else sendErrorResponse "Missing authorization code or error parameter".

(** The request listener of [http.createServer]: [req.url] may be absent;
    otherwise [url.parse(req.url, true)] yields a path and a query. *)
Definition requestListener (req_url : option (string * Query)) : Handled :=
  match req_url with
  | None => sendErrorResponse "Invalid request"
  | Some (pathname, query) =>
      if decide (pathname = "/callback") then handleCallback query
      else send404Response
  end.

End AuthCallbackServer.

(** ** [SpotifyService] *)
Module SpotifyService.

Definition ACCESS_TOKEN_KEY : string := "spotify_access_token".
Definition REFRESH_TOKEN_KEY : string := "spotify_refresh_token".
Definition TOKEN_EXPIRY_KEY : string := "spotify_token_expiry".

(** Set by the constructor. *)
Definition redirectUri : string := "http://127.0.0.1:3000/callback".

Definition SCOPES : list string :=
  [ "user-read-playback-state"; "user-modify-playback-state";
    "playlist-read-private"; "playlist-read-collaborative" ].

(** [getClientId]: the setting, else the environment variable, else the
    built-in identifier (the one-time notice about the shared identifier
    is user interface only and is left out). *)
Definition getClientId (w : World) : string :=
  if truthy (Some (settingsClientId w)) then settingsClientId w
  else if truthy (envClientId w) then default "" (envClientId w)
  else "c8bb1453d9954a9db7cceb166fdeb4d5".

(** The state right after [new SpotifyService(context)] on empty storage. *)
Definition initial (settings : string) (env : option string) : World :=
  MkWorld "" "" None None None [] PortFree 0%nat ∅ ∅ 0%nat 0%nat
    settings env [].

(** [crypto.randomBytes(n)]: [n] bytes of the system's entropy stream
    [src], read from position [from]. *)
Definition randomBytes (n : nat) (src : nat -> Z) (from : nat) : list Z :=
  map (fun i : nat => src i mod 256) (seq from n).

(** [generateCodeVerifier], on the entropy it draws. *)
Definition generateCodeVerifier (src : nat -> Z) (from : nat) : string :=
  Base64Url.encode (randomBytes 32 src from).

(** [generateCodeChallenge] *)
Definition generateCodeChallenge (codeVerifier : string) : string :=
  Base64Url.encode (SHA256.digest (bytes_of_string codeVerifier)).

(** [openAuthUrl]: two draws of 32 bytes, then the authorize URL is handed
    to the browser.  The messages shown once the browser reports back are
    user interface only and are left out. *)
Definition openAuthUrl (src : nat -> Z) (w : World) : World :=
  let w := set_codeVerifier (generateCodeVerifier src 0) w in
  let w := set_authState (Base64Url.encode (randomBytes 32 src 32)) w in
  let codeChallenge := generateCodeChallenge (codeVerifier w) in
  let authUrl :=
    "https://accounts.spotify.com/authorize?"
    +:+ "client_id=" +:+ getClientId w +:+ "&"
    +:+ "response_type=code&"
    +:+ "redirect_uri=" +:+ encodeURIComponent redirectUri +:+ "&"
    +:+ "scope=" +:+ encodeURIComponent (String.concat " " SCOPES) +:+ "&"
    +:+ "code_challenge_method=S256&"
    +:+ "code_challenge=" +:+ codeChallenge +:+ "&"
    +:+ "state=" +:+ authState w in
  emit (OpenExternal authUrl) w.

(** [authenticate], up to the point where the timer is armed.  The promise
    it returns is the fresh entry of the promise store; its identifier is
    returned with the new state.  The outcome of the bind is taken at
    once: the suspension at [await startServer()] is not a separate step.
    From [openAuthUrl] to [setTimeout] the source runs without yielding to
    the event loop.  (The usage keys that its first line,
    [logClientIdUsage], writes are other storage keys; the call as a whole
    is [SpotifyClient.authenticate_logged].) *)
Definition authenticate (fault : option JsError) (src : nat -> Z) (w : World)
  : World * nat :=
  let p := length (promises w) in
  let w := set_promises (promises w ++ [Pending]) w in
  let w := set_pendingAuthResolve (Some p) w in
  let w := set_pendingAuthReject (Some p) w in
  match AuthCallbackServer.startServer fault w with
  | (w, inr _) =>
      let w := openAuthUrl src w in
      (set_timers (S (timers w)) w, p)
  | (w, inl error) =>
      let w := emit (ConsoleError "Error starting authentication:") w in
      (call_reject p error w, p)
  end.

(** The callback of [setTimeout(..., 300000)]. *)
Definition authTimeout (w : World) : World :=
  match pendingAuthReject w with
  | Some p =>
      let w := call_reject p (Error "Authentication timeout") w in
      let w := set_pendingAuthReject None w in
      let w := set_pendingAuthResolve None w in
      AuthCallbackServer.stopServer w
  | None => w
  end.

(** [exchangeCodeForTokens], first half: the request is written. *)
Definition exchangeCodeForTokens_request (code : string) (w : World) : World :=
  emit (PostToken (AuthorizationCodeGrant code redirectUri (getClientId w)
                     (codeVerifier w))) w.

(** [exchangeCodeForTokens], second half: the ['end'] handler of the
    response, at time [now].  [None] when the promise resolves, the error
    when it rejects. *)
Definition exchangeCodeForTokens_response
    (outcome : HttpOutcome CodeTokenData) (now : Z) (w : World)
  : World * option JsError :=
  match outcome with
  | NetworkError e => (w, Some e)
  | HttpResponse status data parsed =>
      if decide (status = 200) then
        match parsed with
        | None => (w, Some jsonSyntaxError)
        | Some tokenData =>
            let w := set_secrets
                       (<[ACCESS_TOKEN_KEY := c_access_token tokenData]>
                          (secrets w)) w in
            let w := set_secrets
                       (<[REFRESH_TOKEN_KEY := c_refresh_token tokenData]>
                          (secrets w)) w in
            let expiryTime := now + c_expires_in tokenData * 1000 in
            (set_globalState (<[TOKEN_EXPIRY_KEY := expiryTime]>
                                (globalState w)) w, None)
        end
      else
        (w, Some (Error ("Token exchange failed: " +:+ pretty status
                         +:+ " " +:+ data)))
  end.

(** Whether a call of [handleAuthCallback] ran to its end or is suspended
    at [await this.exchangeCodeForTokens(code)]. *)
Inductive Progress : Type :=
| Completed
| Awaiting.

(** The "Clean up" lines at the end of [handleAuthCallback]. *)
Definition cleanup (w : World) : World :=
  let w := set_pendingAuthResolve None w in
  let w := set_pendingAuthReject None w in
  AuthCallbackServer.stopServer w.

(** [handleAuthCallback], from its entry to its first suspension or to its
    end. *)
Definition handleAuthCallback_begin (query : Query) (w : World)
  : World * Progress :=
  let code := q_code query in
  let error := q_error query in
  let state := q_state query in
  if decide (state = Some (authState w)) then
    if truthy code && bool_decide (is_Some (pendingAuthResolve w)) then
      let w := exchangeCodeForTokens_request (default "" code) w in
      (set_inflight (S (inflight w)) w, Awaiting)
    else
      match pendingAuthReject w with
      | Some p =>
          if truthy error then
            let w := call_reject p
                       (Error ("Authentication failed: "
                               +:+ default "" error)) w in
            let w := emit (ShowErrorMessage
                             ("Spotify authentication failed: "
                              +:+ default "" error)) w in
            (cleanup w, Completed)
          else (cleanup w, Completed)
      | None => (cleanup w, Completed)
      end
  else
    let stateError :=
      Error "Invalid state parameter - potential CSRF attack" in
    let w := match pendingAuthReject w with
             | Some p => call_reject p stateError w
             | None => w
             end in
    let w := emit (ShowErrorMessage "Authentication failed: Security error")
               w in
    (AuthCallbackServer.stopServer w, Completed).

(** The [catch (authError)] block of [handleAuthCallback]. *)
Definition catch_authError (authError : JsError) (w : World) : World :=
  let w := match pendingAuthReject w with
           | Some p => call_reject p authError w
           | None => w
           end in
  emit (ShowErrorMessage
          ("Authentication failed: " +:+ error_to_string authError)) w.

(** The rest of the [try] block of [handleAuthCallback] once the exchange
    has settled, and its [catch].  Calling [this.pendingAuthResolve] when
    the field is [undefined] throws a [TypeError] inside the [try]. *)
Definition after_exchange (failure : option JsError) (w : World) : World :=
  match failure with
  | Some authError => catch_authError authError w
  | None =>
      let w := emit (FireAuthStateChange true) w in
      match pendingAuthResolve w with
      | Some p =>
          let w := call_resolve p w in
          emit (ShowInformationMessage
                  "üéâ Spotify Connected! Configure your playlists in Settings to enable automatic music switching during focus sessions.")
            w
      | None =>
          catch_authError
            (MkError "TypeError" None
               "this.pendingAuthResolve is not a function") w
      end
  end.

(** [handleAuthCallback], from the moment the exchange settles to its
    end. *)
Definition handleAuthCallback_resume
    (outcome : HttpOutcome CodeTokenData) (now : Z) (w : World) : World :=
  let '(w, failure) := exchangeCodeForTokens_response outcome now w in
  cleanup (after_exchange failure w).

(** [refreshAccessToken], the ['end'] handler of the response. *)
Definition refreshAccessToken_response
    (outcome : HttpOutcome RefreshTokenData) (now : Z) (w : World)
  : World * bool :=
  match outcome with
  | NetworkError _ => (w, false)
  | HttpResponse status data parsed =>
      if decide (status = 200) then
        match parsed with
        | None => (emit (ConsoleError "Token refresh failed:") w, false)
        | Some tokenData =>
            let w := set_secrets
                       (<[ACCESS_TOKEN_KEY := r_access_token tokenData]>
                          (secrets w)) w in
            let w := if truthy (r_refresh_token tokenData)
                     then set_secrets
                            (<[REFRESH_TOKEN_KEY :=
                                 default "" (r_refresh_token tokenData)]>
                               (secrets w)) w
                     else w in
            let expiryTime := now + r_expires_in tokenData * 1000 in
            (set_globalState (<[TOKEN_EXPIRY_KEY := expiryTime]>
                                (globalState w)) w, true)
        end
      else (w, false)
  end.

(** [refreshAccessToken]: no request is made without a stored refresh
    token; otherwise the request is sent and the response, received at
    time [now], decides the result. *)
Definition refreshAccessToken
    (outcome : HttpOutcome RefreshTokenData) (now : Z) (w : World)
  : World * bool :=
  let refreshToken := secrets w !! REFRESH_TOKEN_KEY in
  if truthy refreshToken then
    let w := emit (PostToken (RefreshTokenGrant (default "" refreshToken)
                                (getClientId w))) w in
    refreshAccessToken_response outcome now w
  else (w, false).

(** [isAuthenticated] at time [now]; [outcome] and [now_response] are the
    response to the refresh request and the time it arrives, used only if
    a refresh is attempted.  The check and the refresh it may start are
    one step. *)
Definition isAuthenticated
    (now : Z) (outcome : HttpOutcome RefreshTokenData) (now_response : Z)
    (w : World) : World * bool :=
  let accessToken := secrets w !! ACCESS_TOKEN_KEY in
  let tokenExpiry := globalState w !! TOKEN_EXPIRY_KEY in
  if negb (truthy accessToken) || negb (truthy_num tokenExpiry) then
    (w, false)
  else if decide (default 0 tokenExpiry - 300000 < now) then
    refreshAccessToken outcome now_response w
  else (w, true).

(** [dispose] (the event emitter it disposes is not modelled). *)
Definition dispose (w : World) : World := AuthCallbackServer.stopServer w.

(** ** The event loop

    What can happen to the service, one macrotask at a time. *)
Inductive Event : Type :=
| EvAuthenticate (fault : option JsError) (src : nat -> Z)
| EvUriCallback (query : Query)
| EvExchangeDone (outcome : HttpOutcome CodeTokenData) (now : Z)
| EvTimeout
| EvIsAuthenticated (now : Z) (outcome : HttpOutcome RefreshTokenData)
    (now_response : Z)
| EvDispose.

Definition step (w : World) (ev : Event) : World :=
  match ev with
  | EvAuthenticate fault src => fst (authenticate fault src w)
  | EvUriCallback query => fst (handleAuthCallback_begin query w)
  | EvExchangeDone outcome now =>
      match inflight w with
      | O => w
      | S n => handleAuthCallback_resume outcome now (set_inflight n w)
      end
  | EvTimeout =>
      match timers w with
      | O => w
      | S n => authTimeout (set_timers n w)
      end
  | EvIsAuthenticated now outcome now_response =>
      fst (isAuthenticated now outcome now_response w)
  | EvDispose => dispose w
  end.

Definition run (evs : list Event) (w : World) : World :=
  fold_left step evs w.

(** [handleAuthCallback] when nothing else runs while it is suspended. *)
Definition handleAuthCallback
    (query : Query) (outcome : HttpOutcome CodeTokenData) (now : Z)
    (w : World) : World :=
  run [EvUriCallback query; EvExchangeDone outcome now] w.

(** ** Observations *)

Definition is_exchange (e : Effect) : bool :=
  match e with
  | PostToken (AuthorizationCodeGrant _ _ _ _) => true
  | _ => false
  end.

(** The number of calls to the token exchanger so far. *)
Definition exchange_calls (w : World) : nat :=
  length (filter (fun e => is_exchange e = true) (trace w)).

(** Any request sent to the token endpoint. *)
Definition is_post (e : Effect) : bool :=
  match e with
  | PostToken _ => true
  | _ => false
  end.

Definition token_posts (w : World) : nat :=
  length (filter (fun e => is_post e = true) (trace w)).

(** The listener of this process is bound to the port. *)
Definition listening (w : World) : bool :=
  match port w with
  | PortHeld _ => true
  | _ => false
  end.

(** The only server object of this process that can hold the port is the
    one the service refers to. *)
Definition owned (w : World) : bool :=
  match port w, server w with
  | PortHeld s, Some srv => bool_decide (s = srv)
  | PortHeld _, None => false
  | _, _ => true
  end.

(** A pending session: both continuations are those of promise [p], which
    has not settled. *)
Definition pending_session (w : World) (p : nat) : Prop :=
  pendingAuthResolve w = Some p
  /\ pendingAuthReject w = Some p
  /\ promises w !! p = Some Pending.

(** Promise [p] has not settled and neither continuation of the service
    refers to it. *)
Definition stranded (w : World) (p : nat) : Prop :=
  pendingAuthResolve w <> Some p
  /\ pendingAuthReject w <> Some p
  /\ promises w !! p = Some Pending.

(** The listener has been stopped: the service holds no server object and
    no server object of this process is bound to the port. *)
Definition stopped (w : World) : Prop :=
  server w = None /\ listening w = false.

(** [w'] is [w] with further effects recorded, none of them a request to
    the token endpoint. *)
Definition quiet (w w' : World) : Prop :=
  exists l, trace w' = trace w ++ l
            /\ Forall (fun e => is_post e = false) l.

(** The fields that make up the pending session, and those that make up
    the listener. *)
Definition session_fields (w : World)
  : option nat * option nat * list PromiseState :=
  (pendingAuthResolve w, pendingAuthReject w, promises w).

Definition listener_fields (w : World) : option nat * PortState :=
  (server w, port w).

(** The token record in storage. *)
Definition stored_fields (w : World) : gmap string string * gmap string Z :=
  (secrets w, globalState w).

(** The error of the state check in [handleAuthCallback]. *)
Definition stateError : JsError :=
  Error "Invalid state parameter - potential CSRF attack".

End SpotifyService.

(** ** Sample inputs

    Concrete states and inputs on which the statements below are
    exercised. *)
Module Samples.
Import SpotifyService.

(** An entropy stream. *)
Definition entropy (i : nat) : Z := Z.of_nat i * 7 + 3.

(** The service after a first successful [authenticate()]. *)
Definition awaiting : World :=
  fst (authenticate None entropy (initial "" None)).

(** A bind failure that is not an occupied port. *)
Definition eacces : JsError :=
  MkError "Error" (Some "EACCES")
    "listen EACCES: permission denied 127.0.0.1:3000".

(** The redirect the provider sends after consent. *)
Definition good_query : Query :=
  MkQuery (Some "abc123") None (Some (authState awaiting)).

(** A forged redirect. *)
Definition forged_query : Query :=
  MkQuery (Some "abc123") None (Some "not-the-state").

(** A redirect with the right state and nothing else. *)
Definition bare_query : Query :=
  MkQuery None None (Some (authState awaiting)).

Definition denied_query : Query :=
  MkQuery None (Some "access_denied") (Some (authState awaiting)).

Definition ok200 : HttpOutcome CodeTokenData :=
  HttpResponse 200 "{...}" (Some (MkCodeTokenData "AT" "RT" 3600)).

Definition bad400 : HttpOutcome CodeTokenData :=
  HttpResponse 400 "invalid_grant" None.

(** The service while the exchange of [good_query] is in flight. *)
Definition resolving : World := step awaiting (EvUriCallback good_query).

(** The redirect is delivered twice and the second delivery starts while
    the exchange of the first is in flight; the provider accepts the code
    once. *)
Definition overlapped : World :=
  run [ EvUriCallback good_query; EvUriCallback good_query;
        EvExchangeDone ok200 1000; EvExchangeDone bad400 1001 ] awaiting.

(** The redirect is delivered twice, the second time after the first
    handler has finished. *)
Definition sequential : World :=
  run [ EvUriCallback good_query; EvExchangeDone ok200 1000;
        EvUriCallback good_query ] awaiting.

(** A stored token record expiring at [expiry], with refresh token. *)
Definition stored (expiry : Z) : World :=
  set_globalState (<[TOKEN_EXPIRY_KEY := expiry]> ∅)
    (set_secrets (<[ACCESS_TOKEN_KEY := "AT"]>
                    (<[REFRESH_TOKEN_KEY := "RT"]> ∅))
       (initial "" None)).

(** A refresh response without a new refresh token. *)
Definition refreshed : RefreshTokenData := MkRefreshTokenData "AT2" None 3600.

Definition refresh200 : HttpOutcome RefreshTokenData :=
  HttpResponse 200 "{...}" (Some refreshed).

(** Markup in the [error] parameter of a redirect. *)
Definition markup : string := "<script>alert(1)</script>".

End Samples.

(** ** [ErrorHandler] ([src/utils/ErrorHandler.ts]) *)
Module ErrorHandler.

Inductive ErrorType : Type :=
| SpotifyAuth
| SpotifyAPI
| Network
| Configuration
| Timer
| General.

(** What the [recoveryAction] closures do when the user picks Retry. *)
Inductive Recovery : Type :=
| RunAuthenticateCommand
| AskRetryConnection
| RunConfigureSettingsCommand
| RunResetTimerCommand.

Record ExtensionError : Type := MkExtensionError
  { type : ErrorType;
    message : string;
    originalError : option JsError;
    recoverable : bool;
    recoveryAction : option Recovery }.

(** [haystack.includes(needle)] *)
Definition includes (haystack needle : string) : bool :=
  contains needle haystack.

(** [xs.slice(-n)]: the last [n] elements. *)
Definition slice_last {A : Type} (n : nat) (xs : list A) : list A :=
  skipn (length xs - n) xs.

Definition createSpotifyAuthError (originalError : JsError) : ExtensionError :=
  MkExtensionError SpotifyAuth
    "Spotify authentication failed. Your session may have expired."
    (Some originalError) true (Some RunAuthenticateCommand).

Definition createSpotifyAPIError (originalError : JsError) (action : string)
  : ExtensionError :=
  MkExtensionError SpotifyAPI
    ("Spotify API error during " +:+ action
     +:+ ". Check your internet connection and Spotify account status.")
    (Some originalError) true (Some AskRetryConnection).

Definition createNetworkError (originalError : JsError) : ExtensionError :=
  MkExtensionError Network
    "Network connectivity issue detected. Timer continues normally."
    (Some originalError) true None.

Definition createTimerError (originalError : JsError) : ExtensionError :=
  MkExtensionError Timer "Timer system error occurred."
    (Some originalError) true (Some RunResetTimerCommand).

Definition isNetworkError (error : JsError) : bool :=
  existsb (fun msg => includes (err_message error) msg
                      || includes (err_name error) msg)
    [ "ENOTFOUND"; "ECONNREFUSED"; "ECONNRESET"; "ETIMEDOUT";
      "Network request failed" ].

Definition isSpotifyAuthError (error : JsError) : bool :=
  existsb (fun msg => includes (err_message error) msg)
    [ "Invalid access token"; "Token expired"; "Authentication required";
      "Unauthorized"; "invalid_grant" ].

Definition is_SpotifyAPI (t : ErrorType) : bool :=
  match t with SpotifyAPI => true | _ => false end.

(** The [catch] block of [withErrorHandling]: the error that is handed to
    [handleError].  [thrown] is [None] when the thrown value is not an
    [Error]. *)
Definition classify (thrown : option JsError) (errorType : ErrorType)
    (context : string) : ExtensionError :=
  match thrown with
  | Some error =>
      if isNetworkError error then createNetworkError error
      else if is_SpotifyAPI errorType && isSpotifyAuthError error
      then createSpotifyAuthError error
      else match errorType with
           | SpotifyAuth => createSpotifyAuthError error
           | SpotifyAPI => createSpotifyAPIError error context
           | Timer => createTimerError error
           | _ => MkExtensionError errorType
                    ("Error in " +:+ context +:+ ": " +:+ err_message error)
                    (Some error) true None
           end
  | None =>
      MkExtensionError errorType ("Unknown error in " +:+ context)
        None false None
  end.

(** An entry of the error log in [globalState]. *)
Record LogEntry : Type := MkLogEntry
  { timestamp : string; error : ExtensionError }.

(** [logError], once [initialize] has set the context: append, then keep
    the last 50. *)
Definition logError (now : string) (e : ExtensionError)
    (errorLog : list LogEntry) : list LogEntry :=
  slice_last 50 (errorLog ++ [MkLogEntry now e]).

(** [withErrorHandling]: the operation either returns a value or throws;
    on a throw the classified error is logged and [null] is returned. *)
Definition withErrorHandling {T : Type} (operation : option JsError + T)
    (errorType : ErrorType) (context : string) (now : string)
    (errorLog : list LogEntry) : option T * list LogEntry :=
  match operation with
  | inr value => (Some value, errorLog)
  | inl thrown => (None, logError now (classify thrown errorType context)
                            errorLog)
  end.

End ErrorHandler.

(** ** [SpotifyService], the Web API side

    The remaining methods of the class: the request helper, the playlist
    and track queries, device selection and the usage log. *)
Module SpotifyClient.
Import SpotifyService.

(** What [makeSpotifyRequest] resolves with: [{}] for an empty body, the
    parsed JSON, or the raw text when parsing throws. *)
Inductive Body (A : Type) : Type :=
| EmptyObject
| Json (value : A)
| RawText (data : string).
Arguments EmptyObject {A}.
Arguments Json {A} value.
Arguments RawText {A} data.

(** The message of the error on a status outside 200..299. *)
Definition sanitizedError (statusCode : Z) : string :=
  if decide (statusCode = 401) then "Authentication required"
  else if decide (statusCode = 403) then "Access forbidden"
  else if decide (statusCode = 429) then "Rate limit exceeded"
  else if decide (statusCode = 404) then "Resource not found"
  else "Request failed with status " +:+ pretty statusCode.

(** [makeSpotifyRequest], from the outcome of the HTTPS request. *)
Definition makeSpotifyRequest {A : Type} (outcome : HttpOutcome A)
  : JsError + Body A :=
  match outcome with
  | NetworkError e => inl e
  | HttpResponse statusCode data parsed =>
      if negb (statusCode =? 0) && (200 <=? statusCode)
         && (statusCode <? 300)
      then if String.eqb data "" then inr EmptyObject
           else match parsed with
                | Some value => inr (Json value)
                | None => inr (RawText data)
                end
      else inl (Error (sanitizedError statusCode))
  end.

(** A device of [/v1/me/player/devices]. *)
Record Device : Type := MkDevice
  { device_id : string;
    device_name : string;
    device_type : string;
    is_active : bool;
    is_restricted : bool }.

(** [String.prototype.toLowerCase] on ASCII letters. *)
Definition lower_ascii (c : ascii) : ascii :=
  let n := nat_of_ascii c in
  if (65 <=? n)%nat && (n <=? 90)%nat then ascii_of_nat (n + 32) else c.

Fixpoint toLowerCase (s : string) : string :=
  match s with
  | EmptyString => EmptyString
  | String c rest => String (lower_ascii c) (toLowerCase rest)
  end.

Definition is_computer (device : Device) : bool :=
  negb (is_restricted device)
  && (String.eqb (device_type device) "Computer"
      || String.eqb (device_type device) "Desktop").

Definition is_web_player (device : Device) : bool :=
  negb (is_restricted device)
  && contains "web player" (toLowerCase (device_name device)).

Definition is_mobile (device : Device) : bool :=
  negb (is_restricted device)
  && (String.eqb (device_type device) "Smartphone"
      || String.eqb (device_type device) "Tablet").

Definition is_unrestricted (device : Device) : bool :=
  negb (is_restricted device).

(** [selectBestDevice]; [None] is [null]. *)
Definition selectBestDevice (devices : list Device) : option Device :=
  match devices with
  | [] => None
  | fallbackDevice :: _ =>
      match List.find is_active devices with
      | Some activeDevice => Some activeDevice
      | None =>
          match List.filter is_computer devices with
          | selectedDevice :: _ => Some selectedDevice
          | [] =>
              match List.filter is_web_player devices with
              | selectedDevice :: _ => Some selectedDevice
              | [] =>
                  match List.filter is_mobile devices with
                  | selectedDevice :: _ => Some selectedDevice
                  | [] =>
                      match List.filter is_unrestricted devices with
                      | selectedDevice :: _ => Some selectedDevice
                      | [] => Some fallbackDevice
                      end
                  end
              end
          end
      end
  end.

(** [CurrentTrack] *)
Record CurrentTrack : Type := MkCurrentTrack
  { track_name : string;
    artists : list string;
    isPlaying : bool;
    progressMs : option Z;
    durationMs : option Z;
    album : option string;
    imageUrl : option string }.

(** The JSON of [/v1/me/player/currently-playing], as far as it is read. *)
Record ItemJson : Type := MkItemJson
  { item_name : string;
    item_artists : list string;
    item_duration_ms : option Z;
    item_album_name : option string;
    item_album_image : option string }.

Record PlayingJson : Type := MkPlayingJson
  { item : option ItemJson; is_playing : bool; progress_ms : option Z }.

(** The two instance fields the track query maintains. *)
Record Player : Type := MkPlayer
  { lastKnownTrack : option CurrentTrack; networkConnected : bool }.

(** The warning sign the source puts in front of a stale track name, byte
    for byte as the source file has it. *)
Definition warning_sign : string := "‚ö†Ô∏è".

(** [getCurrentTrack]: the stored access token, the outcome of the
    request, the fields before. *)
Definition getCurrentTrack (accessToken : option string)
    (outcome : HttpOutcome PlayingJson) (this : Player)
  : option CurrentTrack * Player :=
  if truthy accessToken then
    match makeSpotifyRequest outcome with
    | inr (Json (MkPlayingJson (Some it) playing progress)) =>
        let currentTrack :=
          MkCurrentTrack (item_name it) (item_artists it) playing progress
            (item_duration_ms it) (item_album_name it)
            (item_album_image it) in
        (Some currentTrack, MkPlayer (Some currentTrack) true)
    | inr _ => (lastKnownTrack this, this)
    | inl _ =>
        let this := MkPlayer (lastKnownTrack this) false in
        match lastKnownTrack this with
        | Some t =>
            (Some (MkCurrentTrack (warning_sign +:+ " " +:+ track_name t)
                     (artists t) true (progressMs t) (durationMs t)
                     (album t) (imageUrl t)), this)
        | None =>
            (Some (MkCurrentTrack (warning_sign +:+ " Network Error")
                     ["Connection Lost"] false None None None None), this)
        end
    end
  else (None, this).

(** [isNetworkConnected] *)
Definition isNetworkConnected (this : Player) : bool := networkConnected this.

(** [PlaylistInfo] and the JSON item it is read from
    ([playlist.description || ''], [playlist.tracks.total]). *)
Record PlaylistInfo : Type := MkPlaylistInfo
  { playlist_id : string;
    playlist_name : string;
    description : string;
    trackCount : Z }.

Record PlaylistJson : Type := MkPlaylistJson
  { pl_id : string;
    pl_name : string;
    pl_description : option string;
    pl_tracks_total : Z }.

(** What the operation inside [getPlaylists] does: it throws without a
    token, and when the request fails; a body that is not the expected
    JSON has no [items] and the [map] on it throws a [TypeError]. *)
Definition getPlaylists_operation (accessToken : option string)
    (outcome : HttpOutcome (list PlaylistJson))
  : option JsError + list PlaylistInfo :=
  if truthy accessToken then
    match makeSpotifyRequest outcome with
    | inl e => inl (Some e)
    | inr (Json items) =>
        inr (map (fun playlist =>
                    MkPlaylistInfo (pl_id playlist) (pl_name playlist)
                      (if truthy (pl_description playlist)
                       then default "" (pl_description playlist) else "")
                      (pl_tracks_total playlist)) items)
    | inr _ =>
        inl (Some (MkError "TypeError" None
                     "Cannot read properties of undefined (reading 'map')"))
    end
  else inl (Some (Error "Spotify not authenticated")).

(** [getPlaylists]: the operation under [withErrorHandling], then [|| []]. *)
Definition getPlaylists (accessToken : option string)
    (outcome : HttpOutcome (list PlaylistJson)) (now : string)
    (errorLog : list ErrorHandler.LogEntry)
  : list PlaylistInfo * list ErrorHandler.LogEntry :=
  let '(result, errorLog) :=
    ErrorHandler.withErrorHandling
      (getPlaylists_operation accessToken outcome)
      ErrorHandler.SpotifyAPI "fetching playlists" now errorLog in
  (default [] result, errorLog).

(** An entry of the usage log. *)
Record UsageStats : Type := MkUsageStats
  { usage_timestamp : string; isSharedClientId : bool; sessionId : string }.

(** The two [globalState] keys of the usage log
    ([sharedClientIdUsageCount], [clientIdUsageLogs]). *)
Record Usage : Type := MkUsage
  { sharedClientIdUsageCount : Z; clientIdUsageLogs : list UsageStats }.

(** [logClientIdUsage]: the new keys, and whether the scaling notice is
    shown. *)
Definition logClientIdUsage (w : World) (timestamp sessionId : string)
    (u : Usage) : Usage * bool :=
  let clientId := getClientId w in
  let isShared := String.eqb clientId "c8bb1453d9954a9db7cceb166fdeb4d5" in
  let usageStats := MkUsageStats timestamp isShared sessionId in
  let currentCount := sharedClientIdUsageCount u in
  let newLogs :=
    ErrorHandler.slice_last 9 (clientIdUsageLogs u) ++ [usageStats] in
  if isShared then
    (MkUsage (currentCount + 1) newLogs,
     (0 <? currentCount) && (currentCount mod 5 =? 0))
  else (MkUsage currentCount newLogs, false).

(** [authenticate] as a whole: its first line, [this.logClientIdUsage()],
    writes the two usage keys of [globalState]; then the session is set up
    as [SpotifyService.authenticate] describes.  The result holds the new
    state with the promise, and the usage keys with the flag of the
    scaling notice.  (The key [hasShownClientIdWarning], written when the
    user answers the notice of [getClientId], stays outside.) *)
Definition authenticate_logged (timestamp sessionId : string)
    (fault : option JsError) (src : nat -> Z) (w : World) (u : Usage)
  : (World * nat) * (Usage * bool) :=
  let logged := logClientIdUsage w timestamp sessionId u in
  (authenticate fault src w, logged).

End SpotifyClient.

(** ** Sample inputs for the Web API side *)
Module Samples2.
Import SpotifyClient.

Definition phone : Device :=
  MkDevice "d1" "My Phone" "Smartphone" false false.
Definition laptop : Device :=
  MkDevice "d2" "Laptop" "Computer" false false.
Definition tv : Device :=
  MkDevice "d3" "Living Room TV" "TV" true true.
Definition browser : Device :=
  MkDevice "d4" "Web Player (Chrome)" "Unknown" false false.

Definition song : CurrentTrack :=
  MkCurrentTrack "Song" ["Artist"] false (Some 1000) (Some 200000)
    (Some "Album") None.

Definition timeout_error : JsError :=
  MkError "Error" (Some "ETIMEDOUT") "connect ETIMEDOUT 35.186.224.25:443".

End Samples2.

(** ** Further observations on the coordinator *)
Module Invariants.
Import SpotifyService.

(** Server object [s] of this process holds the port although the service
    no longer refers to it. *)
Definition orphaned (w : World) (s : nat) : Prop :=
  port w = PortHeld s /\ server w <> Some s /\ (s < nextServer w)%nat.

(** The two continuations are set and cleared together, and when set they
    are those of one promise that exists. *)
Definition paired (w : World) : Prop :=
  pendingAuthResolve w = pendingAuthReject w
  /\ forall p, pendingAuthReject w = Some p ->
               (p < length (promises w))%nat.

(** The state that [authenticate] reaches when the bind succeeds, before
    [openAuthUrl] runs. *)
Definition bound (w : World) : World :=
  let p := length (promises w) in
  set_port (PortHeld (nextServer w))
    (set_server (Some (nextServer w))
       (set_nextServer (S (nextServer w))
          (set_pendingAuthReject (Some p)
             (set_pendingAuthResolve (Some p)
                (set_promises (promises w ++ [Pending]) w))))).

(** The authorize URL that [openAuthUrl] hands to the browser, given the
    client id, the challenge and the state. *)
Definition authorize_url (clientId challenge state : string) : string :=
  "https://accounts.spotify.com/authorize?"
  +:+ "client_id=" +:+ clientId +:+ "&"
  +:+ "response_type=code&"
  +:+ "redirect_uri=" +:+ encodeURIComponent redirectUri +:+ "&"
  +:+ "scope=" +:+ encodeURIComponent (String.concat " " SCOPES) +:+ "&"
  +:+ "code_challenge_method=S256&"
  +:+ "code_challenge=" +:+ challenge +:+ "&"
  +:+ "state=" +:+ state.

(** The record that a successful code exchange writes. *)
Definition store_tokens (tokenData : CodeTokenData) (now : Z) (w : World)
  : World :=
  set_globalState
    (<[TOKEN_EXPIRY_KEY := now + c_expires_in tokenData * 1000]>
       (globalState w))
    (set_secrets
       (<[REFRESH_TOKEN_KEY := c_refresh_token tokenData]>
          (<[ACCESS_TOKEN_KEY := c_access_token tokenData]> (secrets w)))
       w).

End Invariants.

(** * Properties *)

Import SpotifyService.

(** ** Encoding and hashing *)

Lemma string_of_list_ascii_length (l : list ascii) :
  String.length (string_of_list_ascii l) = length l.
Proof. induction l as [|c l IH]; simpl; [reflexivity | now rewrite IH]. Qed.

(** Induction three elements at a time, the way [encode_bytes] recurses. *)
Lemma list_triple_ind {A : Type} (P : list A -> Prop) :
  P [] ->
  (forall a, P [a]) ->
  (forall a b, P [a; b]) ->
  (forall a b c l, P l -> P (a :: b :: c :: l)) ->
  forall l, P l.
Proof.
  intros H0 H1 H2 H3 l.
  assert (H : P l /\ (forall a, P (a :: l)) /\ (forall a b, P (a :: b :: l))).
  { induction l as [|x l (IH0 & IH1 & IH2)].
    - repeat split; auto.
    - repeat split; auto. }
  apply H.
Qed.

Lemma encode_bytes_length (l : list Z) :
  length (Base64Url.encode_bytes l) = ((4 * length l + 2) / 3)%nat.
Proof.
  induction l as [ | a | a b | a b c l IH] using list_triple_ind;
    try reflexivity.
  cbn [Base64Url.encode_bytes length]. rewrite IH.
  replace (4 * S (S (S (length l))) + 2)%nat
    with ((4 * length l + 2) + 4 * 3)%nat by lia.
  rewrite Nat.div_add by lia. lia.
Qed.

Lemma digit_in_alphabet (i : Z) :
  Base64Url.in_alphabet (Base64Url.digit i) = true.
Proof.
  unfold Base64Url.digit.
  assert (Hr : 0 <= Z.land i 63 < 64).
  { change 63 with (Z.ones 6). rewrite Z.land_ones by lia.
    apply Z.mod_pos_bound. lia. }
  remember (Z.to_nat (Z.land i 63)) as n eqn:En.
  assert (Hn : (n < 64)%nat) by lia.
  clear En Hr.
  do 64 (destruct n as [|n]; [reflexivity|]).
  lia.
Qed.

Lemma encode_bytes_in_alphabet (l : list Z) :
  forallb Base64Url.in_alphabet (Base64Url.encode_bytes l) = true.
Proof.
  induction l as [ | a | a b | a b c l IH] using list_triple_ind;
    cbn [Base64Url.encode_bytes forallb];
    rewrite ?digit_in_alphabet, ?IH; reflexivity.
Qed.

Lemma encode_length (l : list Z) :
  String.length (Base64Url.encode l) = ((4 * length l + 2) / 3)%nat.
Proof.
  unfold Base64Url.encode.
  now rewrite string_of_list_ascii_length, encode_bytes_length.
Qed.

Lemma encode_url_safe (l : list Z) :
  Base64Url.url_safe (Base64Url.encode l) = true.
Proof.
  unfold Base64Url.url_safe, Base64Url.encode.
  rewrite list_ascii_of_string_of_list_ascii.
  apply encode_bytes_in_alphabet.
Qed.

(** Statements about one or two bytes are settled by trying every byte. *)
Lemma all_bytes_complete (P : Z -> bool) :
  forallb P Base64Url.all_bytes = true ->
  forall b, 0 <= b < 256 -> P b = true.
Proof.
  intros H b Hb. rewrite forallb_forall in H. apply H.
  unfold Base64Url.all_bytes. apply in_map_iff. exists (Z.to_nat b).
  split; [lia | apply in_seq; lia].
Qed.

Lemma value_digit (i : Z) :
  Base64Url.value (Base64Url.digit i) = Some (Z.land i 63).
Proof.
  assert (Hr : 0 <= Z.land i 63 < 64).
  { change 63 with (Z.ones 6). rewrite Z.land_ones by lia.
    apply Z.mod_pos_bound. lia. }
  unfold Base64Url.digit.
  rewrite <- (Z2Nat.id (Z.land i 63)) at 2 by lia.
  remember (Z.to_nat (Z.land i 63)) as n eqn:En.
  assert (Hn : (n < 64)%nat) by lia.
  clear En Hr.
  do 64 (destruct n as [|n]; [reflexivity|]).
  lia.
Qed.

Section Sextets.

(** The four sextets of a group of three bytes, as [encode_bytes] forms
    them and [digit] masks them. *)
Let s1 (a : Z) : Z := Z.land (Z.shiftr a 2) 63.
Let s2 (a b : Z) : Z :=
  Z.land (Z.lor (Z.shiftl (Z.land a 3) 4) (Z.shiftr b 4)) 63.
Let s3 (b c : Z) : Z :=
  Z.land (Z.lor (Z.shiftl (Z.land b 15) 2) (Z.shiftr c 6)) 63.
Let s4 (c : Z) : Z := Z.land (Z.land c 63) 63.

Lemma sextets_first (a b : Z) :
  0 <= a < 256 -> 0 <= b < 256 ->
  Z.lor (Z.shiftl (s1 a) 2) (Z.shiftr (s2 a b) 4) = a.
Proof.
  intros Ha Hb.
  assert (H : forallb (fun a => forallb (fun b =>
                Z.lor (Z.shiftl (s1 a) 2) (Z.shiftr (s2 a b) 4) =? a)
                Base64Url.all_bytes) Base64Url.all_bytes = true)
    by (vm_compute; reflexivity).
  pose proof (all_bytes_complete _ H a Ha) as H1. cbv beta in H1.
  pose proof (all_bytes_complete _ H1 b Hb) as H2. cbv beta in H2.
  now apply Z.eqb_eq.
Qed.

Lemma sextets_second_high (a b : Z) :
  0 <= a < 256 -> 0 <= b < 256 -> Z.land (s2 a b) 15 = Z.shiftr b 4.
Proof.
  intros Ha Hb.
  assert (H : forallb (fun a => forallb (fun b =>
                Z.land (s2 a b) 15 =? Z.shiftr b 4)
                Base64Url.all_bytes) Base64Url.all_bytes = true)
    by (vm_compute; reflexivity).
  pose proof (all_bytes_complete _ H a Ha) as H1. cbv beta in H1.
  pose proof (all_bytes_complete _ H1 b Hb) as H2. cbv beta in H2.
  now apply Z.eqb_eq.
Qed.

Lemma sextets_second_low (b c : Z) :
  0 <= b < 256 -> 0 <= c < 256 -> Z.shiftr (s3 b c) 2 = Z.land b 15.
Proof.
  intros Hb Hc.
  assert (H : forallb (fun b => forallb (fun c =>
                Z.shiftr (s3 b c) 2 =? Z.land b 15)
                Base64Url.all_bytes) Base64Url.all_bytes = true)
    by (vm_compute; reflexivity).
  pose proof (all_bytes_complete _ H b Hb) as H1. cbv beta in H1.
  pose proof (all_bytes_complete _ H1 c Hc) as H2. cbv beta in H2.
  now apply Z.eqb_eq.
Qed.

Lemma nibbles (b : Z) :
  0 <= b < 256 -> Z.lor (Z.shiftl (Z.shiftr b 4) 4) (Z.land b 15) = b.
Proof.
  intros Hb.
  assert (H : forallb (fun b =>
                Z.lor (Z.shiftl (Z.shiftr b 4) 4) (Z.land b 15) =? b)
                Base64Url.all_bytes = true)
    by (vm_compute; reflexivity).
  pose proof (all_bytes_complete _ H b Hb) as H1. cbv beta in H1.
  now apply Z.eqb_eq.
Qed.

Lemma sextets_second (a b c : Z) :
  0 <= a < 256 -> 0 <= b < 256 -> 0 <= c < 256 ->
  Z.lor (Z.shiftl (Z.land (s2 a b) 15) 4) (Z.shiftr (s3 b c) 2) = b.
Proof.
  intros Ha Hb Hc.
  rewrite sextets_second_high, sextets_second_low by assumption.
  now apply nibbles.
Qed.

Lemma sextets_third (b c : Z) :
  0 <= b < 256 -> 0 <= c < 256 ->
  Z.lor (Z.shiftl (Z.land (s3 b c) 3) 6) (s4 c) = c.
Proof.
  intros Hb Hc.
  assert (H : forallb (fun b => forallb (fun c =>
                Z.lor (Z.shiftl (Z.land (s3 b c) 3) 6) (s4 c) =? c)
                Base64Url.all_bytes) Base64Url.all_bytes = true)
    by (vm_compute; reflexivity).
  pose proof (all_bytes_complete _ H b Hb) as H1. cbv beta in H1.
  pose proof (all_bytes_complete _ H1 c Hc) as H2. cbv beta in H2.
  now apply Z.eqb_eq.
Qed.

(** The digits of [encode_bytes] spell the bytes they came from. *)
Lemma decode_encode_bytes (l : list Z) :
  Forall (fun b => 0 <= b < 256) l ->
  exists vs, Base64Url.values (Base64Url.encode_bytes l) = Some vs
             /\ Base64Url.decode_values vs = l.
Proof.
  induction l as [ | a | a b | a b c l IH] using list_triple_ind;
    intros Hl.
  - exists []. split; reflexivity.
  - apply Forall_cons in Hl as [Ha _].
    cbn [Base64Url.encode_bytes Base64Url.values].
    rewrite !value_digit. eexists; split; [reflexivity|].
    cbn [Base64Url.decode_values]. f_equal.
    pose proof (sextets_first a 0 Ha ltac:(lia)) as H.
    unfold s1, s2 in H. rewrite Z.shiftr_0_l, Z.lor_0_r in H. exact H.
  - apply Forall_cons in Hl as [Ha Hl].
    apply Forall_cons in Hl as [Hb _].
    cbn [Base64Url.encode_bytes Base64Url.values].
    rewrite !value_digit. eexists; split; [reflexivity|].
    cbn [Base64Url.decode_values]. f_equal; [|f_equal].
    + exact (sextets_first a b Ha Hb).
    + pose proof (sextets_second a b 0 Ha Hb ltac:(lia)) as H.
      unfold s2, s3 in *. rewrite Z.shiftr_0_l, Z.lor_0_r in H. exact H.
  - apply Forall_cons in Hl as [Ha Hl].
    apply Forall_cons in Hl as [Hb Hl].
    apply Forall_cons in Hl as [Hc Hl].
    destruct (IH Hl) as (vs & Hvs & Hdec).
    cbn [Base64Url.encode_bytes Base64Url.values].
    rewrite !value_digit, Hvs. eexists; split; [reflexivity|].
    cbn [Base64Url.decode_values]. rewrite Hdec. f_equal; [|f_equal; [|f_equal]].
    + exact (sextets_first a b Ha Hb).
    + exact (sextets_second a b c Ha Hb Hc).
    + exact (sextets_third b c Hb Hc).
Qed.

End Sextets.

(** [encode] is an encoding: the bytes can be read back from the text. *)
Lemma decode_encode (l : list Z) :
  Forall (fun b => 0 <= b < 256) l ->
  Base64Url.decode (Base64Url.encode l) = Some l.
Proof.
  intros Hl. unfold Base64Url.decode, Base64Url.encode.
  rewrite list_ascii_of_string_of_list_ascii.
  destruct (decode_encode_bytes l Hl) as (vs & -> & Hdec).
  simpl. now rewrite Hdec.
Qed.

Lemma digest_length (msg : list Z) : length (SHA256.digest msg) = 32%nat.
Proof.
  unfold SHA256.digest.
  destruct (fold_left SHA256.compress _ SHA256.H0). reflexivity.
Qed.

Lemma land_255_range (x : Z) : 0 <= Z.land x 255 < 256.
Proof.
  change 255 with (Z.ones 8). rewrite Z.land_ones by lia.
  apply Z.mod_pos_bound. lia.
Qed.

Lemma digest_range (msg : list Z) :
  Forall (fun b => 0 <= b < 256) (SHA256.digest msg).
Proof.
  unfold SHA256.digest.
  destruct (fold_left SHA256.compress _ SHA256.H0).
  unfold SHA256.output, SHA256.be32. cbn [app SHA256.ra SHA256.rb SHA256.rc
    SHA256.rd SHA256.re SHA256.rf SHA256.rg SHA256.rh].
  repeat (apply Forall_cons; split; [apply land_255_range|]).
  apply Forall_nil. exact I.
Qed.

Lemma randomBytes_length (n : nat) (src : nat -> Z) (from : nat) :
  length (randomBytes n src from) = n.
Proof. unfold randomBytes. now rewrite length_map, length_seq. Qed.

Lemma randomBytes_range (n : nat) (src : nat -> Z) (from : nat) :
  Forall (fun b => 0 <= b < 256) (randomBytes n src from).
Proof.
  unfold randomBytes. apply Forall_map, Forall_forall.
  intros i _. apply Z.mod_pos_bound. lia.
Qed.

(** Spot checks of the derived constants against FIPS 180-4. *)
Example sha256_constants :
  length SHA256.K = 64%nat
  /\ nth 0 SHA256.K 0 = 0x428a2f98
  /\ nth 63 SHA256.K 0 = 0xc67178f2
  /\ SHA256.ra SHA256.H0 = 0x6a09e667
  /\ SHA256.rh SHA256.H0 = 0x5be0cd19.
Proof. repeat split. Qed.

(** The digest of the empty message, of "abc", and of a message of two
    blocks. *)
Example sha256_vectors :
  Base64Url.encode (SHA256.digest [])
  = "47DEQpj8HBSa-_TImW-5JCeuQeRkm5NMpJWZG3hSuFU"
  /\ Base64Url.encode (SHA256.digest (bytes_of_string "abc"))
     = "ungWv48Bz-pBQUDeXa4iI7ADYaOWF3qctBD_YfIAFa0"
  /\ Base64Url.encode (SHA256.digest (repeat 97 100))
     = "KBZZeIjkoNOja4K4MxarMmgOuPAPjNO5BNaBJG0oWg4".
Proof. repeat split; vm_compute; reflexivity. Qed.

(** The encoder on the test vectors of RFC 4648, section 10. *)
Example encode_rfc4648 :
  map (fun s => Base64Url.encode (bytes_of_string s))
      ["" ; "f"; "fo"; "foo"; "foob"; "fooba"; "foobar"]
  = [""; "Zg"; "Zm8"; "Zm9v"; "Zm9vYg"; "Zm9vYmE"; "Zm9vYmFy"].
Proof. reflexivity. Qed.

(** The challenge of RFC 7636, appendix B. *)
Example challenge_rfc7636 :
  generateCodeChallenge "dBjftJeZ4CVP-mB92K27uhbUJU1p1r_wW1gFWFOEjXk"
  = "E9Melhoa2OwvFrEMTJguCHaoeK1t8URWbuGJSstw-cM".
Proof. vm_compute. reflexivity. Qed.

(** C6: the verifier is the unpadded base64url text of the 32 bytes drawn
    from the entropy source, the challenge is the unpadded base64url text
    of the SHA-256 digest of the verifier; each is 43 characters of the
    URL-safe alphabet and decodes back to the 32 bytes it was made from;
    and two derivations from one verifier agree. *)
Theorem pkce_verifier_and_challenge :
  (forall (src : nat -> Z) (from : nat),
      generateCodeVerifier src from
      = Base64Url.encode (randomBytes 32 src from)
      /\ length (randomBytes 32 src from) = 32%nat
      /\ Base64Url.decode (generateCodeVerifier src from)
         = Some (randomBytes 32 src from)
      /\ String.length (generateCodeVerifier src from) = 43%nat
      /\ Base64Url.url_safe (generateCodeVerifier src from) = true)
  /\ (forall verifier : string,
      generateCodeChallenge verifier
      = Base64Url.encode (SHA256.digest (bytes_of_string verifier))
      /\ length (SHA256.digest (bytes_of_string verifier)) = 32%nat
      /\ Base64Url.decode (generateCodeChallenge verifier)
         = Some (SHA256.digest (bytes_of_string verifier))
      /\ String.length (generateCodeChallenge verifier) = 43%nat
      /\ Base64Url.url_safe (generateCodeChallenge verifier) = true)
  /\ (forall (verifier first second : string),
      first = generateCodeChallenge verifier ->
      second = generateCodeChallenge verifier ->
      first = second /\ String.length first = 43%nat).
Proof.
  assert (Hc : forall v, String.length (generateCodeChallenge v) = 43%nat).
  { intros v. unfold generateCodeChallenge.
    rewrite encode_length, digest_length. reflexivity. }
  split; [|split].
  - intros src from. unfold generateCodeVerifier.
    rewrite encode_length, randomBytes_length.
    repeat split; auto using encode_url_safe.
    apply decode_encode, randomBytes_range.
  - intros v. repeat split; auto using digest_length.
    + apply decode_encode, digest_range.
    + apply encode_url_safe.
  - intros v c1 c2 -> ->. split; [reflexivity | apply Hc].
Qed.

(** ** The redirect listener *)

Import AuthCallbackServer.

Lemma startServer_in_use (w : World) :
  port w <> PortFree ->
  startServer None w
  = (set_server (Some (nextServer w)) (set_nextServer (S (nextServer w)) w),
     inl portInUseError).
Proof.
  intros Hp. unfold startServer, listen. simpl.
  destruct (port w); [congruence | reflexivity | reflexivity].
Qed.

Lemma startServer_fault (w : World) (e : JsError) :
  startServer (Some e) w
  = (set_server (Some (nextServer w)) (set_nextServer (S (nextServer w)) w),
     inl (if decide (err_code e = Some "EADDRINUSE")
          then portInUseError else e)).
Proof.
  unfold startServer, listen.
  destruct (decide (err_code e = Some "EADDRINUSE")); reflexivity.
Qed.

Lemma startServer_free (w : World) :
  port w = PortFree ->
  snd (startServer None w) = inr port_number
  /\ port (fst (startServer None w)) = PortHeld (nextServer w)
  /\ server (fst (startServer None w)) = Some (nextServer w).
Proof.
  intros Hp. unfold startServer, listen. simpl. rewrite Hp. auto.
Qed.

(** Starting a second listener while the first one is bound. *)
Lemma startServer_twice (w : World) :
  port w = PortFree ->
  snd (startServer None (fst (startServer None w))) = inl portInUseError.
Proof.
  intros Hp. destruct (startServer_free w Hp) as (_ & Hh & _).
  rewrite startServer_in_use; [reflexivity | congruence].
Qed.

(** C7: when the port is occupied, [startServer] rejects with the
    port-in-use error, whatever holds the port; a bind failure with any
    other system code is passed on as it is; and the two rejections
    differ.  The occupied port itself is left as it was. *)
Theorem startServer_port_in_use_distinct
    (w : World) (other : JsError) (c : string) :
  port w <> PortFree ->
  err_code other = Some c ->
  c <> "EADDRINUSE" ->
  snd (startServer None w) = inl portInUseError
  /\ (forall e, err_code e = Some "EADDRINUSE" ->
               snd (startServer (Some e) w) = inl portInUseError)
  /\ snd (startServer (Some other) w) = inl other
  /\ portInUseError <> other
  /\ port (fst (startServer None w)) = port w.
Proof.
  intros Hp Hc Hne. repeat split.
  - now rewrite startServer_in_use.
  - intros e He. rewrite startServer_fault. simpl.
    destruct (decide (err_code e = Some "EADDRINUSE")); congruence.
  - rewrite startServer_fault. simpl.
    destruct (decide (err_code other = Some "EADDRINUSE")); congruence.
  - intros Heq. rewrite <- Heq in Hc. discriminate.
  - now rewrite startServer_in_use.
Qed.

Lemma startServer_port_in_use_distinct_witness :
  snd (startServer None Samples.awaiting) = inl portInUseError
  /\ (forall e, err_code e = Some "EADDRINUSE" ->
               snd (startServer (Some e) Samples.awaiting)
               = inl portInUseError)
  /\ snd (startServer (Some Samples.eacces) Samples.awaiting)
     = inl Samples.eacces
  /\ portInUseError <> Samples.eacces
  /\ port (fst (startServer None Samples.awaiting)) = port Samples.awaiting.
Proof.
  apply (startServer_port_in_use_distinct Samples.awaiting Samples.eacces
           "EACCES").
  - vm_compute. discriminate.
  - reflexivity.
  - discriminate.
Defined.

(** C9: a second [stopServer] changes nothing: the state after two calls
    is the state after one, effects included. *)
Theorem stopServer_idempotent (w : World) :
  stopServer (stopServer w) = stopServer w.
Proof.
  unfold stopServer.
  destruct (server w) as [srv|] eqn:Hs; simpl; rewrite ?Hs; reflexivity.
Qed.

Lemma stopServer_stopped (w : World) : server (stopServer w) = None.
Proof. unfold stopServer. destruct (server w) eqn:Hs; [reflexivity | exact Hs]. Qed.

Lemma stopServer_when_stopped (w : World) :
  server w = None -> stopServer w = w.
Proof. intros Hs. unfold stopServer. now rewrite Hs. Qed.

(** ** The error page *)

Lemma prefix_app (s t : string) : String.prefix s (s +:+ t) = true.
Proof.
  induction s as [|c s IH]; simpl.
  - destruct t; reflexivity.
  - destruct (ascii_dec c c); [exact IH | congruence].
Qed.

Lemma contains_prefix (needle hay : string) :
  String.prefix needle hay = true -> contains needle hay = true.
Proof. destruct hay; simpl; intros ->; reflexivity. Qed.

Lemma contains_app (needle pre post : string) :
  contains needle (pre +:+ needle +:+ post) = true.
Proof.
  induction pre as [|c pre IH].
  - change (EmptyString +:+ needle +:+ post) with (needle +:+ post).
    apply contains_prefix, prefix_app.
  - change (String c pre +:+ needle +:+ post)
      with (String c (pre +:+ needle +:+ post)).
    cbn [contains]. rewrite IH. apply orb_true_r.
Qed.

(** The page holds the [error] parameter exactly as it was received. *)
Lemma getErrorPageHtml_raw (error : string) :
  contains error (getErrorPageHtml error) = true.
Proof. apply contains_app. Qed.

Lemma handleCallback_error (error : string) (state : option string) :
  error <> "" ->
  handleCallback (MkQuery None (Some error) state)
  = MkHandled (MkResponse 200 "text/html" (Some "no-cache")
                 (getErrorPageHtml error)) None.
Proof.
  intros Hne. unfold handleCallback. simpl.
  destruct (String.eqb_spec error ""); [contradiction | reflexivity].
Qed.

(** C4: on a redirect whose [error] parameter is markup, the listener
    answers with a page that holds the markup as received; the escaped
    form, as [htmlEscape] of the welcome view would produce it, does not
    occur in the page. *)
Theorem error_page_embeds_unescaped_markup :
  handleCallback (MkQuery None (Some Samples.markup) None)
  = MkHandled (MkResponse 200 "text/html" (Some "no-cache")
                 (getErrorPageHtml Samples.markup)) None
  /\ contains Samples.markup (getErrorPageHtml Samples.markup) = true
  /\ htmlEscape Samples.markup = "&lt;script&gt;alert(1)&lt;/script&gt;"
  /\ contains (htmlEscape Samples.markup) (getErrorPageHtml Samples.markup)
     = false.
Proof. repeat split; vm_compute; reflexivity. Qed.

(** ** The coordinator *)

(** *** How the primitive operations act on the fields *)

Ltac ops :=
  unfold cleanup, catch_authError, authTimeout, dispose,
    exchangeCodeForTokens_request, stopServer, close,
    call_reject, call_resolve, emit in *.

Lemma call_reject_promises (q : nat) (e : JsError) (w : World) (p : nat) :
  p <> q -> promises (call_reject q e w) !! p = promises w !! p.
Proof.
  intros Hne. ops. simpl.
  destruct (promises w !! q) as [[| |]|]; simpl; try reflexivity.
  now apply list_lookup_insert_ne.
Qed.

Lemma call_reject_pending (p : nat) (e : JsError) (w : World) :
  promises w !! p = Some Pending ->
  promises (call_reject p e w) !! p = Some (Rejected e).
Proof.
  intros Hp. ops. simpl. rewrite Hp. simpl.
  apply list_lookup_insert_eq. apply lookup_lt_Some in Hp. exact Hp.
Qed.

Lemma call_resolve_promises (q : nat) (w : World) (p : nat) :
  p <> q -> promises (call_resolve q w) !! p = promises w !! p.
Proof.
  intros Hne. ops. simpl.
  destruct (promises w !! q) as [[| |]|]; simpl; try reflexivity.
  now apply list_lookup_insert_ne.
Qed.

Lemma call_resolve_pending (p : nat) (w : World) :
  promises w !! p = Some Pending ->
  promises (call_resolve p w) !! p = Some Fulfilled.
Proof.
  intros Hp. ops. simpl. rewrite Hp. simpl.
  apply list_lookup_insert_eq. apply lookup_lt_Some in Hp. exact Hp.
Qed.

(** A settled promise stays as it is, whoever calls its functions. *)
Lemma call_reject_settled (q p : nat) (e : JsError) (w : World) :
  promises w !! p <> Some Pending ->
  promises (call_reject q e w) !! p = promises w !! p.
Proof.
  intros Hs. destruct (decide (p = q)) as [->|Hne].
  - ops. simpl.
    destruct (promises w !! q) as [[| |]|] eqn:Hq; simpl; congruence.
  - now apply call_reject_promises.
Qed.

Lemma call_resolve_settled (q p : nat) (w : World) :
  promises w !! p <> Some Pending ->
  promises (call_resolve q w) !! p = promises w !! p.
Proof.
  intros Hs. destruct (decide (p = q)) as [->|Hne].
  - ops. simpl.
    destruct (promises w !! q) as [[| |]|] eqn:Hq; simpl; congruence.
  - now apply call_resolve_promises.
Qed.


Lemma stranded_ext (w w' : World) (p : nat) :
  session_fields w' = session_fields w -> stranded w p -> stranded w' p.
Proof.
  unfold session_fields, stranded. intros [= -> -> ->]. auto.
Qed.

Lemma stopped_ext (w w' : World) :
  listener_fields w' = listener_fields w -> stopped w -> stopped w'.
Proof.
  unfold listener_fields, stopped, listening. intros [= -> ->]. auto.
Qed.

Lemma owned_ext (w w' : World) :
  listener_fields w' = listener_fields w -> owned w' = owned w.
Proof. unfold listener_fields, owned. intros [= -> ->]. reflexivity. Qed.

Lemma owned_transfer (w w' : World) :
  listener_fields w' = listener_fields w -> owned w = true -> owned w' = true.
Proof. intros Hl Hown. now rewrite (owned_ext w w' Hl). Qed.

Lemma call_reject_listener (q : nat) (e : JsError) (w : World) :
  listener_fields (call_reject q e w) = listener_fields w.
Proof. ops. simpl. destruct (promises w !! q) as [[| |]|]; reflexivity. Qed.

Lemma call_resolve_listener (q : nat) (w : World) :
  listener_fields (call_resolve q w) = listener_fields w.
Proof. ops. simpl. destruct (promises w !! q) as [[| |]|]; reflexivity. Qed.

Lemma call_reject_stored (q : nat) (e : JsError) (w : World) :
  stored_fields (call_reject q e w) = stored_fields w.
Proof. ops. simpl. destruct (promises w !! q) as [[| |]|]; reflexivity. Qed.

Lemma call_reject_continuations (q : nat) (e : JsError) (w : World) :
  pendingAuthResolve (call_reject q e w) = pendingAuthResolve w
  /\ pendingAuthReject (call_reject q e w) = pendingAuthReject w.
Proof. ops. simpl. destruct (promises w !! q) as [[| |]|]; auto. Qed.

Lemma call_resolve_continuations (q : nat) (w : World) :
  pendingAuthResolve (call_resolve q w) = pendingAuthResolve w
  /\ pendingAuthReject (call_resolve q w) = pendingAuthReject w.
Proof. ops. simpl. destruct (promises w !! q) as [[| |]|]; auto. Qed.

Lemma stopServer_session (w : World) :
  session_fields (stopServer w) = session_fields w.
Proof. ops. destruct (server w); [|reflexivity]. simpl.
  destruct (port w) as [|s|]; try reflexivity.
  destruct (decide (s = n)); reflexivity.
Qed.

Lemma stopServer_stored (w : World) :
  stored_fields (stopServer w) = stored_fields w.
Proof. ops. destruct (server w); [|reflexivity]. simpl.
  destruct (port w) as [|s|]; try reflexivity.
  destruct (decide (s = n)); reflexivity.
Qed.

(** Stopping the listener the service refers to frees the port, provided
    no other server object of this process holds it. *)
Lemma stopServer_stops (w : World) : owned w = true -> stopped (stopServer w).
Proof.
  unfold owned, stopped, listening. ops.
  destruct (server w) as [srv|] eqn:Hs; destruct (port w) as [|s|] eqn:Hp;
    repeat (progress (simpl; rewrite ?Hs, ?Hp)); intros Hb;
    try (split; [assumption || reflexivity | reflexivity]);
    try discriminate.
  apply bool_decide_eq_true in Hb. subst s.
  destruct (decide (srv = srv)); [|congruence]. simpl. auto.
Qed.

Lemma stopped_not_listening (w : World) : stopped w -> owned w = true.
Proof.
  unfold stopped, owned, listening. intros [-> Hl].
  destruct (port w); [reflexivity | discriminate | reflexivity].
Qed.

(** *** Requests to the token endpoint *)

Lemma token_posts_app (w w' : World) (l : list Effect) :
  trace w' = trace w ++ l ->
  Forall (fun e => is_post e = false) l ->
  token_posts w' = token_posts w /\ exchange_calls w' = exchange_calls w.
Proof.
  unfold token_posts, exchange_calls. intros -> Hl.
  rewrite !filter_app, !length_app.
  assert (H : filter (fun e => is_post e = true) l = []
              /\ filter (fun e => is_exchange e = true) l = []).
  { induction Hl as [|e l He _ [IH1 IH2]]; [split; reflexivity|].
    rewrite !filter_cons_False; [split; assumption | | congruence].
    destruct e as [[]| | | | | | | |]; simpl in *; congruence. }
  destruct H as [-> ->]. simpl. lia.
Qed.

Lemma call_reject_trace (q : nat) (e : JsError) (w : World) :
  trace (call_reject q e w) = trace w ++ [CallReject q e].
Proof. ops. simpl. destruct (promises w !! q) as [[| |]|]; reflexivity. Qed.

Lemma call_resolve_trace (q : nat) (w : World) :
  trace (call_resolve q w) = trace w ++ [CallResolve q].
Proof. ops. simpl. destruct (promises w !! q) as [[| |]|]; reflexivity. Qed.

Lemma stopServer_trace (w : World) :
  trace (stopServer w)
  = trace w ++ match server w with
               | Some srv => [ServerClose srv]
               | None => []
               end.
Proof.
  ops. destruct (server w) as [srv|]; [|now rewrite app_nil_r]. simpl.
  destruct (port w) as [|s|]; try reflexivity.
  destruct (decide (s = srv)); reflexivity.
Qed.

Lemma stopServer_counters (w : World) :
  inflight (stopServer w) = inflight w /\ timers (stopServer w) = timers w.
Proof.
  ops. destruct (server w) as [srv|]; [|auto]. simpl.
  destruct (port w) as [|s|]; auto.
  destruct (decide (s = srv)); auto.
Qed.

Lemma call_reject_counters (q : nat) (e : JsError) (w : World) :
  inflight (call_reject q e w) = inflight w
  /\ timers (call_reject q e w) = timers w.
Proof. ops. simpl. destruct (promises w !! q) as [[| |]|]; auto. Qed.

(** *** The state check of [handleAuthCallback] *)

Lemma begin_mismatch (query : Query) (w : World) :
  q_state query <> Some (authState w) ->
  handleAuthCallback_begin query w
  = (stopServer
       (emit (ShowErrorMessage "Authentication failed: Security error")
          match pendingAuthReject w with
          | Some p => call_reject p stateError w
          | None => w
          end),
     Completed).
Proof.
  intros Hne. unfold handleAuthCallback_begin.
  destruct (decide (q_state query = Some (authState w))); [contradiction|].
  reflexivity.
Qed.

Lemma callback_state_mismatch_stops (query : Query) (w : World) :
  owned w = true ->
  q_state query <> Some (authState w) ->
  stopped (fst (handleAuthCallback_begin query w)).
Proof.
  intros Hown Hne. rewrite (begin_mismatch query w Hne). cbn [fst].
  apply stopServer_stops. apply (owned_transfer w); [|exact Hown].
  change (listener_fields (emit _ ?x)) with (listener_fields x).
  destruct (pendingAuthReject w) as [q|]; [|reflexivity].
  apply call_reject_listener.
Qed.

(** C1: a callback whose [state] is not the stored one ends at once: the
    pending promise is rejected with the CSRF error, nothing is sent to
    the token endpoint and no exchange is left in flight, the stored token
    record is untouched, and the listener is stopped. *)
Theorem callback_state_mismatch (w : World) (query : Query) :
  q_state query <> Some (authState w) ->
  owned w = true ->
  snd (handleAuthCallback_begin query w) = Completed
  /\ (forall p, pendingAuthReject w = Some p ->
               promises w !! p = Some Pending ->
               promises (fst (handleAuthCallback_begin query w)) !! p
               = Some (Rejected stateError))
  /\ token_posts (fst (handleAuthCallback_begin query w)) = token_posts w
  /\ exchange_calls (fst (handleAuthCallback_begin query w))
     = exchange_calls w
  /\ inflight (fst (handleAuthCallback_begin query w)) = inflight w
  /\ stored_fields (fst (handleAuthCallback_begin query w))
     = stored_fields w
  /\ stopped (fst (handleAuthCallback_begin query w)).
Proof.
  intros Hne Hown. rewrite (begin_mismatch query w Hne).
  cbn [fst snd].
  set (w1 := match pendingAuthReject w with
             | Some p => call_reject p stateError w
             | None => w
             end).
  set (w2 := emit (ShowErrorMessage "Authentication failed: Security error")
               w1).
  assert (Hl : listener_fields w2 = listener_fields w).
  { subst w2 w1. destruct (pendingAuthReject w) as [q|]; [|reflexivity].
    change (listener_fields (emit _ ?x)) with (listener_fields x).
    apply call_reject_listener. }
  assert (Ht : exists l, trace (stopServer w2) = trace w ++ l
                         /\ Forall (fun e => is_post e = false) l).
  { rewrite stopServer_trace. subst w2 w1.
    destruct (pendingAuthReject w) as [q|].
    - unfold emit at 1. simpl. rewrite call_reject_trace.
      rewrite <- !app_assoc. eexists; split; [reflexivity|].
      destruct (server _); repeat constructor.
    - unfold emit at 1. simpl.
      rewrite <- !app_assoc. eexists; split; [reflexivity|].
      destruct (server _); repeat constructor. }
  destruct Ht as (l & Ht & Hl').
  destruct (token_posts_app w (stopServer w2) l Ht Hl') as [Hp He].
  repeat split; try assumption.
  - intros p Hr Hpend.
    pose proof (stopServer_session w2) as [= _ _ ->].
    subst w2 w1. rewrite Hr. simpl.
    now apply call_reject_pending.
  - destruct (stopServer_counters w2) as [-> _].
    subst w2 w1. destruct (pendingAuthReject w) as [q|]; [|reflexivity].
    simpl. apply call_reject_counters.
  - pose proof (stopServer_stored w2) as ->.
    subst w2 w1. destruct (pendingAuthReject w) as [q|]; [|reflexivity].
    change (stored_fields (emit _ ?x)) with (stored_fields x).
    apply call_reject_stored.
  - apply stopServer_stops. now rewrite (owned_ext w w2).
  - apply stopServer_stops. now rewrite (owned_ext w w2).
Qed.

Lemma callback_state_mismatch_witness :
  snd (handleAuthCallback_begin Samples.forged_query Samples.awaiting)
  = Completed
  /\ (forall p, pendingAuthReject Samples.awaiting = Some p ->
               promises Samples.awaiting !! p = Some Pending ->
               promises (fst (handleAuthCallback_begin Samples.forged_query
                                Samples.awaiting)) !! p
               = Some (Rejected stateError))
  /\ token_posts (fst (handleAuthCallback_begin Samples.forged_query
                         Samples.awaiting))
     = token_posts Samples.awaiting
  /\ exchange_calls (fst (handleAuthCallback_begin Samples.forged_query
                            Samples.awaiting))
     = exchange_calls Samples.awaiting
  /\ inflight (fst (handleAuthCallback_begin Samples.forged_query
                      Samples.awaiting))
     = inflight Samples.awaiting
  /\ stored_fields (fst (handleAuthCallback_begin Samples.forged_query
                           Samples.awaiting))
     = stored_fields Samples.awaiting
  /\ stopped (fst (handleAuthCallback_begin Samples.forged_query
                     Samples.awaiting)).
Proof.
  apply (callback_state_mismatch Samples.awaiting Samples.forged_query).
  - vm_compute. discriminate.
  - vm_compute. reflexivity.
Defined.

(** The sample state does hold a pending session, so that the rejection
    above is not vacuous. *)
Example awaiting_pending_session : pending_session Samples.awaiting 0.
Proof. repeat split; vm_compute; reflexivity. Qed.

Example forged_callback_rejects :
  promises (fst (handleAuthCallback_begin Samples.forged_query
                   Samples.awaiting))
  = [Rejected stateError].
Proof. vm_compute. reflexivity. Qed.

(** *** Leaving the session *)

Lemma cleanup_session (w : World) :
  pendingAuthResolve (cleanup w) = None
  /\ pendingAuthReject (cleanup w) = None
  /\ promises (cleanup w) = promises w.
Proof.
  unfold cleanup.
  pose proof (stopServer_session
                (set_pendingAuthReject None (set_pendingAuthResolve None w)))
    as H.
  injection H as H1 H2 H3. rewrite H1, H2, H3. auto.
Qed.

Lemma cleanup_stops (w : World) : owned w = true -> stopped (cleanup w).
Proof. intros Hown. unfold cleanup. apply stopServer_stops. exact Hown. Qed.

Lemma cleanup_counters (w : World) :
  inflight (cleanup w) = inflight w /\ timers (cleanup w) = timers w.
Proof.
  exact (stopServer_counters
           (set_pendingAuthReject None (set_pendingAuthResolve None w))).
Qed.

Lemma catch_authError_listener (e : JsError) (w : World) :
  listener_fields (catch_authError e w) = listener_fields w.
Proof.
  unfold catch_authError. destruct (pendingAuthReject w) as [q|].
  - change (listener_fields (emit _ ?x)) with (listener_fields x).
    apply call_reject_listener.
  - reflexivity.
Qed.

Lemma exchange_response_listener
    (outcome : HttpOutcome CodeTokenData) (now : Z) (w : World) :
  listener_fields (fst (exchangeCodeForTokens_response outcome now w))
  = listener_fields w.
Proof.
  unfold exchangeCodeForTokens_response.
  destruct outcome as [e|status data [td|]]; try reflexivity;
    destruct (decide (status = 200)); reflexivity.
Qed.

Lemma exchange_response_session
    (outcome : HttpOutcome CodeTokenData) (now : Z) (w : World) :
  session_fields (fst (exchangeCodeForTokens_response outcome now w))
  = session_fields w.
Proof.
  unfold exchangeCodeForTokens_response.
  destruct outcome as [e|status data [td|]]; try reflexivity;
    destruct (decide (status = 200)); reflexivity.
Qed.

Lemma after_exchange_listener (failure : option JsError) (w : World) :
  listener_fields (after_exchange failure w) = listener_fields w.
Proof.
  unfold after_exchange. destruct failure as [e|].
  - apply catch_authError_listener.
  - cbv zeta.
    change (pendingAuthResolve (emit _ ?x)) with (pendingAuthResolve x).
    destruct (pendingAuthResolve w) as [p|].
    + change (listener_fields (emit _ ?x)) with (listener_fields x).
      rewrite call_resolve_listener. reflexivity.
    + rewrite catch_authError_listener. reflexivity.
Qed.

(** The state in which the resumed handler runs its clean-up. *)
Lemma resume_shape
    (outcome : HttpOutcome CodeTokenData) (now : Z) (w : World) :
  exists w', handleAuthCallback_resume outcome now w = cleanup w'
             /\ listener_fields w' = listener_fields w.
Proof.
  unfold handleAuthCallback_resume.
  pose proof (exchange_response_listener outcome now w) as Hl.
  destruct (exchangeCodeForTokens_response outcome now w) as [w1 failure].
  cbn [fst] in Hl. eexists; split; [reflexivity|].
  rewrite <- Hl. apply after_exchange_listener.
Qed.

Lemma resume_stops
    (outcome : HttpOutcome CodeTokenData) (now : Z) (w : World) :
  owned w = true -> stopped (handleAuthCallback_resume outcome now w).
Proof.
  intros Hown. destruct (resume_shape outcome now w) as (w' & -> & Hl).
  apply cleanup_stops. now rewrite (owned_ext w w').
Qed.

Lemma authTimeout_stops (w : World) (p : nat) :
  owned w = true -> pendingAuthReject w = Some p -> stopped (authTimeout w).
Proof.
  intros Hown Hr. unfold authTimeout. rewrite Hr.
  apply stopServer_stops.
  apply (owned_transfer w); [|exact Hown].
  apply (call_reject_listener p (Error "Authentication timeout") w).
Qed.

(** A callback that does not start an exchange ends in the clean-up or in
    the state check; either way the listener is stopped. *)
Lemma begin_completed_stops (query : Query) (w : World) :
  owned w = true ->
  snd (handleAuthCallback_begin query w) = Completed ->
  stopped (fst (handleAuthCallback_begin query w)).
Proof.
  intros Hown.
  destruct (decide (q_state query = Some (authState w))) as [Heq|Hne].
  - unfold handleAuthCallback_begin.
    destruct (decide (q_state query = Some (authState w))); [|contradiction].
    destruct (truthy (q_code query)
              && bool_decide (is_Some (pendingAuthResolve w)));
      [discriminate|].
    intros _.
    destruct (pendingAuthReject w) as [p|];
      [destruct (truthy (q_error query))|]; cbn [fst];
      apply cleanup_stops; try exact Hown.
    apply (owned_transfer w); [|exact Hown].
    change (listener_fields (emit _ ?x)) with (listener_fields x).
    apply call_reject_listener.
  - intros _. now apply callback_state_mismatch_stops.
Qed.

Lemma begin_no_code_completed (query : Query) (w : World) :
  truthy (q_code query) = false ->
  snd (handleAuthCallback_begin query w) = Completed.
Proof.
  intros Hc. unfold handleAuthCallback_begin. rewrite Hc. simpl.
  destruct (decide (q_state query = Some (authState w)));
    [|reflexivity].
  destruct (pendingAuthReject w);
    [destruct (truthy (q_error query))|]; reflexivity.
Qed.

(** C3: the listener is stopped by the state check (CSRF), by a callback
    that carries no code (a provider-reported error among them), by the
    end of the exchange whatever its outcome (success or failure), and by
    the timer while a session is pending. *)
Theorem listener_stopped_on_every_exit :
  (forall w query,
      owned w = true ->
      q_state query <> Some (authState w) ->
      stopped (step w (EvUriCallback query)))
  /\ (forall w query,
      owned w = true ->
      q_state query = Some (authState w) ->
      truthy (q_code query) = false ->
      stopped (step w (EvUriCallback query)))
  /\ (forall w outcome now,
      owned w = true ->
      inflight w <> 0%nat ->
      stopped (step w (EvExchangeDone outcome now)))
  /\ (forall w p,
      owned w = true ->
      timers w <> 0%nat ->
      pendingAuthReject w = Some p ->
      stopped (step w EvTimeout)).
Proof.
  split; [|split; [|split]].
  - intros w query Hown Hne. apply begin_completed_stops; [assumption|].
    now rewrite begin_mismatch.
  - intros w query Hown _ Hc. apply begin_completed_stops; [assumption|].
    now apply begin_no_code_completed.
  - intros w outcome now Hown Hn. simpl.
    destruct (inflight w) as [|n]; [congruence|].
    now apply resume_stops.
  - intros w p Hown Hn Hr. simpl.
    destruct (timers w) as [|n]; [congruence|].
    now apply (authTimeout_stops _ p).
Qed.

Lemma listener_stopped_on_every_exit_witness :
  stopped (step Samples.awaiting (EvUriCallback Samples.forged_query))
  /\ stopped (step Samples.awaiting (EvUriCallback Samples.denied_query))
  /\ stopped (step Samples.resolving (EvExchangeDone Samples.ok200 1000))
  /\ stopped (step Samples.resolving (EvExchangeDone Samples.bad400 1000))
  /\ stopped (step Samples.awaiting EvTimeout).
Proof.
  destruct listener_stopped_on_every_exit as (Hcsrf & Hdenied & Hdone & Htime).
  split; [|split; [|split; [|split]]].
  - apply (Hcsrf Samples.awaiting Samples.forged_query);
      [reflexivity | vm_compute; discriminate].
  - apply (Hdenied Samples.awaiting Samples.denied_query); reflexivity.
  - apply (Hdone Samples.resolving Samples.ok200 1000);
      [reflexivity | vm_compute; discriminate].
  - apply (Hdone Samples.resolving Samples.bad400 1000);
      [reflexivity | vm_compute; discriminate].
  - apply (Htime Samples.awaiting 0%nat);
      [reflexivity | vm_compute; discriminate | reflexivity].
Defined.

(** Once the listener is stopped the port can be bound again, unless
    another process has taken it. *)
Lemma stopped_rebind (w : World) :
  stopped w ->
  port w <> PortForeign ->
  snd (startServer None w) = inr port_number.
Proof.
  unfold stopped, listening. intros [_ Hl] Hf.
  apply startServer_free.
  destruct (port w); [reflexivity | discriminate | contradiction].
Qed.

(** The listener was running before each of these exits. *)
Example samples_listening :
  listening Samples.awaiting = true /\ listening Samples.resolving = true.
Proof. split; vm_compute; reflexivity. Qed.

(** *** A promise nobody refers to *)

Lemma stranded_lt (w : World) (p : nat) :
  stranded w p -> (p < length (promises w))%nat.
Proof. intros (_ & _ & Hp). now apply lookup_lt_Some in Hp. Qed.

Lemma stranded_call_reject (w : World) (p q : nat) (e : JsError) :
  q <> p -> stranded w p -> stranded (call_reject q e w) p.
Proof.
  intros Hne (Hr & Hj & Hp).
  destruct (call_reject_continuations q e w) as [Hr' Hj'].
  unfold stranded. rewrite Hr', Hj', call_reject_promises by congruence.
  auto.
Qed.

Lemma stranded_call_resolve (w : World) (p q : nat) :
  q <> p -> stranded w p -> stranded (call_resolve q w) p.
Proof.
  intros Hne (Hr & Hj & Hp).
  destruct (call_resolve_continuations q w) as [Hr' Hj'].
  unfold stranded. rewrite Hr', Hj', call_resolve_promises by congruence.
  auto.
Qed.

(** Rejecting through the stored continuation cannot reach a stranded
    promise. *)
Lemma stranded_reject_current (w : World) (p : nat) (e : JsError) :
  stranded w p ->
  stranded match pendingAuthReject w with
           | Some q => call_reject q e w
           | None => w
           end p.
Proof.
  intros Hs. destruct (pendingAuthReject w) as [q|] eqn:Hq; [|exact Hs].
  apply stranded_call_reject; [|exact Hs].
  destruct Hs as (_ & Hj & _). congruence.
Qed.

Lemma stranded_cleanup (w : World) (p : nat) :
  stranded w p -> stranded (cleanup w) p.
Proof.
  intros (_ & _ & Hp). destruct (cleanup_session w) as (Hr & Hj & Hpr).
  unfold stranded. rewrite Hr, Hj, Hpr. auto.
Qed.

Lemma stranded_catch (w : World) (p : nat) (e : JsError) :
  stranded w p -> stranded (catch_authError e w) p.
Proof.
  intros Hs. unfold catch_authError.
  apply (stranded_ext match pendingAuthReject w with
                      | Some q => call_reject q e w
                      | None => w
                      end); [reflexivity|].
  now apply stranded_reject_current.
Qed.

Lemma startServer_session (fault : option JsError) (w : World) :
  session_fields (fst (startServer fault w)) = session_fields w.
Proof.
  unfold startServer, listen.
  destruct fault as [e|].
  - destruct (decide (err_code e = Some "EADDRINUSE")); reflexivity.
  - simpl. destruct (port w); reflexivity.
Qed.

Lemma refresh_response_session
    (outcome : HttpOutcome RefreshTokenData) (now : Z) (w : World) :
  session_fields (fst (refreshAccessToken_response outcome now w))
  = session_fields w.
Proof.
  unfold refreshAccessToken_response.
  destruct outcome as [e|status data [td|]]; try reflexivity;
    destruct (decide (status = 200)); try reflexivity.
  destruct (truthy (r_refresh_token td)); reflexivity.
Qed.

Lemma isAuthenticated_session
    (now : Z) (outcome : HttpOutcome RefreshTokenData) (now' : Z)
    (w : World) :
  session_fields (fst (isAuthenticated now outcome now' w))
  = session_fields w.
Proof.
  unfold isAuthenticated, refreshAccessToken.
  destruct (negb _ || negb _); [reflexivity|].
  destruct (decide _); [|reflexivity].
  destruct (truthy (secrets w !! REFRESH_TOKEN_KEY)); [|reflexivity].
  exact (refresh_response_session outcome now'
           (emit (PostToken
                    (RefreshTokenGrant
                       (default "" (secrets w !! REFRESH_TOKEN_KEY))
                       (getClientId w))) w)).
Qed.

Lemma authenticate_stranded
    (fault : option JsError) (src : nat -> Z) (w : World) (p : nat) :
  stranded w p -> stranded (fst (authenticate fault src w)) p.
Proof.
  intros Hs. pose proof (stranded_lt w p Hs) as Hlt.
  destruct Hs as (_ & _ & Hp).
  unfold authenticate.
  set (w1 := set_pendingAuthReject _ _).
  assert (Hs1 : stranded w1 p).
  { unfold stranded, w1. simpl. repeat split; try (intros [= ?]; lia).
    now rewrite lookup_app_l. }
  pose proof (startServer_session fault w1) as Hsess.
  destruct (startServer fault w1) as [w2 [e|n]]; cbn [fst] in *.
  - apply stranded_call_reject; [lia|].
    now apply (stranded_ext w1).
  - now apply (stranded_ext w1).
Qed.

Lemma begin_stranded (query : Query) (w : World) (p : nat) :
  stranded w p -> stranded (fst (handleAuthCallback_begin query w)) p.
Proof.
  intros Hs. unfold handleAuthCallback_begin.
  destruct (decide (q_state query = Some (authState w))).
  - destruct (truthy (q_code query) && _).
    + now apply (stranded_ext w).
    + destruct (pendingAuthReject w) as [q|] eqn:Hq;
        [destruct (truthy (q_error query))|]; cbn [fst];
        apply stranded_cleanup; try exact Hs.
      apply (stranded_ext (call_reject q
               (Error ("Authentication failed: "
                       +:+ default "" (q_error query))) w));
        [reflexivity|].
      apply stranded_call_reject; [|exact Hs].
      destruct Hs as (_ & Hj & _). congruence.
  - cbn [fst].
    apply (stranded_ext match pendingAuthReject w with
                        | Some q => call_reject q stateError w
                        | None => w
                        end).
    + rewrite stopServer_session. reflexivity.
    + now apply stranded_reject_current.
Qed.

Lemma after_exchange_stranded
    (failure : option JsError) (w : World) (p : nat) :
  stranded w p -> stranded (after_exchange failure w) p.
Proof.
  intros Hs. unfold after_exchange. destruct failure as [e|].
  - now apply stranded_catch.
  - cbv zeta.
    change (pendingAuthResolve (emit _ ?x)) with (pendingAuthResolve x).
    destruct (pendingAuthResolve w) as [q|] eqn:Hq.
    + apply (stranded_ext
               (call_resolve q (emit (FireAuthStateChange true) w)));
        [reflexivity|].
      apply stranded_call_resolve; [|now apply (stranded_ext w)].
      destruct Hs as (Hr & _ & _). congruence.
    + apply stranded_catch. now apply (stranded_ext w).
Qed.

Lemma resume_stranded
    (outcome : HttpOutcome CodeTokenData) (now : Z) (w : World) (p : nat) :
  stranded w p -> stranded (handleAuthCallback_resume outcome now w) p.
Proof.
  intros Hs. unfold handleAuthCallback_resume.
  pose proof (exchange_response_session outcome now w) as Hsess.
  destruct (exchangeCodeForTokens_response outcome now w) as [w1 failure].
  cbn [fst] in Hsess.
  apply stranded_cleanup, after_exchange_stranded.
  now apply (stranded_ext w).
Qed.

Lemma authTimeout_stranded (w : World) (p : nat) :
  stranded w p -> stranded (authTimeout w) p.
Proof.
  intros Hs. unfold authTimeout.
  destruct (pendingAuthReject w) as [q|] eqn:Hq; [|exact Hs].
  apply (stranded_cleanup
           (call_reject q (Error "Authentication timeout") w)).
  apply stranded_call_reject; [|exact Hs].
  destruct Hs as (_ & Hj & _). congruence.
Qed.

(** No event settles a stranded promise or hands it back to the service. *)
Lemma step_stranded (w : World) (ev : Event) (p : nat) :
  stranded w p -> stranded (step w ev) p.
Proof.
  intros Hs. destruct ev as [fault src|query|outcome now| |now outcome now'|];
    simpl.
  - now apply authenticate_stranded.
  - now apply begin_stranded.
  - destruct (inflight w) as [|n]; [exact Hs|].
    apply resume_stranded. now apply (stranded_ext w).
  - destruct (timers w) as [|n]; [exact Hs|].
    apply authTimeout_stranded. now apply (stranded_ext w).
  - apply (stranded_ext w); [|exact Hs]. apply isAuthenticated_session.
  - apply (stranded_ext w); [|exact Hs]. apply stopServer_session.
Qed.

Lemma run_stranded (evs : list Event) (w : World) (p : nat) :
  stranded w p -> stranded (run evs w) p.
Proof.
  revert w. induction evs as [|ev evs IH]; intros w Hs; [exact Hs|].
  apply IH. now apply step_stranded.
Qed.

(** C10: a callback with the stored state and neither code nor error
    clears both continuations and stops the listener; no promise is
    settled by it, the timer stays armed but finds nothing to reject, and
    whatever happens afterwards the promise of [authenticate()] stays
    pending. *)
Theorem bare_callback_strands_promise
    (w : World) (p : nat) (query : Query) :
  pending_session w p ->
  owned w = true ->
  q_state query = Some (authState w) ->
  truthy (q_code query) = false ->
  truthy (q_error query) = false ->
  snd (handleAuthCallback_begin query w) = Completed
  /\ pendingAuthResolve (step w (EvUriCallback query)) = None
  /\ pendingAuthReject (step w (EvUriCallback query)) = None
  /\ stopped (step w (EvUriCallback query))
  /\ promises (step w (EvUriCallback query)) = promises w
  /\ promises (step w (EvUriCallback query)) !! p = Some Pending
  /\ timers (step w (EvUriCallback query)) = timers w
  /\ promises (step (step w (EvUriCallback query)) EvTimeout) !! p
     = Some Pending
  /\ (forall evs : list Event,
         promises (run evs (step w (EvUriCallback query))) !! p
         = Some Pending).
Proof.
  intros (Hr & Hj & Hp) Hown Hst Hcode Herr.
  assert (Hb : handleAuthCallback_begin query w = (cleanup w, Completed)).
  { unfold handleAuthCallback_begin. rewrite Hcode, Herr, Hj. simpl.
    destruct (decide (q_state query = Some (authState w)));
      [reflexivity | contradiction]. }
  assert (Hstep : step w (EvUriCallback query) = cleanup w)
    by (simpl; now rewrite Hb).
  rewrite Hstep, Hb. cbn [fst snd].
  destruct (cleanup_session w) as (Hr' & Hj' & Hpr).
  assert (Hs : stranded (cleanup w) p).
  { unfold stranded. rewrite Hr', Hj', Hpr. repeat split; congruence. }
  repeat split; try assumption.
  - now apply cleanup_stops.
  - now apply cleanup_stops.
  - now rewrite Hpr.
  - apply cleanup_counters.
  - apply (step_stranded _ EvTimeout) in Hs. apply Hs.
  - intros evs. apply (run_stranded evs) in Hs. apply Hs.
Qed.

Lemma bare_callback_strands_promise_witness :
  snd (handleAuthCallback_begin Samples.bare_query Samples.awaiting)
  = Completed
  /\ pendingAuthResolve
       (step Samples.awaiting (EvUriCallback Samples.bare_query)) = None
  /\ pendingAuthReject
       (step Samples.awaiting (EvUriCallback Samples.bare_query)) = None
  /\ stopped (step Samples.awaiting (EvUriCallback Samples.bare_query))
  /\ promises (step Samples.awaiting (EvUriCallback Samples.bare_query))
     = promises Samples.awaiting
  /\ promises (step Samples.awaiting (EvUriCallback Samples.bare_query))
       !! 0%nat = Some Pending
  /\ timers (step Samples.awaiting (EvUriCallback Samples.bare_query))
     = timers Samples.awaiting
  /\ promises (step (step Samples.awaiting
                       (EvUriCallback Samples.bare_query)) EvTimeout)
       !! 0%nat = Some Pending
  /\ (forall evs : list Event,
         promises (run evs (step Samples.awaiting
                              (EvUriCallback Samples.bare_query)))
           !! 0%nat = Some Pending).
Proof.
  apply (bare_callback_strands_promise Samples.awaiting 0%nat
           Samples.bare_query).
  - repeat split; vm_compute; reflexivity.
  - vm_compute; reflexivity.
  - reflexivity.
  - reflexivity.
  - reflexivity.
Defined.

(** The timer of the sample session is armed when the bare callback
    arrives, and it stays armed. *)
Example bare_callback_timer_armed :
  timers Samples.awaiting = 1%nat
  /\ timers (step Samples.awaiting (EvUriCallback Samples.bare_query))
     = 1%nat.
Proof. split; vm_compute; reflexivity. Qed.

(** *** At most one exchange, at most one settlement *)

Lemma quiet_refl (w w' : World) : trace w' = trace w -> quiet w w'.
Proof. intros H. exists []. rewrite app_nil_r. auto. Qed.

Lemma quiet_trans (w1 w2 w3 : World) :
  quiet w1 w2 -> quiet w2 w3 -> quiet w1 w3.
Proof.
  intros (l1 & H1 & F1) (l2 & H2 & F2). exists (l1 ++ l2).
  rewrite H2, H1, app_assoc. split; [reflexivity|].
  apply Forall_app; auto.
Qed.

Lemma quiet_counts (w w' : World) :
  quiet w w' ->
  token_posts w' = token_posts w /\ exchange_calls w' = exchange_calls w.
Proof. intros (l & H & F). now apply (token_posts_app w w' l). Qed.

Lemma quiet_emit (e : Effect) (w : World) :
  is_post e = false -> quiet w (emit e w).
Proof. intros He. exists [e]. split; [reflexivity|]. repeat constructor. exact He. Qed.

Lemma quiet_call_reject (q : nat) (e : JsError) (w : World) :
  quiet w (call_reject q e w).
Proof.
  exists [CallReject q e]. split; [apply call_reject_trace|].
  repeat constructor.
Qed.

Lemma quiet_call_resolve (q : nat) (w : World) : quiet w (call_resolve q w).
Proof.
  exists [CallResolve q]. split; [apply call_resolve_trace|].
  repeat constructor.
Qed.

Lemma quiet_stopServer (w : World) : quiet w (stopServer w).
Proof.
  eexists. split; [apply stopServer_trace|].
  destruct (server w); repeat constructor.
Qed.

Lemma quiet_cleanup (w : World) : quiet w (cleanup w).
Proof.
  apply (quiet_trans _ (set_pendingAuthReject None
                          (set_pendingAuthResolve None w)));
    [now apply quiet_refl | apply quiet_stopServer].
Qed.

Lemma quiet_catch (e : JsError) (w : World) : quiet w (catch_authError e w).
Proof.
  unfold catch_authError.
  eapply quiet_trans; [|apply quiet_emit; reflexivity].
  destruct (pendingAuthReject w); [apply quiet_call_reject|].
  now apply quiet_refl.
Qed.

Lemma exchange_response_trace
    (outcome : HttpOutcome CodeTokenData) (now : Z) (w : World) :
  trace (fst (exchangeCodeForTokens_response outcome now w)) = trace w.
Proof.
  unfold exchangeCodeForTokens_response.
  destruct outcome as [e|status data [td|]]; try reflexivity;
    destruct (decide (status = 200)); reflexivity.
Qed.

Lemma quiet_after_exchange (failure : option JsError) (w : World) :
  quiet w (after_exchange failure w).
Proof.
  unfold after_exchange. destruct failure as [e|]; [apply quiet_catch|].
  cbv zeta.
  change (pendingAuthResolve (emit _ ?x)) with (pendingAuthResolve x).
  apply (quiet_trans _ (emit (FireAuthStateChange true) w));
    [now apply quiet_emit|].
  destruct (pendingAuthResolve w) as [q|].
  - eapply quiet_trans; [apply quiet_call_resolve|].
    now apply quiet_emit.
  - apply quiet_catch.
Qed.

(** The resumed handler sends nothing to the token endpoint. *)
Lemma quiet_resume
    (outcome : HttpOutcome CodeTokenData) (now : Z) (w : World) :
  quiet w (handleAuthCallback_resume outcome now w).
Proof.
  unfold handleAuthCallback_resume.
  pose proof (exchange_response_trace outcome now w) as Ht.
  destruct (exchangeCodeForTokens_response outcome now w) as [w1 failure].
  cbn [fst] in Ht.
  apply (quiet_trans _ w1); [now apply quiet_refl|].
  eapply quiet_trans; [apply quiet_after_exchange | apply quiet_cleanup].
Qed.

Lemma call_resolve_counters (q : nat) (w : World) :
  inflight (call_resolve q w) = inflight w
  /\ timers (call_resolve q w) = timers w.
Proof. ops. simpl. destruct (promises w !! q) as [[| |]|]; auto. Qed.

Lemma catch_inflight (e : JsError) (w : World) :
  inflight (catch_authError e w) = inflight w.
Proof.
  unfold catch_authError. destruct (pendingAuthReject w) as [q|];
    [|reflexivity].
  change (inflight (emit _ ?x)) with (inflight x).
  apply call_reject_counters.
Qed.

Lemma after_exchange_inflight (failure : option JsError) (w : World) :
  inflight (after_exchange failure w) = inflight w.
Proof.
  unfold after_exchange. destruct failure as [e|]; [apply catch_inflight|].
  cbv zeta.
  change (pendingAuthResolve (emit _ ?x)) with (pendingAuthResolve x).
  destruct (pendingAuthResolve w) as [q|].
  - change (inflight (emit _ ?x)) with (inflight x).
    destruct (call_resolve_counters q (emit (FireAuthStateChange true) w))
      as [-> _]. reflexivity.
  - now rewrite catch_inflight.
Qed.

Lemma resume_inflight
    (outcome : HttpOutcome CodeTokenData) (now : Z) (w : World) :
  inflight (handleAuthCallback_resume outcome now w) = inflight w.
Proof.
  unfold handleAuthCallback_resume.
  assert (Hi : inflight (fst (exchangeCodeForTokens_response outcome now w))
               = inflight w).
  { unfold exchangeCodeForTokens_response.
    destruct outcome as [e|status data [td|]]; try reflexivity;
      destruct (decide (status = 200)); reflexivity. }
  destruct (exchangeCodeForTokens_response outcome now w) as [w1 failure].
  cbn [fst] in Hi. rewrite <- Hi.
  destruct (cleanup_counters (after_exchange failure w1)) as [-> _].
  apply after_exchange_inflight.
Qed.

(** A callback that completes without suspension sends nothing either. *)
Lemma quiet_begin_completed (query : Query) (w : World) :
  snd (handleAuthCallback_begin query w) = Completed ->
  quiet w (fst (handleAuthCallback_begin query w)).
Proof.
  unfold handleAuthCallback_begin.
  destruct (decide (q_state query = Some (authState w))).
  - destruct (truthy (q_code query) && _); [discriminate|]. intros _.
    destruct (pendingAuthReject w) as [q|];
      [destruct (truthy (q_error query))|]; cbn [fst];
      try apply quiet_cleanup.
    eapply quiet_trans; [|apply quiet_cleanup].
    eapply quiet_trans; [apply quiet_call_reject|].
    now apply quiet_emit.
  - intros _. cbn [fst].
    eapply quiet_trans; [|apply quiet_stopServer].
    eapply quiet_trans; [|apply quiet_emit; reflexivity].
    destruct (pendingAuthReject w); [apply quiet_call_reject|].
    now apply quiet_refl.
Qed.

(** A callback with the stored state and a code starts the exchange as
    long as the resolve continuation is set, and leaves it set. *)
Lemma begin_exchange (query : Query) (w : World) (p : nat) (code : string) :
  q_state query = Some (authState w) ->
  q_code query = Some code ->
  code <> "" ->
  pendingAuthResolve w = Some p ->
  handleAuthCallback_begin query w
  = (set_inflight (S (inflight w)) (exchangeCodeForTokens_request code w),
     Awaiting).
Proof.
  intros Hst Hc Hne Hr. unfold handleAuthCallback_begin.
  destruct (decide (q_state query = Some (authState w))); [|contradiction].
  rewrite Hc, Hr. simpl.
  destruct (String.eqb_spec code ""); [contradiction|]. simpl.
  rewrite ?bool_decide_eq_true_2 by eauto. reflexivity.
Qed.

Lemma exchange_request_counts (code : string) (w : World) (n : nat) :
  exchange_calls (set_inflight n (exchangeCodeForTokens_request code w))
  = S (exchange_calls w).
Proof.
  unfold exchange_calls, exchangeCodeForTokens_request, emit. simpl.
  rewrite filter_app, length_app. simpl. lia.
Qed.

(** Two deliveries of the redirect, the second one while the first
    handler awaits the exchange: both handlers pass the guard, and two
    requests go to the token endpoint whatever the responses are. *)
Lemma overlapping_callbacks_two_exchanges
    (w : World) (p : nat) (query : Query) (code : string)
    (o1 o2 : HttpOutcome CodeTokenData) (n1 n2 : Z) :
  q_state query = Some (authState w) ->
  q_code query = Some code ->
  code <> "" ->
  pendingAuthResolve w = Some p ->
  exchange_calls
    (run [ EvUriCallback query; EvUriCallback query;
           EvExchangeDone o1 n1; EvExchangeDone o2 n2 ] w)
  = S (S (exchange_calls w)).
Proof.
  intros Hst Hc Hne Hr. unfold run. cbn [fold_left].
  set (w1 := step w (EvUriCallback query)).
  assert (H1 : w1 = set_inflight (S (inflight w))
                      (exchangeCodeForTokens_request code w)).
  { subst w1. simpl. now rewrite (begin_exchange query w p code). }
  set (w2 := step w1 (EvUriCallback query)).
  assert (H2 : w2 = set_inflight (S (inflight w1))
                      (exchangeCodeForTokens_request code w1)).
  { subst w2. simpl. rewrite (begin_exchange query w1 p code); auto.
    - now rewrite H1.
    - now rewrite H1. }
  assert (Hc2 : exchange_calls w2 = S (S (exchange_calls w))).
  { rewrite H2, exchange_request_counts, H1, exchange_request_counts.
    reflexivity. }
  assert (Hi2 : inflight w2 = S (S (inflight w))).
  { rewrite H2, H1. reflexivity. }
  rewrite <- Hc2. clearbody w2. clear H2 w1 H1.
  simpl. rewrite Hi2.
  set (w3 := handleAuthCallback_resume o1 n1 _).
  assert (Hq3 : quiet w2 w3).
  { subst w3. eapply quiet_trans; [|apply quiet_resume].
    now apply quiet_refl. }
  assert (Hi3 : inflight w3 = S (inflight w)).
  { subst w3. now rewrite resume_inflight. }
  rewrite Hi3.
  destruct (quiet_counts w2 w3 Hq3) as [_ <-].
  apply quiet_counts.
  eapply quiet_trans; [|apply quiet_resume].
  now apply quiet_refl.
Qed.


(** With both continuations cleared and the listener stopped, a callback
    does nothing at all when its state is the stored one, and only shows
    the security message otherwise. *)
Lemma begin_idle (query : Query) (w : World) :
  pendingAuthResolve w = None ->
  pendingAuthReject w = None ->
  server w = None ->
  handleAuthCallback_begin query w
  = (if decide (q_state query = Some (authState w)) then w
     else emit (ShowErrorMessage "Authentication failed: Security error") w,
     Completed).
Proof.
  destruct w as [cv st res rej srv prs pt ns sec gs inf tm sc ec tr].
  simpl. intros -> -> ->. unfold handleAuthCallback_begin. simpl.
  destruct (decide (q_state query = Some st)); [|reflexivity].
  destruct (truthy (q_code query)); reflexivity.
Qed.

Lemma authTimeout_idle (w : World) (p : nat) :
  pendingAuthReject w = Some p ->
  pendingAuthResolve (authTimeout w) = None
  /\ pendingAuthReject (authTimeout w) = None
  /\ server (authTimeout w) = None
  /\ authState (authTimeout w) = authState w
  /\ promises (authTimeout w)
     = promises (call_reject p (Error "Authentication timeout") w).
Proof.
  intros Hr. unfold authTimeout. rewrite Hr.
  destruct (cleanup_session
              (call_reject p (Error "Authentication timeout") w))
    as (H1 & H2 & H3).
  repeat split; try assumption.
  - apply stopServer_stopped.
  - ops. simpl. destruct (server _); [|simpl];
      destruct (promises w !! p) as [[| |]|]; simpl;
      try reflexivity;
      destruct (port w) as [|s|]; try reflexivity;
      destruct (decide (s = n)); reflexivity.
Qed.

(** A callback that arrives after the timer has rejected the session
    changes nothing when it carries the stored state; with any other state
    it shows the security message and changes nothing else. *)
Lemma callback_after_timeout (w : World) (p : nat) (query : Query) :
  pending_session w p ->
  timers w <> 0%nat ->
  promises (step w EvTimeout) !! p
  = Some (Rejected (Error "Authentication timeout"))
  /\ step (step w EvTimeout) (EvUriCallback query)
     = if decide (q_state query = Some (authState w))
       then step w EvTimeout
       else emit (ShowErrorMessage "Authentication failed: Security error")
              (step w EvTimeout).
Proof.
  intros (Hr & Hj & Hp) Ht. simpl.
  destruct (timers w) as [|n]; [congruence|].
  destruct (authTimeout_idle (set_timers n w) p Hj) as (H1 & H2 & H3 & H4 & H5).
  split.
  - rewrite H5. now apply (call_reject_pending p _ (set_timers n w)).
  - rewrite begin_idle by assumption. cbn [fst]. rewrite H4. reflexivity.
Qed.

Lemma exchange_response_continuations
    (outcome : HttpOutcome CodeTokenData) (now : Z) (w : World) :
  pendingAuthResolve (fst (exchangeCodeForTokens_response outcome now w))
  = pendingAuthResolve w
  /\ pendingAuthReject (fst (exchangeCodeForTokens_response outcome now w))
     = pendingAuthReject w
  /\ promises (fst (exchangeCodeForTokens_response outcome now w))
     = promises w.
Proof.
  pose proof (exchange_response_session outcome now w) as H.
  injection H as H1 H2 H3. auto.
Qed.

(** When the exchange settles while the session is still pending, the
    promise settles with it: fulfilled on success, rejected with the error
    of the exchange on failure. *)
Lemma resume_settles
    (outcome : HttpOutcome CodeTokenData) (now : Z) (w : World) (p : nat) :
  pending_session w p ->
  promises (handleAuthCallback_resume outcome now w) !! p
  = Some match snd (exchangeCodeForTokens_response outcome now w) with
         | None => Fulfilled
         | Some e => Rejected e
         end
  /\ pendingAuthResolve (handleAuthCallback_resume outcome now w) = None
  /\ pendingAuthReject (handleAuthCallback_resume outcome now w) = None
  /\ server (handleAuthCallback_resume outcome now w) = None.
Proof.
  intros (Hr & Hj & Hp). unfold handleAuthCallback_resume.
  destruct (exchange_response_continuations outcome now w) as (H1 & H2 & H3).
  destruct (exchangeCodeForTokens_response outcome now w) as [w1 failure].
  cbn [fst snd] in *.
  destruct (cleanup_session (after_exchange failure w1)) as (C1 & C2 & C3).
  repeat split; try assumption; [|apply stopServer_stopped].
  rewrite C3. unfold after_exchange. destruct failure as [e|].
  - unfold catch_authError. rewrite H2, Hj.
    change (promises (emit _ ?x)) with (promises x).
    apply call_reject_pending. now rewrite H3.
  - cbv zeta.
    change (pendingAuthResolve (emit _ ?x)) with (pendingAuthResolve x).
    rewrite H1, Hr.
    change (promises (emit _ ?x)) with (promises x).
    apply call_resolve_pending.
    change (promises (emit _ ?x)) with (promises x). now rewrite H3.
Qed.

(** Two deliveries of the redirect, the second one after the first
    handler has finished: one request goes to the token endpoint, the
    promise settles with its outcome, and the second delivery finds
    nothing to do. *)
Lemma sequential_callbacks_one_exchange
    (w : World) (p : nat) (query : Query) (code : string)
    (outcome : HttpOutcome CodeTokenData) (now : Z) :
  pending_session w p ->
  q_state query = Some (authState w) ->
  q_code query = Some code ->
  code <> "" ->
  exchange_calls (run [EvUriCallback query; EvExchangeDone outcome now] w)
  = S (exchange_calls w)
  /\ promises (run [EvUriCallback query; EvExchangeDone outcome now] w) !! p
     <> Some Pending
  /\ exchange_calls
       (run [ EvUriCallback query; EvExchangeDone outcome now;
              EvUriCallback query ] w)
     = S (exchange_calls w)
  /\ promises
       (run [ EvUriCallback query; EvExchangeDone outcome now;
              EvUriCallback query ] w)
     = promises (run [EvUriCallback query; EvExchangeDone outcome now] w).
Proof.
  intros Hps Hst Hc Hne.
  pose proof Hps as (Hr & Hj & Hp).
  unfold run. cbn [fold_left].
  set (w1 := step w (EvUriCallback query)).
  assert (H1 : w1 = set_inflight (S (inflight w))
                      (exchangeCodeForTokens_request code w)).
  { subst w1. simpl. now rewrite (begin_exchange query w p code). }
  set (w2 := step w1 (EvExchangeDone outcome now)).
  assert (H2 : w2 = handleAuthCallback_resume outcome now
                      (exchangeCodeForTokens_request code w)).
  { subst w2. rewrite H1. reflexivity. }
  assert (Hps1 : pending_session (exchangeCodeForTokens_request code w) p)
    by exact Hps.
  destruct (resume_settles outcome now _ p Hps1) as (S1 & S2 & S3 & S4).
  rewrite <- H2 in S1, S2, S3, S4.
  assert (Hc2 : exchange_calls w2 = S (exchange_calls w)).
  { rewrite H2.
    destruct (quiet_counts _ _ (quiet_resume outcome now
                (exchangeCodeForTokens_request code w))) as [_ ->].
    apply (exchange_request_counts code w (inflight w)). }
  assert (Hb : handleAuthCallback_begin query w2
               = (if decide (q_state query = Some (authState w2)) then w2
                  else emit (ShowErrorMessage
                               "Authentication failed: Security error") w2,
                  Completed))
    by now apply begin_idle.
  change (step w2 (EvUriCallback query))
    with (fst (handleAuthCallback_begin query w2)).
  rewrite Hb. cbn [fst].
  repeat split.
  - exact Hc2.
  - rewrite S1. destruct (snd _); discriminate.
  - destruct (decide _); [exact Hc2|].
    rewrite <- Hc2. apply quiet_counts. now apply quiet_emit.
  - destruct (decide _); reflexivity.
Qed.

(** C2: the redirect of the sample session is delivered twice.  When the
    second delivery starts while the first handler awaits the exchange,
    two requests go to the token endpoint; the promise still settles once.
    When the second delivery starts after the first handler has finished,
    one request goes out. *)
Theorem overlapping_callbacks_exchange_twice :
  pending_session Samples.awaiting 0
  /\ exchange_calls Samples.awaiting = 0%nat
  /\ exchange_calls Samples.overlapped = 2%nat
  /\ promises Samples.overlapped = [Fulfilled]
  /\ exchange_calls Samples.sequential = 1%nat
  /\ promises Samples.sequential = [Fulfilled].
Proof. repeat split; vm_compute; reflexivity. Qed.

(** ** The stored token record *)

Lemma truthy_num_Some (n : Z) : n <> 0 -> truthy_num (Some n) = true.
Proof. intros Hn. simpl. destruct (Z.eqb_spec n 0); [contradiction|reflexivity]. Qed.

Lemma truthy_Some (s : string) : s <> "" -> truthy (Some s) = true.
Proof. intros Hs. simpl. destruct (String.eqb_spec s ""); [contradiction|reflexivity]. Qed.

(** Absent values are falsy. *)
Lemma isAuthenticated_absent
    (now : Z) (outcome : HttpOutcome RefreshTokenData) (now' : Z)
    (w : World) :
  secrets w !! ACCESS_TOKEN_KEY = None
  \/ globalState w !! TOKEN_EXPIRY_KEY = None ->
  isAuthenticated now outcome now' w = (w, false).
Proof.
  intros [H|H]; unfold isAuthenticated; rewrite H; simpl;
    rewrite ?orb_true_r; reflexivity.
Qed.

(** C5, as amended: [isAuthenticated] answers [false], without touching
    anything, when the access token or the expiry is absent (or falsy: an
    empty token, a zero expiry); it answers [true], without touching
    anything, when both are present and the expiry lies at least 300000 ms
    ahead, the buffer itself included; and when the expiry lies less than
    300000 ms ahead it is [refreshAccessToken] that runs, its result is
    the answer, and with a refresh token in store a refresh request goes
    out.  The three cases cover every state. *)
Theorem isAuthenticated_cases
    (now : Z) (outcome : HttpOutcome RefreshTokenData) (now' : Z)
    (w : World) :
  (secrets w !! ACCESS_TOKEN_KEY = None
   \/ globalState w !! TOKEN_EXPIRY_KEY = None
   \/ truthy (secrets w !! ACCESS_TOKEN_KEY) = false
   \/ truthy_num (globalState w !! TOKEN_EXPIRY_KEY) = false ->
   isAuthenticated now outcome now' w = (w, false))
  /\ (forall token expiry,
         secrets w !! ACCESS_TOKEN_KEY = Some token -> token <> "" ->
         globalState w !! TOKEN_EXPIRY_KEY = Some expiry -> expiry <> 0 ->
         now + 300000 <= expiry ->
         isAuthenticated now outcome now' w = (w, true))
  /\ (forall token expiry,
         secrets w !! ACCESS_TOKEN_KEY = Some token -> token <> "" ->
         globalState w !! TOKEN_EXPIRY_KEY = Some expiry -> expiry <> 0 ->
         expiry < now + 300000 ->
         isAuthenticated now outcome now' w
         = refreshAccessToken outcome now' w
         /\ (forall refreshToken,
                secrets w !! REFRESH_TOKEN_KEY = Some refreshToken ->
                refreshToken <> "" ->
                token_posts (fst (isAuthenticated now outcome now' w))
                = S (token_posts w))).
Proof.
  split; [|split].
  - intros [H|[H|[H|H]]].
    + apply isAuthenticated_absent; auto.
    + apply isAuthenticated_absent; auto.
    + unfold isAuthenticated. rewrite H. reflexivity.
    + unfold isAuthenticated. rewrite H, orb_true_r. reflexivity.
  - intros token expiry Ht Hne He Hz Hlt. unfold isAuthenticated.
    rewrite Ht, He, truthy_Some, truthy_num_Some by assumption. simpl.
    destruct (decide (expiry - 300000 < now)); [lia | reflexivity].
  - intros token expiry Ht Hne He Hz Hlt.
    assert (Heq : isAuthenticated now outcome now' w
                  = refreshAccessToken outcome now' w).
    { unfold isAuthenticated.
      rewrite Ht, He, truthy_Some, truthy_num_Some by assumption. simpl.
      destruct (decide (expiry - 300000 < now)); [reflexivity | lia]. }
    split; [exact Heq|].
    intros refreshToken Hrt Hrne. rewrite Heq.
    unfold refreshAccessToken. rewrite Hrt, truthy_Some by assumption.
    cbn [default].
    set (w1 := emit _ w).
    assert (H1 : token_posts w1 = S (token_posts w)).
    { unfold token_posts, w1, emit. simpl.
      rewrite filter_app, length_app. simpl. lia. }
    rewrite <- H1. apply quiet_counts.
    unfold refreshAccessToken_response.
    destruct outcome as [e|status data [td|]]; cbn [fst];
      try (now apply quiet_refl);
      destruct (decide (status = 200)); cbn [fst];
      try (now apply quiet_refl).
    + destruct (truthy (r_refresh_token td)); now apply quiet_refl.
    + now apply quiet_emit.
Qed.

Lemma isAuthenticated_cases_witness :
  isAuthenticated 1000 Samples.refresh200 2000 (initial "" None)
  = (initial "" None, false)
  /\ isAuthenticated 1000 Samples.refresh200 2000 (Samples.stored 601000)
     = (Samples.stored 601000, true)
  /\ isAuthenticated 1000 Samples.refresh200 2000 (Samples.stored 301000)
     = (Samples.stored 301000, true)
  /\ isAuthenticated 1000 Samples.refresh200 2000 (Samples.stored 61000)
     = refreshAccessToken Samples.refresh200 2000 (Samples.stored 61000)
  /\ token_posts
       (fst (isAuthenticated 1000 Samples.refresh200 2000
               (Samples.stored 61000)))
     = S (token_posts (Samples.stored 61000)).
Proof.
  split; [|split; [|split; [|split]]].
  - apply (proj1 (isAuthenticated_cases 1000 Samples.refresh200 2000
                    (initial "" None))).
    left. reflexivity.
  - apply (proj1 (proj2 (isAuthenticated_cases 1000 Samples.refresh200 2000
                           (Samples.stored 601000))) "AT" 601000);
      [reflexivity | discriminate | reflexivity | discriminate | lia].
  - apply (proj1 (proj2 (isAuthenticated_cases 1000 Samples.refresh200 2000
                           (Samples.stored 301000))) "AT" 301000);
      [reflexivity | discriminate | reflexivity | discriminate | lia].
  - apply (proj2 (proj2 (isAuthenticated_cases 1000 Samples.refresh200 2000
                           (Samples.stored 61000))) "AT" 61000);
      [reflexivity | discriminate | reflexivity | discriminate | reflexivity].
  - apply (proj2 (proj2 (isAuthenticated_cases 1000 Samples.refresh200 2000
                           (Samples.stored 61000))) "AT" 61000
             eq_refl ltac:(discriminate) eq_refl ltac:(discriminate)
             eq_refl) with (refreshToken := "RT");
      [reflexivity | discriminate].
Defined.

(** The specification's wording, true for an expiry "more than" the
    buffer ahead and a refresh "within" it, puts an expiry that is exactly
    the buffer ahead in the refresh case.  The code does not: with the token expiring exactly 300000 ms after [now], a refresh
    token in store and a provider that would answer 400, the refresh
    would send a request and answer [false], whereas [isAuthenticated]
    answers [true] and sends nothing. *)
Lemma isAuthenticated_at_buffer_counterexample :
  ~ (5000000 + 300000 < 5300000)
  /\ snd (refreshAccessToken (HttpResponse 400 "invalid_grant" None) 5000100
            (Samples.stored 5300000)) = false
  /\ token_posts
       (fst (refreshAccessToken (HttpResponse 400 "invalid_grant" None)
               5000100 (Samples.stored 5300000)))
     = S (token_posts (Samples.stored 5300000))
  /\ isAuthenticated 5000000 (HttpResponse 400 "invalid_grant" None) 5000100
       (Samples.stored 5300000)
     = (Samples.stored 5300000, true)
  /\ isAuthenticated 5000000 (HttpResponse 400 "invalid_grant" None) 5000100
       (Samples.stored 5300000)
     <> refreshAccessToken (HttpResponse 400 "invalid_grant" None) 5000100
          (Samples.stored 5300000).
Proof.
  split; [lia|]. split; [reflexivity|]. split; [reflexivity|].
  split; [reflexivity|].
  intros H. apply (f_equal snd) in H. vm_compute in H. discriminate H.
Qed.

(** At the boundary, an expiry exactly 300000 ms ahead still counts as
    valid and no refresh is attempted. *)
Lemma isAuthenticated_boundary
    (now : Z) (outcome : HttpOutcome RefreshTokenData) (now' : Z)
    (w : World) (token : string) :
  secrets w !! ACCESS_TOKEN_KEY = Some token -> token <> "" ->
  globalState w !! TOKEN_EXPIRY_KEY = Some (now + 300000) ->
  now + 300000 <> 0 ->
  isAuthenticated now outcome now' w = (w, true).
Proof.
  intros Ht Hne He Hz. unfold isAuthenticated.
  rewrite Ht, He, truthy_Some, truthy_num_Some by assumption. simpl.
  destruct (decide (now + 300000 - 300000 < now)); [lia | reflexivity].
Qed.

(** A refresh succeeds only on a 200 response with a parsable body, and
    only if a refresh token was in store. *)
Lemma refreshAccessToken_success
    (outcome : HttpOutcome RefreshTokenData) (now : Z) (w : World) :
  snd (refreshAccessToken outcome now w) = true ->
  exists data tokenData,
    outcome = HttpResponse 200 data (Some tokenData)
    /\ truthy (secrets w !! REFRESH_TOKEN_KEY) = true.
Proof.
  unfold refreshAccessToken, refreshAccessToken_response.
  destruct (truthy (secrets w !! REFRESH_TOKEN_KEY)); [|discriminate].
  destruct outcome as [e|status data [td|]]; try discriminate;
    destruct (decide (status = 200)); try discriminate.
  subst. eauto.
Qed.

(** C8: a refresh whose 200 response carries no new refresh token (or an
    empty one) succeeds, writes the new access token, writes as expiry the
    time the response arrived plus 1000 ms per second of the reported
    lifetime, and writes nothing else to storage: the refresh token in
    store is the one that was there. *)
Theorem refresh_keeps_refresh_token
    (w : World) (now : Z) (data : string) (tokenData : RefreshTokenData)
    (refreshToken : string) :
  secrets w !! REFRESH_TOKEN_KEY = Some refreshToken ->
  refreshToken <> "" ->
  truthy (r_refresh_token tokenData) = false ->
  snd (refreshAccessToken (HttpResponse 200 data (Some tokenData)) now w)
  = true
  /\ secrets (fst (refreshAccessToken
                     (HttpResponse 200 data (Some tokenData)) now w))
     = <[ACCESS_TOKEN_KEY := r_access_token tokenData]> (secrets w)
  /\ globalState (fst (refreshAccessToken
                         (HttpResponse 200 data (Some tokenData)) now w))
     = <[TOKEN_EXPIRY_KEY := now + r_expires_in tokenData * 1000]>
         (globalState w)
  /\ secrets (fst (refreshAccessToken
                     (HttpResponse 200 data (Some tokenData)) now w))
       !! REFRESH_TOKEN_KEY = Some refreshToken
  /\ secrets (fst (refreshAccessToken
                     (HttpResponse 200 data (Some tokenData)) now w))
       !! ACCESS_TOKEN_KEY = Some (r_access_token tokenData)
  /\ globalState (fst (refreshAccessToken
                         (HttpResponse 200 data (Some tokenData)) now w))
       !! TOKEN_EXPIRY_KEY
     = Some (now + r_expires_in tokenData * 1000).
Proof.
  intros Hrt Hne Homit.
  unfold refreshAccessToken, refreshAccessToken_response.
  rewrite Hrt, truthy_Some by assumption.
  destruct (decide (200 = 200)); [|congruence].
  rewrite Homit. cbn [fst snd secrets globalState set_globalState
                        set_secrets emit set_trace].
  repeat split.
  - rewrite lookup_insert_ne by discriminate. exact Hrt.
  - apply lookup_insert_eq.
  - apply lookup_insert_eq.
Qed.

Lemma refresh_keeps_refresh_token_witness :
  snd (refreshAccessToken Samples.refresh200 2000 (Samples.stored 61000))
  = true
  /\ secrets (fst (refreshAccessToken Samples.refresh200 2000
                     (Samples.stored 61000)))
     = <[ACCESS_TOKEN_KEY := "AT2"]> (secrets (Samples.stored 61000))
  /\ globalState (fst (refreshAccessToken Samples.refresh200 2000
                         (Samples.stored 61000)))
     = <[TOKEN_EXPIRY_KEY := 2000 + 3600 * 1000]>
         (globalState (Samples.stored 61000))
  /\ secrets (fst (refreshAccessToken Samples.refresh200 2000
                     (Samples.stored 61000)))
       !! REFRESH_TOKEN_KEY = Some "RT"
  /\ secrets (fst (refreshAccessToken Samples.refresh200 2000
                     (Samples.stored 61000)))
       !! ACCESS_TOKEN_KEY = Some "AT2"
  /\ globalState (fst (refreshAccessToken Samples.refresh200 2000
                         (Samples.stored 61000)))
       !! TOKEN_EXPIRY_KEY
     = Some (2000 + 3600 * 1000).
Proof.
  apply (refresh_keeps_refresh_token (Samples.stored 61000) 2000 "{...}"
           Samples.refreshed "RT").
  - reflexivity.
  - discriminate.
  - reflexivity.
Defined.

(** When the response does carry a refresh token, it replaces the stored
    one. *)
Lemma refresh_rotates_refresh_token
    (w : World) (now : Z) (data : string) (tokenData : RefreshTokenData)
    (refreshToken newToken : string) :
  secrets w !! REFRESH_TOKEN_KEY = Some refreshToken ->
  refreshToken <> "" ->
  r_refresh_token tokenData = Some newToken ->
  newToken <> "" ->
  secrets (fst (refreshAccessToken
                  (HttpResponse 200 data (Some tokenData)) now w))
    !! REFRESH_TOKEN_KEY = Some newToken.
Proof.
  intros Hrt Hne Hnew Hnn.
  unfold refreshAccessToken, refreshAccessToken_response.
  rewrite Hrt, truthy_Some by assumption.
  destruct (decide (200 = 200)); [|congruence].
  rewrite Hnew, truthy_Some by assumption. simpl.
  apply lookup_insert_eq.
Qed.

(** ** One session at a time

    The statements about the listener assume [owned]: the server object
    bound to the port is the one the service refers to.  This holds
    initially and is kept by every event, as long as [authenticate()] is
    not called while a listener of this process is still bound. *)

Lemma initial_owned (settings : string) (env : option string) :
  owned (initial settings env) = true.
Proof. reflexivity. Qed.

Lemma refresh_response_listener
    (outcome : HttpOutcome RefreshTokenData) (now : Z) (w : World) :
  listener_fields (fst (refreshAccessToken_response outcome now w))
  = listener_fields w.
Proof.
  unfold refreshAccessToken_response.
  destruct outcome as [e|status data [td|]]; try reflexivity;
    destruct (decide (status = 200)); try reflexivity.
  destruct (truthy (r_refresh_token td)); reflexivity.
Qed.

Lemma isAuthenticated_listener
    (now : Z) (outcome : HttpOutcome RefreshTokenData) (now' : Z)
    (w : World) :
  listener_fields (fst (isAuthenticated now outcome now' w))
  = listener_fields w.
Proof.
  unfold isAuthenticated, refreshAccessToken.
  destruct (negb _ || negb _); [reflexivity|].
  destruct (decide _); [|reflexivity].
  destruct (truthy (secrets w !! REFRESH_TOKEN_KEY)); [|reflexivity].
  exact (refresh_response_listener outcome now'
           (emit (PostToken
                    (RefreshTokenGrant
                       (default "" (secrets w !! REFRESH_TOKEN_KEY))
                       (getClientId w))) w)).
Qed.

Lemma startServer_owned (fault : option JsError) (w : World) :
  listening w = false -> owned (fst (startServer fault w)) = true.
Proof.
  unfold listening, startServer, listen, owned. intros Hl.
  destruct fault as [e|].
  - destruct (decide (err_code e = Some "EADDRINUSE")); simpl;
      destruct (port w); try reflexivity; discriminate.
  - simpl. destruct (port w) eqn:Hp; simpl; rewrite ?Hp;
      try reflexivity; try discriminate.
    now apply bool_decide_eq_true_2.
Qed.

Lemma authenticate_owned
    (fault : option JsError) (src : nat -> Z) (w : World) :
  listening w = false -> owned (fst (authenticate fault src w)) = true.
Proof.
  intros Hl. unfold authenticate.
  set (w1 := set_pendingAuthReject _ _).
  assert (Ho : owned (fst (startServer fault w1)) = true)
    by now apply startServer_owned.
  destruct (startServer fault w1) as [w2 [e|n]]; cbn [fst] in *.
  - apply (owned_transfer w2); [|exact Ho].
    exact (call_reject_listener _ e
             (emit (ConsoleError "Error starting authentication:") w2)).
  - exact Ho.
Qed.

Lemma begin_owned (query : Query) (w : World) :
  owned w = true -> owned (fst (handleAuthCallback_begin query w)) = true.
Proof.
  intros Hown.
  destruct (snd (handleAuthCallback_begin query w)) eqn:Hp.
  - apply stopped_not_listening. now apply begin_completed_stops.
  - revert Hp. unfold handleAuthCallback_begin.
    destruct (decide (q_state query = Some (authState w)));
      [|discriminate].
    destruct (truthy (q_code query) && _); [intros _; exact Hown|].
    destruct (pendingAuthReject w);
      [destruct (truthy (q_error query))|]; discriminate.
Qed.

Lemma step_owned (w : World) (ev : Event) :
  owned w = true ->
  (forall fault src, ev = EvAuthenticate fault src -> listening w = false) ->
  owned (step w ev) = true.
Proof.
  intros Hown Hauth.
  destruct ev as [fault src|query|outcome now| |now outcome now'|]; simpl.
  - apply authenticate_owned. now apply (Hauth fault src).
  - now apply begin_owned.
  - destruct (inflight w) as [|n]; [exact Hown|].
    apply stopped_not_listening. now apply resume_stops.
  - destruct (timers w) as [|n]; [exact Hown|].
    destruct (pendingAuthReject w) as [p|] eqn:Hr.
    + apply stopped_not_listening.
      now apply (authTimeout_stops (set_timers n w) p).
    + unfold authTimeout. simpl. rewrite Hr. exact Hown.
  - apply (owned_transfer w); [|exact Hown]. apply isAuthenticated_listener.
  - apply stopped_not_listening. now apply stopServer_stops.
Qed.

(** Without that discipline the first listener is orphaned: a second
    [authenticate()] replaces [this.server] by a server object that fails
    to bind, and [stopServer] then closes that one. *)
Example second_authenticate_orphans_listener :
  owned (step Samples.awaiting (EvAuthenticate None Samples.entropy)) = false
  /\ listening
       (run [ EvAuthenticate None Samples.entropy;
              EvUriCallback Samples.forged_query ] Samples.awaiting)
     = true.
Proof. split; vm_compute; reflexivity. Qed.

(** ** The whole flow

    [authenticate()], the redirect with [code=abc123] and the stored
    state, a 200 response with tokens AT and RT valid for 3600 seconds
    received at time 1000: the request carries the code and the verifier
    of the session, the record is stored, the promise is fulfilled and the
    listener is stopped. *)
Example end_to_end :
  let w := run [ EvUriCallback Samples.good_query;
                 EvExchangeDone Samples.ok200 1000 ] Samples.awaiting in
  filter (fun e => is_post e = true) (trace w)
  = [ PostToken (AuthorizationCodeGrant "abc123"
                   "http://127.0.0.1:3000/callback"
                   "c8bb1453d9954a9db7cceb166fdeb4d5"
                   (codeVerifier Samples.awaiting)) ]
  /\ secrets w !! ACCESS_TOKEN_KEY = Some "AT"
  /\ secrets w !! REFRESH_TOKEN_KEY = Some "RT"
  /\ globalState w !! TOKEN_EXPIRY_KEY = Some 3601000
  /\ promises w = [Fulfilled]
  /\ stopped w
  /\ String.length (codeVerifier Samples.awaiting) = 43%nat
  /\ String.length (authState Samples.awaiting) = 43%nat.
Proof. repeat split; vm_compute; reflexivity. Qed.

(** * Further properties of the coordinator *)

Import Invariants.

(** ** What [authenticate] sets up *)

Lemma call_reject_pending_state (p : nat) (e : JsError) (w : World) :
  promises w !! p = Some Pending ->
  call_reject p e w
  = set_promises (<[p := Rejected e]> (promises w)) (emit (CallReject p e) w).
Proof.
  intros Hp. unfold call_reject. cbv zeta.
  change (promises (emit (CallReject p e) w)) with (promises w).
  now rewrite Hp.
Qed.

Lemma call_resolve_pending_state (p : nat) (w : World) :
  promises w !! p = Some Pending ->
  call_resolve p w
  = set_promises (<[p := Fulfilled]> (promises w)) (emit (CallResolve p) w).
Proof.
  intros Hp. unfold call_resolve. cbv zeta.
  change (promises (emit (CallResolve p) w)) with (promises w).
  now rewrite Hp.
Qed.

Lemma authenticate_free (src : nat -> Z) (w : World) :
  port w = PortFree ->
  authenticate None src w
  = (set_timers (S (timers w)) (openAuthUrl src (bound w)),
     length (promises w)).
Proof.
  intros Hp. unfold authenticate, startServer, listen, bound.
  cbn [port set_server set_nextServer set_pendingAuthReject
       set_pendingAuthResolve set_promises nextServer].
  rewrite Hp. reflexivity.
Qed.

Lemma openAuthUrl_trace (src : nat -> Z) (w : World) :
  trace (openAuthUrl src w)
  = trace w
    ++ [OpenExternal
          (authorize_url (getClientId w)
             (generateCodeChallenge (generateCodeVerifier src 0))
             (Base64Url.encode (randomBytes 32 src 32)))].
Proof. reflexivity. Qed.

Lemma startServer_result_port (fault : option JsError) (w w' : World) :
  port w' = port w ->
  snd (startServer fault w') = snd (startServer fault w).
Proof.
  intros Hp. unfold startServer, listen.
  destruct fault as [e|].
  - destruct (decide (err_code e = Some "EADDRINUSE")); reflexivity.
  - cbn [port set_server set_nextServer]. rewrite Hp.
    destruct (port w); reflexivity.
Qed.

Lemma startServer_failure_state
    (fault : option JsError) (w : World) (error : JsError) :
  snd (startServer fault w) = inl error ->
  startServer fault w
  = (set_server (Some (nextServer w)) (set_nextServer (S (nextServer w)) w),
     inl error).
Proof.
  unfold startServer, listen. destruct fault as [e|].
  - destruct (decide (err_code e = Some "EADDRINUSE")); cbn [snd];
      intros [= <-]; reflexivity.
  - cbn [port set_server set_nextServer].
    destruct (port w); cbn [snd]; intros [= <-]; reflexivity.
Qed.

(** X1: when the listener cannot be started, [authenticate] rejects its
    promise with the error of [startServer]; it opens no browser, arms no
    timer and generates no verifier or state.  The continuations stay set
    and [this.server] refers to the server object that failed to bind. *)
Theorem authenticate_start_failure
    (fault : option JsError) (src : nat -> Z) (w : World) (error : JsError) :
  snd (startServer fault w) = inl error ->
  snd (authenticate fault src w) = length (promises w)
  /\ promises (fst (authenticate fault src w))
     = promises w ++ [Rejected error]
  /\ trace (fst (authenticate fault src w))
     = trace w ++ [ ConsoleError "Error starting authentication:";
                    CallReject (length (promises w)) error ]
  /\ timers (fst (authenticate fault src w)) = timers w
  /\ codeVerifier (fst (authenticate fault src w)) = codeVerifier w
  /\ authState (fst (authenticate fault src w)) = authState w
  /\ port (fst (authenticate fault src w)) = port w
  /\ pendingAuthResolve (fst (authenticate fault src w))
     = Some (length (promises w))
  /\ pendingAuthReject (fst (authenticate fault src w))
     = Some (length (promises w))
  /\ server (fst (authenticate fault src w)) = Some (nextServer w).
Proof.
  intros Hs. unfold authenticate.
  set (w1 := set_pendingAuthReject _ _).
  assert (Hs1 : snd (startServer fault w1) = inl error)
    by (rewrite <- Hs; now apply startServer_result_port).
  rewrite (startServer_failure_state fault w1 error Hs1).
  cbn [fst snd].
  set (w2 := emit _ _).
  assert (Hp2 : promises w2 = promises w ++ [Pending]) by reflexivity.
  assert (Hl : promises w2 !! length (promises w) = Some Pending).
  { rewrite Hp2. rewrite lookup_app_r by lia.
    now rewrite Nat.sub_diag. }
  rewrite (call_reject_pending_state _ error w2 Hl).
  repeat split.
  - change (promises (set_promises ?x _)) with x. rewrite Hp2.
    replace (length (promises w)) with (length (promises w) + 0)%nat at 1
      by lia.
    rewrite insert_app_r. reflexivity.
  - change ((trace w ++ [ConsoleError "Error starting authentication:"])
            ++ [CallReject (length (promises w)) error]
            = trace w
              ++ [ConsoleError "Error starting authentication:";
                  CallReject (length (promises w)) error]).
    now rewrite <- app_assoc.
Qed.

Lemma authenticate_start_failure_witness :
  snd (authenticate None Samples.entropy Samples.awaiting)
  = length (promises Samples.awaiting)
  /\ promises (fst (authenticate None Samples.entropy Samples.awaiting))
     = promises Samples.awaiting ++ [Rejected portInUseError]
  /\ trace (fst (authenticate None Samples.entropy Samples.awaiting))
     = trace Samples.awaiting
       ++ [ ConsoleError "Error starting authentication:";
            CallReject (length (promises Samples.awaiting)) portInUseError ]
  /\ timers (fst (authenticate None Samples.entropy Samples.awaiting))
     = timers Samples.awaiting
  /\ codeVerifier (fst (authenticate None Samples.entropy Samples.awaiting))
     = codeVerifier Samples.awaiting
  /\ authState (fst (authenticate None Samples.entropy Samples.awaiting))
     = authState Samples.awaiting
  /\ port (fst (authenticate None Samples.entropy Samples.awaiting))
     = port Samples.awaiting
  /\ pendingAuthResolve
       (fst (authenticate None Samples.entropy Samples.awaiting))
     = Some (length (promises Samples.awaiting))
  /\ pendingAuthReject
       (fst (authenticate None Samples.entropy Samples.awaiting))
     = Some (length (promises Samples.awaiting))
  /\ server (fst (authenticate None Samples.entropy Samples.awaiting))
     = Some (nextServer Samples.awaiting).
Proof.
  apply (authenticate_start_failure None Samples.entropy Samples.awaiting
           portInUseError).
  vm_compute. reflexivity.
Defined.

(** X2: when the port is free, [authenticate] records the call in the
    usage log (the new entry last, at most ten entries), creates a fresh
    pending promise and stores its continuations, binds the listener,
    draws a verifier and a state of 43 URL-safe characters each, hands
    the browser one authorize URL carrying the challenge of that verifier
    and that state, and arms one more timer.  It writes neither the
    stored tokens nor the stored expiry. *)
Theorem authenticate_opens_session
    (timestamp sessionId : string) (src : nat -> Z) (w : World)
    (u : SpotifyClient.Usage) :
  port w = PortFree ->
  let r := SpotifyClient.authenticate_logged timestamp sessionId None src w u in
  let w1 := fst (fst r) in
  let u1 := fst (snd r) in
  snd (fst r) = length (promises w)
  /\ promises w1 = promises w ++ [Pending]
  /\ pending_session w1 (length (promises w))
  /\ port w1 = PortHeld (nextServer w)
  /\ server w1 = Some (nextServer w)
  /\ timers w1 = S (timers w)
  /\ String.length (codeVerifier w1) = 43%nat
  /\ String.length (authState w1) = 43%nat
  /\ Base64Url.url_safe (authState w1) = true
  /\ trace w1
     = trace w
       ++ [OpenExternal
             (authorize_url (getClientId w)
                (generateCodeChallenge (codeVerifier w1)) (authState w1))]
  /\ secrets w1 = secrets w
  /\ globalState w1 !! TOKEN_EXPIRY_KEY = globalState w !! TOKEN_EXPIRY_KEY
  /\ last (SpotifyClient.clientIdUsageLogs u1)
     = Some (SpotifyClient.MkUsageStats timestamp
               (String.eqb (getClientId w) "c8bb1453d9954a9db7cceb166fdeb4d5")
               sessionId)
  /\ length (SpotifyClient.clientIdUsageLogs u1)
     = Nat.min (S (length (SpotifyClient.clientIdUsageLogs u))) 10
  /\ SpotifyClient.sharedClientIdUsageCount u1
     = SpotifyClient.sharedClientIdUsageCount u
       + (if String.eqb (getClientId w) "c8bb1453d9954a9db7cceb166fdeb4d5"
          then 1 else 0).
Proof.
  intros Hp r w1 u1.
  assert (Hw1 : w1 = set_timers (S (timers w)) (openAuthUrl src (bound w))).
  { subst w1 r. unfold SpotifyClient.authenticate_logged. cbn [fst].
    now rewrite (authenticate_free src w Hp). }
  assert (Hp1 : snd (fst r) = length (promises w)).
  { subst r. unfold SpotifyClient.authenticate_logged. cbn [fst].
    now rewrite (authenticate_free src w Hp). }
  assert (Hu1 : SpotifyClient.clientIdUsageLogs u1
                = ErrorHandler.slice_last 9 (SpotifyClient.clientIdUsageLogs u)
                  ++ [SpotifyClient.MkUsageStats timestamp
                        (String.eqb (getClientId w)
                           "c8bb1453d9954a9db7cceb166fdeb4d5")
                        sessionId]
                /\ SpotifyClient.sharedClientIdUsageCount u1
                   = SpotifyClient.sharedClientIdUsageCount u
                     + (if String.eqb (getClientId w)
                             "c8bb1453d9954a9db7cceb166fdeb4d5"
                        then 1 else 0)).
  { subst u1 r.
    unfold SpotifyClient.authenticate_logged, SpotifyClient.logClientIdUsage.
    cbv zeta. cbn [snd].
    destruct (String.eqb (getClientId w) "c8bb1453d9954a9db7cceb166fdeb4d5");
      cbn [fst SpotifyClient.clientIdUsageLogs
           SpotifyClient.sharedClientIdUsageCount];
      split; try reflexivity; lia. }
  destruct Hu1 as [Hlogs Hcount].
  clearbody w1 u1 r. subst w1.
  assert (Hv : codeVerifier (set_timers (S (timers w))
                               (openAuthUrl src (bound w)))
               = generateCodeVerifier src 0) by reflexivity.
  assert (Hst : authState (set_timers (S (timers w))
                             (openAuthUrl src (bound w)))
                = Base64Url.encode (randomBytes 32 src 32)) by reflexivity.
  rewrite Hv, Hst, Hlogs. unfold pending_session.
  split; [exact Hp1|]. split; [reflexivity|].
  split; [split; [reflexivity | split; [reflexivity|]]|].
  { change (promises (set_timers _ (openAuthUrl src (bound w))))
      with (promises w ++ [Pending]).
    rewrite lookup_app_r by lia. now rewrite Nat.sub_diag. }
  split; [reflexivity|]. split; [reflexivity|]. split; [reflexivity|].
  split; [unfold generateCodeVerifier;
          now rewrite encode_length, randomBytes_length|].
  split; [now rewrite encode_length, randomBytes_length|].
  split; [apply encode_url_safe|].
  split; [reflexivity|]. split; [reflexivity|]. split; [reflexivity|].
  split; [apply last_snoc|]. split; [|exact Hcount].
  rewrite length_app. unfold ErrorHandler.slice_last.
  rewrite length_skipn. cbn [length]. lia.
Qed.

Lemma authenticate_opens_session_witness :
  let r := SpotifyClient.authenticate_logged "2024-01-01T00:00:00.000Z"
             "k3j9x0q2m1" None Samples.entropy (initial "" None)
             (SpotifyClient.MkUsage 0 []) in
  let w1 := fst (fst r) in
  let u1 := fst (snd r) in
  snd (fst r) = length (promises (initial "" None))
  /\ promises w1 = promises (initial "" None) ++ [Pending]
  /\ pending_session w1 (length (promises (initial "" None)))
  /\ port w1 = PortHeld (nextServer (initial "" None))
  /\ server w1 = Some (nextServer (initial "" None))
  /\ timers w1 = S (timers (initial "" None))
  /\ String.length (codeVerifier w1) = 43%nat
  /\ String.length (authState w1) = 43%nat
  /\ Base64Url.url_safe (authState w1) = true
  /\ trace w1
     = trace (initial "" None)
       ++ [OpenExternal
             (authorize_url (getClientId (initial "" None))
                (generateCodeChallenge (codeVerifier w1)) (authState w1))]
  /\ secrets w1 = secrets (initial "" None)
  /\ globalState w1 !! TOKEN_EXPIRY_KEY
     = globalState (initial "" None) !! TOKEN_EXPIRY_KEY
  /\ last (SpotifyClient.clientIdUsageLogs u1)
     = Some (SpotifyClient.MkUsageStats "2024-01-01T00:00:00.000Z"
               (String.eqb (getClientId (initial "" None))
                  "c8bb1453d9954a9db7cceb166fdeb4d5")
               "k3j9x0q2m1")
  /\ length (SpotifyClient.clientIdUsageLogs u1)
     = Nat.min
         (S (length (SpotifyClient.clientIdUsageLogs
                       (SpotifyClient.MkUsage 0 [])))) 10
  /\ SpotifyClient.sharedClientIdUsageCount u1
     = SpotifyClient.sharedClientIdUsageCount (SpotifyClient.MkUsage 0 [])
       + (if String.eqb (getClientId (initial "" None))
               "c8bb1453d9954a9db7cceb166fdeb4d5"
          then 1 else 0).
Proof.
  apply (authenticate_opens_session "2024-01-01T00:00:00.000Z" "k3j9x0q2m1"
           Samples.entropy (initial "" None) (SpotifyClient.MkUsage 0 [])).
  reflexivity.
Defined.

(** ** A whole session, field by field *)

(** The effects that a composed state has appended, one layer at a time. *)
Lemma trace_emit (e : Effect) (w : World) : trace (emit e w) = trace w ++ [e].
Proof. reflexivity. Qed.

Lemma trace_set_codeVerifier (v : string) (w : World) :
  trace (set_codeVerifier v w) = trace w.
Proof. reflexivity. Qed.

Lemma trace_set_authState (v : string) (w : World) :
  trace (set_authState v w) = trace w.
Proof. reflexivity. Qed.

Lemma trace_set_pendingAuthResolve (v : option nat) (w : World) :
  trace (set_pendingAuthResolve v w) = trace w.
Proof. reflexivity. Qed.

Lemma trace_set_pendingAuthReject (v : option nat) (w : World) :
  trace (set_pendingAuthReject v w) = trace w.
Proof. reflexivity. Qed.

Lemma trace_set_server (v : option nat) (w : World) :
  trace (set_server v w) = trace w.
Proof. reflexivity. Qed.

Lemma trace_set_promises (v : list PromiseState) (w : World) :
  trace (set_promises v w) = trace w.
Proof. reflexivity. Qed.

Lemma trace_set_port (v : PortState) (w : World) :
  trace (set_port v w) = trace w.
Proof. reflexivity. Qed.

Lemma trace_set_nextServer (v : nat) (w : World) :
  trace (set_nextServer v w) = trace w.
Proof. reflexivity. Qed.

Lemma trace_set_secrets (v : gmap string string) (w : World) :
  trace (set_secrets v w) = trace w.
Proof. reflexivity. Qed.

Lemma trace_set_globalState (v : gmap string Z) (w : World) :
  trace (set_globalState v w) = trace w.
Proof. reflexivity. Qed.

Lemma trace_set_inflight (v : nat) (w : World) :
  trace (set_inflight v w) = trace w.
Proof. reflexivity. Qed.

Lemma trace_set_timers (v : nat) (w : World) :
  trace (set_timers v w) = trace w.
Proof. reflexivity. Qed.

Create Rewrite HintDb world_trace.

#[local] Hint Rewrite trace_emit trace_set_codeVerifier trace_set_authState trace_set_pendingAuthResolve trace_set_pendingAuthReject trace_set_server trace_set_promises
  trace_set_port trace_set_nextServer trace_set_secrets trace_set_globalState trace_set_inflight trace_set_timers : world_trace.

Ltac trace_norm :=
  unfold exchangeCodeForTokens_request, store_tokens, bound;
  autorewrite with world_trace.

Lemma stopServer_held (w : World) (s : nat) :
  server w = Some s ->
  port w = PortHeld s ->
  stopServer w = set_server None (set_port PortFree (emit (ServerClose s) w)).
Proof.
  intros Hs Hp. unfold stopServer, close. rewrite Hs. cbv zeta.
  change (port (emit (ServerClose s) w)) with (port w). rewrite Hp.
  destruct (decide (s = s)); [reflexivity | congruence].
Qed.

(** The resumed handler on a 200 response with a parsable body. *)
Lemma resume_success_state
    (data : string) (tokenData : CodeTokenData) (now : Z) (w : World)
    (p : nat) :
  pendingAuthResolve w = Some p ->
  handleAuthCallback_resume (HttpResponse 200 data (Some tokenData)) now w
  = cleanup
      (emit (ShowInformationMessage
               "üéâ Spotify Connected! Configure your playlists in Settings to enable automatic music switching during focus sessions.")
         (call_resolve p
            (emit (FireAuthStateChange true) (store_tokens tokenData now w)))).
Proof.
  intros Hr. unfold handleAuthCallback_resume, exchangeCodeForTokens_response.
  destruct (decide (200 = 200)); [|congruence].
  unfold after_exchange. cbv zeta.
  change (pendingAuthResolve (emit _ ?x)) with (pendingAuthResolve x).
  change (pendingAuthResolve (set_globalState _ ?x))
    with (pendingAuthResolve x).
  change (pendingAuthResolve (set_secrets _ ?x)) with (pendingAuthResolve x).
  change (pendingAuthResolve (set_secrets _ ?x)) with (pendingAuthResolve x).
  rewrite Hr. reflexivity.
Qed.

(** The state after [authenticate()] on a free port, the redirect with a
    code and the stored state, and a 200 response. *)
Lemma flow_state
    (src : nat -> Z) (w : World) (code : string) (error : option string)
    (data : string) (tokenData : CodeTokenData) (now : Z) :
  port w = PortFree ->
  code <> "" ->
  exists w2,
    run [ EvUriCallback
            (MkQuery (Some code) error
               (Some (authState (fst (authenticate None src w)))));
          EvExchangeDone (HttpResponse 200 data (Some tokenData)) now ]
      (fst (authenticate None src w)) = w2
    /\ codeVerifier w2 = generateCodeVerifier src 0
    /\ authState w2 = authState (fst (authenticate None src w))
    /\ pendingAuthResolve w2 = None
    /\ pendingAuthReject w2 = None
    /\ server w2 = None
    /\ promises w2 = promises w ++ [Fulfilled]
    /\ port w2 = PortFree
    /\ nextServer w2 = S (nextServer w)
    /\ secrets w2
       = <[REFRESH_TOKEN_KEY := c_refresh_token tokenData]>
           (<[ACCESS_TOKEN_KEY := c_access_token tokenData]> (secrets w))
    /\ globalState w2
       = <[TOKEN_EXPIRY_KEY := now + c_expires_in tokenData * 1000]>
           (globalState w)
    /\ inflight w2 = inflight w
    /\ timers w2 = S (timers w)
    /\ trace w2
       = trace w
         ++ [ OpenExternal
                (authorize_url (getClientId w)
                   (generateCodeChallenge (generateCodeVerifier src 0))
                   (authState (fst (authenticate None src w))));
              PostToken
                (AuthorizationCodeGrant code redirectUri (getClientId w)
                   (generateCodeVerifier src 0));
              FireAuthStateChange true;
              CallResolve (length (promises w));
              ShowInformationMessage
                "üéâ Spotify Connected! Configure your playlists in Settings to enable automatic music switching during focus sessions.";
              ServerClose (nextServer w) ].
Proof.
  intros Hp Hne. eexists. split; [reflexivity|].
  rewrite (authenticate_free src w Hp). cbn [fst].
  set (w1 := set_timers (S (timers w)) (openAuthUrl src (bound w))).
  unfold run. cbn [fold_left].
  change (step w1 (EvUriCallback ?q))
    with (fst (handleAuthCallback_begin q w1)).
  rewrite (begin_exchange _ w1 (length (promises w)) code);
    [|reflexivity|reflexivity|assumption|reflexivity].
  cbn [fst].
  set (w1' := set_inflight _ _).
  assert (Hi : inflight w1' = S (inflight w)) by reflexivity.
  unfold step. rewrite Hi.
  set (w1'' := set_inflight (inflight w) w1').
  rewrite (resume_success_state data tokenData now w1''
             (length (promises w))) by reflexivity.
  set (w3 := emit (FireAuthStateChange true) (store_tokens tokenData now w1'')).
  assert (Hl : promises w3 !! length (promises w) = Some Pending).
  { change (promises w3) with (promises w ++ [Pending]).
    rewrite lookup_app_r by lia. now rewrite Nat.sub_diag. }
  rewrite (call_resolve_pending_state _ w3 Hl).
  unfold cleanup. cbv zeta.
  set (w4 := set_pendingAuthReject None _).
  rewrite (stopServer_held w4 (nextServer w)) by reflexivity.
  repeat match goal with |- _ /\ _ => split end; try reflexivity.
  - change (<[length (promises w) := Fulfilled]> (promises w ++ [Pending])
            = promises w ++ [Fulfilled]).
    replace (length (promises w)) with (length (promises w) + 0)%nat at 1
      by lia.
    rewrite insert_app_r. reflexivity.
  - subst w4 w3 w1'' w1' w1. trace_norm.
    rewrite openAuthUrl_trace. trace_norm.
    rewrite <- !app_assoc. reflexivity.
Qed.

(** X3: a whole successful session.  After [authenticate()] on a free
    port, the redirect with a code and the stored state (an [error]
    parameter beside the code is ignored) and a 200 response, the effects
    are, in order: the authorize URL with the challenge of the session's
    verifier, one token request carrying the code, the redirect URI, the
    client id and that same verifier, the auth-state event, the resolve
    call, the message, the close of the listener.  The three values of the
    response are stored, the promise is fulfilled, and the service is idle
    again with the port free. *)
Theorem successful_session
    (src : nat -> Z) (w : World) (code : string) (error : option string)
    (data : string) (tokenData : CodeTokenData) (now : Z) :
  port w = PortFree ->
  code <> "" ->
  let w1 := fst (authenticate None src w) in
  let w2 :=
    run [ EvUriCallback (MkQuery (Some code) error (Some (authState w1)));
          EvExchangeDone (HttpResponse 200 data (Some tokenData)) now ]
      w1 in
  trace w2
  = trace w
    ++ [ OpenExternal
           (authorize_url (getClientId w)
              (generateCodeChallenge (codeVerifier w1)) (authState w1));
         PostToken
           (AuthorizationCodeGrant code redirectUri (getClientId w)
              (codeVerifier w1));
         FireAuthStateChange true;
         CallResolve (length (promises w));
         ShowInformationMessage
           "üéâ Spotify Connected! Configure your playlists in Settings to enable automatic music switching during focus sessions.";
         ServerClose (nextServer w) ]
  /\ secrets w2
     = <[REFRESH_TOKEN_KEY := c_refresh_token tokenData]>
         (<[ACCESS_TOKEN_KEY := c_access_token tokenData]> (secrets w))
  /\ globalState w2
     = <[TOKEN_EXPIRY_KEY := now + c_expires_in tokenData * 1000]>
         (globalState w)
  /\ promises w2 = promises w ++ [Fulfilled]
  /\ pendingAuthResolve w2 = None
  /\ pendingAuthReject w2 = None
  /\ server w2 = None
  /\ port w2 = PortFree.
Proof.
  intros Hp Hne w1 w2.
  destruct (flow_state src w code error data tokenData now Hp Hne)
    as (w2' & Hrun & Hcv & Hst & Hr & Hj & Hs & Hpr & Hpt & Hns & Hsec
        & Hgs & Hin & Htm & Htr).
  assert (Hv1 : codeVerifier w1 = generateCodeVerifier src 0).
  { subst w1. now rewrite (authenticate_free src w Hp). }
  fold w1 in Hrun, Htr. fold w2 in Hrun. subst w2'.
  rewrite Hv1. auto 10.
Qed.

Lemma successful_session_witness :
  let w1 := fst (authenticate None Samples.entropy (initial "" None)) in
  let w2 :=
    run [ EvUriCallback (MkQuery (Some "abc123") None (Some (authState w1)));
          EvExchangeDone
            (HttpResponse 200 "{...}" (Some (MkCodeTokenData "AT" "RT" 3600)))
            1000 ]
      w1 in
  trace w2
  = trace (initial "" None)
    ++ [ OpenExternal
           (authorize_url (getClientId (initial "" None))
              (generateCodeChallenge (codeVerifier w1)) (authState w1));
         PostToken
           (AuthorizationCodeGrant "abc123" redirectUri
              (getClientId (initial "" None)) (codeVerifier w1));
         FireAuthStateChange true;
         CallResolve (length (promises (initial "" None)));
         ShowInformationMessage
           "üéâ Spotify Connected! Configure your playlists in Settings to enable automatic music switching during focus sessions.";
         ServerClose (nextServer (initial "" None)) ]
  /\ secrets w2
     = <[REFRESH_TOKEN_KEY := "RT"]>
         (<[ACCESS_TOKEN_KEY := "AT"]> (secrets (initial "" None)))
  /\ globalState w2
     = <[TOKEN_EXPIRY_KEY := 1000 + 3600 * 1000]>
         (globalState (initial "" None))
  /\ promises w2 = promises (initial "" None) ++ [Fulfilled]
  /\ pendingAuthResolve w2 = None
  /\ pendingAuthReject w2 = None
  /\ server w2 = None
  /\ port w2 = PortFree.
Proof.
  apply (successful_session Samples.entropy (initial "" None) "abc123" None
           "{...}" (MkCodeTokenData "AT" "RT" 3600) 1000).
  - reflexivity.
  - discriminate.
Defined.

(** ** The timer is never disarmed *)

Lemma authTimeout_timers (w : World) : timers (authTimeout w) = timers w.
Proof.
  unfold authTimeout. destruct (pendingAuthReject w) as [p|]; [|reflexivity].
  destruct (cleanup_counters
              (call_reject p (Error "Authentication timeout") w)) as [_ H].
  etransitivity; [exact H|]. apply call_reject_counters.
Qed.

(** X4: nothing disarms the timer of a session that has ended, and when a
    timer fires it rejects whatever session is pending at that moment.
    So after a successful session and a second [authenticate()], the
    timer of the first session rejects the second session with the
    timeout error and stops its listener, while the timer of the second
    session is still armed. *)
Theorem stale_timer_rejects_next_session
    (src1 src2 : nat -> Z) (w : World) (code : string)
    (error : option string) (data : string) (tokenData : CodeTokenData)
    (now : Z) :
  port w = PortFree ->
  code <> "" ->
  let w1 := fst (authenticate None src1 w) in
  let w2 :=
    run [ EvUriCallback (MkQuery (Some code) error (Some (authState w1)));
          EvExchangeDone (HttpResponse 200 data (Some tokenData)) now ]
      w1 in
  let w3 := fst (authenticate None src2 w2) in
  let second := S (length (promises w)) in
  timers w2 = S (timers w)
  /\ pending_session w3 second
  /\ timers w3 = S (S (timers w))
  /\ promises (step w3 EvTimeout)
     = promises w
       ++ [Fulfilled; Rejected (Error "Authentication timeout")]
  /\ stopped (step w3 EvTimeout)
  /\ pendingAuthResolve (step w3 EvTimeout) = None
  /\ pendingAuthReject (step w3 EvTimeout) = None
  /\ timers (step w3 EvTimeout) = S (timers w).
Proof.
  intros Hp Hne w1 w2 w3 second.
  destruct (flow_state src1 w code error data tokenData now Hp Hne)
    as (w2' & Hrun & Hcv & Hst & Hr & Hj & Hs & Hpr & Hpt & Hns & Hsec
        & Hgs & Hin & Htm & Htr).
  fold w1 in Hrun. fold w2 in Hrun. subst w2'.
  assert (H3 : w3 = set_timers (S (timers w2)) (openAuthUrl src2 (bound w2))).
  { subst w3. now rewrite (authenticate_free src2 w2 Hpt). }
  assert (Hlen : length (promises w2) = second).
  { rewrite Hpr, length_app. cbn [length]. subst second. lia. }
  assert (Hps : pending_session w3 second).
  { rewrite H3. unfold pending_session.
    change (pendingAuthResolve (set_timers _ (openAuthUrl src2 (bound w2))))
      with (Some (length (promises w2))).
    change (pendingAuthReject (set_timers _ (openAuthUrl src2 (bound w2))))
      with (Some (length (promises w2))).
    change (promises (set_timers _ (openAuthUrl src2 (bound w2))))
      with (promises w2 ++ [Pending]).
    rewrite Hlen. repeat split.
    rewrite <- Hlen, lookup_app_r by lia. now rewrite Nat.sub_diag. }
  assert (Ht3 : timers w3 = S (S (timers w))).
  { rewrite H3. change (timers (set_timers ?n _)) with n. now rewrite Htm. }
  assert (Hown : owned w3 = true).
  { rewrite H3. unfold owned.
    change (port (set_timers _ (openAuthUrl src2 (bound w2))))
      with (PortHeld (nextServer w2)).
    change (server (set_timers _ (openAuthUrl src2 (bound w2))))
      with (Some (nextServer w2)).
    now apply bool_decide_eq_true_2. }
  clearbody w3 w2 w1.
  pose proof Hps as (Hr3 & Hj3 & Hp3).
  assert (Hstep : step w3 EvTimeout
                  = authTimeout (set_timers (S (timers w)) w3)).
  { unfold step. now rewrite Ht3. }
  destruct (authTimeout_idle (set_timers (S (timers w)) w3) second Hj3)
    as (I1 & I2 & I3 & I4 & I5).
  rewrite Hstep.
  split; [exact Htm|]. split; [exact Hps|]. split; [exact Ht3|].
  split; [|split; [|split; [exact I1|split; [exact I2|]]]].
  - rewrite I5.
    rewrite (call_reject_pending_state second _
               (set_timers (S (timers w)) w3) Hp3).
    change (promises (set_promises ?x _)) with x.
    change (promises (set_timers _ w3)) with (promises w3).
    rewrite H3.
    change (promises (set_timers _ (openAuthUrl src2 (bound w2))))
      with (promises w2 ++ [Pending]).
    rewrite <- Hlen.
    replace (length (promises w2)) with (length (promises w2) + 0)%nat at 1
      by lia.
    rewrite insert_app_r, Hpr, <- app_assoc. reflexivity.
  - apply (authTimeout_stops (set_timers (S (timers w)) w3) second).
    + apply (owned_transfer w3); [reflexivity | exact Hown].
    + exact Hj3.
  - rewrite authTimeout_timers. reflexivity.
Qed.

Lemma stale_timer_rejects_next_session_witness :
  let w1 := fst (authenticate None Samples.entropy (initial "" None)) in
  let w2 :=
    run [ EvUriCallback (MkQuery (Some "abc123") None (Some (authState w1)));
          EvExchangeDone
            (HttpResponse 200 "{...}" (Some (MkCodeTokenData "AT" "RT" 3600)))
            1000 ]
      w1 in
  let w3 := fst (authenticate None Samples.entropy w2) in
  let second := S (length (promises (initial "" None))) in
  timers w2 = S (timers (initial "" None))
  /\ pending_session w3 second
  /\ timers w3 = S (S (timers (initial "" None)))
  /\ promises (step w3 EvTimeout)
     = promises (initial "" None)
       ++ [Fulfilled; Rejected (Error "Authentication timeout")]
  /\ stopped (step w3 EvTimeout)
  /\ pendingAuthResolve (step w3 EvTimeout) = None
  /\ pendingAuthReject (step w3 EvTimeout) = None
  /\ timers (step w3 EvTimeout) = S (timers (initial "" None)).
Proof.
  apply (stale_timer_rejects_next_session Samples.entropy Samples.entropy
           (initial "" None) "abc123" None "{...}"
           (MkCodeTokenData "AT" "RT" 3600) 1000).
  - reflexivity.
  - discriminate.
Defined.

(** ** The state check does not end the session *)

Lemma stopServer_tokens (w : World) :
  authState (stopServer w) = authState w
  /\ codeVerifier (stopServer w) = codeVerifier w.
Proof.
  ops. destruct (server w) as [srv|]; [|auto]. simpl.
  destruct (port w) as [|s|]; auto.
  destruct (decide (s = srv)); auto.
Qed.

Lemma call_resolve_stored (q : nat) (w : World) :
  stored_fields (call_resolve q w) = stored_fields w.
Proof. ops. simpl. destruct (promises w !! q) as [[| |]|]; reflexivity. Qed.

Lemma emit_stored (e : Effect) (w : World) :
  stored_fields (emit e w) = stored_fields w.
Proof. reflexivity. Qed.

Lemma emit_promises (e : Effect) (w : World) :
  promises (emit e w) = promises w.
Proof. reflexivity. Qed.

Lemma cleanup_stored (w : World) : stored_fields (cleanup w) = stored_fields w.
Proof.
  exact (stopServer_stored
           (set_pendingAuthReject None (set_pendingAuthResolve None w))).
Qed.

(** The state a callback with a foreign [state] leaves behind when a
    session is pending. *)
Lemma mismatch_state (query : Query) (w : World) (p : nat) :
  pending_session w p ->
  q_state query <> Some (authState w) ->
  session_fields (fst (handleAuthCallback_begin query w))
  = (Some p, Some p, <[p := Rejected stateError]> (promises w))
  /\ authState (fst (handleAuthCallback_begin query w)) = authState w
  /\ stored_fields (fst (handleAuthCallback_begin query w)) = stored_fields w
  /\ quiet w (fst (handleAuthCallback_begin query w)).
Proof.
  intros (Hr & Hj & Hp) Hne.
  assert (Hq : quiet w (fst (handleAuthCallback_begin query w))).
  { apply quiet_begin_completed. now rewrite (begin_mismatch query w Hne). }
  rewrite (begin_mismatch query w Hne) in *. cbn [fst] in *.
  rewrite Hj in *. rewrite (call_reject_pending_state p stateError w Hp) in *.
  set (w1 := emit _ (set_promises _ _)) in *.
  rewrite (stopServer_session w1), (stopServer_stored w1).
  destruct (stopServer_tokens w1) as [-> _].
  repeat match goal with |- _ /\ _ => split end; try reflexivity;
    try assumption.
  unfold session_fields. subst w1. simpl. now rewrite Hr, Hj.
Qed.

(** X5: the state check rejects the pending promise but leaves both
    continuations set (only the clean-up at the end of the handler clears
    them).  So after a callback with a foreign [state], a later callback
    with the stored state and a code still starts the exchange, and on a
    200 response the tokens are stored and the success message is shown,
    although the promise of [authenticate] stays rejected with the CSRF
    error. *)
Theorem rejected_session_still_exchanges
    (w : World) (p : nat) (forged query : Query) (code data : string)
    (tokenData : CodeTokenData) (now : Z) :
  pending_session w p ->
  q_state forged <> Some (authState w) ->
  q_state query = Some (authState w) ->
  q_code query = Some code ->
  code <> "" ->
  let w1 := step w (EvUriCallback forged) in
  let w2 :=
    run [ EvUriCallback query;
          EvExchangeDone (HttpResponse 200 data (Some tokenData)) now ] w1 in
  promises w1 !! p = Some (Rejected stateError)
  /\ pendingAuthResolve w1 = Some p
  /\ pendingAuthReject w1 = Some p
  /\ exchange_calls w1 = exchange_calls w
  /\ exchange_calls w2 = S (exchange_calls w)
  /\ stored_fields w2
     = (<[REFRESH_TOKEN_KEY := c_refresh_token tokenData]>
          (<[ACCESS_TOKEN_KEY := c_access_token tokenData]> (secrets w)),
        <[TOKEN_EXPIRY_KEY := now + c_expires_in tokenData * 1000]>
          (globalState w))
  /\ promises w2 !! p = Some (Rejected stateError)
  /\ pendingAuthResolve w2 = None
  /\ pendingAuthReject w2 = None.
Proof.
  intros Hps Hne Hst Hc Hcode w1 w2.
  pose proof Hps as (Hr & Hj & Hp).
  destruct (mismatch_state forged w p Hps Hne) as (Hs1 & Ha1 & Hst1 & Hq1).
  change (fst (handleAuthCallback_begin forged w)) with w1 in *.
  unfold session_fields in Hs1. injection Hs1 as Hr1 Hj1 Hp1.
  unfold stored_fields in Hst1. injection Hst1 as Hsec1 Hgs1.
  assert (Hl1 : promises w1 !! p = Some (Rejected stateError)).
  { rewrite Hp1. apply list_lookup_insert_eq. now apply lookup_lt_Some in Hp. }
  destruct (quiet_counts w w1 Hq1) as [_ Hx1].
  assert (Hb : handleAuthCallback_begin query w1
               = (set_inflight (S (inflight w1))
                    (exchangeCodeForTokens_request code w1), Awaiting)).
  { apply (begin_exchange query w1 p code); try assumption.
    now rewrite Ha1. }
  assert (Hrun : w2
                 = handleAuthCallback_resume
                     (HttpResponse 200 data (Some tokenData)) now
                     (set_inflight (inflight w1)
                        (set_inflight (S (inflight w1))
                           (exchangeCodeForTokens_request code w1)))).
  { subst w2. unfold run. cbn [fold_left].
    change (step w1 (EvUriCallback query))
      with (fst (handleAuthCallback_begin query w1)).
    rewrite Hb. reflexivity. }
  set (wr := set_inflight (inflight w1) _) in Hrun.
  assert (Hxr : exchange_calls wr = S (exchange_calls w1))
    by apply exchange_request_counts.
  destruct (quiet_counts wr w2) as [_ Hx2].
  { rewrite Hrun. apply quiet_resume. }
  assert (Hsh : w2
                = cleanup
                    (emit (ShowInformationMessage
                             "üéâ Spotify Connected! Configure your playlists in Settings to enable automatic music switching during focus sessions.")
                       (call_resolve p
                          (emit (FireAuthStateChange true)
                             (store_tokens tokenData now wr))))).
  { rewrite Hrun. now apply resume_success_state. }
  destruct (cleanup_session
              (emit (ShowInformationMessage
                       "üéâ Spotify Connected! Configure your playlists in Settings to enable automatic music switching during focus sessions.")
                 (call_resolve p
                    (emit (FireAuthStateChange true)
                       (store_tokens tokenData now wr)))))
    as (C1 & C2 & C3).
  rewrite <- Hsh in C1, C2, C3.
  repeat match goal with |- _ /\ _ => split end; try assumption.
  - lia.
  - rewrite Hsh, cleanup_stored, emit_stored, call_resolve_stored,
      emit_stored.
    unfold stored_fields, store_tokens. simpl. now rewrite Hsec1, Hgs1.
  - rewrite C3, emit_promises, call_resolve_settled.
    + exact Hl1.
    + rewrite emit_promises.
      change (promises w1 !! p <> Some Pending). rewrite Hl1. discriminate.
Qed.

Lemma rejected_session_still_exchanges_witness :
  let w := Samples.awaiting in
  let w1 := step w (EvUriCallback Samples.forged_query) in
  let w2 := run [ EvUriCallback Samples.good_query;
                  EvExchangeDone Samples.ok200 1000 ] w1 in
  promises w1 !! 0%nat = Some (Rejected stateError)
  /\ pendingAuthResolve w1 = Some 0%nat
  /\ pendingAuthReject w1 = Some 0%nat
  /\ exchange_calls w1 = exchange_calls w
  /\ exchange_calls w2 = S (exchange_calls w)
  /\ stored_fields w2
     = (<[REFRESH_TOKEN_KEY := "RT"]>
          (<[ACCESS_TOKEN_KEY := "AT"]> (secrets w)),
        <[TOKEN_EXPIRY_KEY := 1000 + 3600 * 1000]> (globalState w))
  /\ promises w2 !! 0%nat = Some (Rejected stateError)
  /\ pendingAuthResolve w2 = None
  /\ pendingAuthReject w2 = None.
Proof.
  apply (rejected_session_still_exchanges Samples.awaiting 0
           Samples.forged_query Samples.good_query "abc123" "{...}"
           (MkCodeTokenData "AT" "RT" 3600) 1000).
  - repeat split; vm_compute; reflexivity.
  - vm_compute. discriminate.
  - reflexivity.
  - reflexivity.
  - discriminate.
Defined.

(** ** A failed exchange *)

Lemma exchange_failure_state
    (outcome : HttpOutcome CodeTokenData) (now : Z) (w : World) :
  (forall data tokenData,
     outcome <> HttpResponse 200 data (Some tokenData)) ->
  exchangeCodeForTokens_response outcome now w
  = (w, Some match outcome with
             | NetworkError e => e
             | HttpResponse status data _ =>
                 if decide (status = 200) then jsonSyntaxError
                 else Error ("Token exchange failed: " +:+ pretty status
                             +:+ " " +:+ data)
             end).
Proof.
  intros Hno. unfold exchangeCodeForTokens_response.
  destruct outcome as [e|status data [td|]]; try reflexivity;
    destruct (decide (status = 200)) as [->|]; try reflexivity.
  now destruct (Hno data td).
Qed.

Lemma catch_authError_stored (e : JsError) (w : World) :
  stored_fields (catch_authError e w) = stored_fields w.
Proof.
  unfold catch_authError. destruct (pendingAuthReject w) as [q|].
  - change (stored_fields (emit _ ?x)) with (stored_fields x).
    apply call_reject_stored.
  - reflexivity.
Qed.

(** X6: when the token request fails (a network error, a status other than
    200, or a 200 body that does not parse), the handler stores nothing,
    rejects the promise of [authenticate] with the error of the exchange
    (for a status other than 200: "Token exchange failed: " followed by
    the status and the body), shows that error, clears both continuations
    and stops the listener.  One request has been sent. *)
Theorem failed_exchange_rejects_and_stores_nothing
    (w : World) (p : nat) (query : Query) (code : string)
    (outcome : HttpOutcome CodeTokenData) (now : Z) :
  pending_session w p ->
  owned w = true ->
  q_state query = Some (authState w) ->
  q_code query = Some code ->
  code <> "" ->
  (forall data tokenData,
     outcome <> HttpResponse 200 data (Some tokenData)) ->
  let failure :=
    match outcome with
    | NetworkError e => e
    | HttpResponse status data _ =>
        if decide (status = 200) then jsonSyntaxError
        else Error ("Token exchange failed: " +:+ pretty status
                    +:+ " " +:+ data)
    end in
  let w2 := run [EvUriCallback query; EvExchangeDone outcome now] w in
  promises w2 !! p = Some (Rejected failure)
  /\ stored_fields w2 = stored_fields w
  /\ trace w2
     = trace w
       ++ [ PostToken
              (AuthorizationCodeGrant code redirectUri (getClientId w)
                 (codeVerifier w));
            CallReject p failure;
            ShowErrorMessage
              ("Authentication failed: " +:+ error_to_string failure) ]
       ++ match server w with
          | Some srv => [ServerClose srv]
          | None => []
          end
  /\ pendingAuthResolve w2 = None
  /\ pendingAuthReject w2 = None
  /\ stopped w2
  /\ inflight w2 = inflight w.
Proof.
  intros Hps Hown Hst Hc Hcode Hno failure w2.
  pose proof Hps as (Hr & Hj & Hp).
  assert (Hb : handleAuthCallback_begin query w
               = (set_inflight (S (inflight w))
                    (exchangeCodeForTokens_request code w), Awaiting))
    by now apply (begin_exchange query w p code).
  set (wr := set_inflight (inflight w)
               (set_inflight (S (inflight w))
                  (exchangeCodeForTokens_request code w))).
  assert (Hrun : w2 = handleAuthCallback_resume outcome now wr).
  { subst w2. unfold run. cbn [fold_left].
    change (step w (EvUriCallback query))
      with (fst (handleAuthCallback_begin query w)).
    rewrite Hb. reflexivity. }
  assert (Hsh : w2 = cleanup (catch_authError failure wr)).
  { rewrite Hrun. unfold handleAuthCallback_resume.
    now rewrite (exchange_failure_state outcome now wr Hno). }
  assert (Hpr : pending_session wr p) by (repeat split; assumption).
  destruct (resume_settles outcome now wr p Hpr) as (S1 & S2 & S3 & S4).
  rewrite (exchange_failure_state outcome now wr Hno) in S1. cbn [snd] in S1.
  rewrite <- Hrun in S1, S2, S3, S4.
  assert (Hcatch : catch_authError failure wr
                   = emit (ShowErrorMessage
                             ("Authentication failed: "
                              +:+ error_to_string failure))
                       (call_reject p failure wr)).
  { unfold catch_authError.
    change (pendingAuthReject wr) with (pendingAuthReject w).
    now rewrite Hj. }
  repeat match goal with |- _ /\ _ => split end; try assumption.
  - rewrite Hsh, cleanup_stored, catch_authError_stored. reflexivity.
  - rewrite Hsh. unfold cleanup.
    rewrite stopServer_trace.
    change (server (set_pendingAuthReject None
                      (set_pendingAuthResolve None ?x)))
      with (server x).
    change (trace (set_pendingAuthReject None
                     (set_pendingAuthResolve None ?x)))
      with (trace x).
    assert (Hsrv : server (catch_authError failure wr) = server w).
    { pose proof (catch_authError_listener failure wr) as Hl.
      unfold listener_fields in Hl. now injection Hl. }
    rewrite Hsrv, Hcatch.
    change (trace (emit ?e ?x)) with (trace x ++ [e]).
    rewrite call_reject_trace.
    subst wr. trace_norm. rewrite <- !app_assoc. reflexivity.
  - rewrite Hrun. apply resume_stops. exact Hown.
  - rewrite Hrun, resume_inflight. reflexivity.
Qed.

Lemma failed_exchange_rejects_and_stores_nothing_witness :
  let failure := Error "Token exchange failed: 400 invalid_grant" in
  let w2 := run [ EvUriCallback Samples.good_query;
                  EvExchangeDone Samples.bad400 1001 ] Samples.awaiting in
  promises w2 !! 0%nat = Some (Rejected failure)
  /\ stored_fields w2 = stored_fields Samples.awaiting
  /\ trace w2
     = trace Samples.awaiting
       ++ [ PostToken
              (AuthorizationCodeGrant "abc123" redirectUri
                 (getClientId Samples.awaiting)
                 (codeVerifier Samples.awaiting));
            CallReject 0 failure;
            ShowErrorMessage
              ("Authentication failed: " +:+ error_to_string failure) ]
       ++ match server Samples.awaiting with
          | Some srv => [ServerClose srv]
          | None => []
          end
  /\ pendingAuthResolve w2 = None
  /\ pendingAuthReject w2 = None
  /\ stopped w2
  /\ inflight w2 = inflight Samples.awaiting.
Proof.
  apply (failed_exchange_rejects_and_stores_nothing Samples.awaiting 0
           Samples.good_query "abc123" Samples.bad400 1001).
  - repeat split; vm_compute; reflexivity.
  - vm_compute. reflexivity.
  - reflexivity.
  - reflexivity.
  - discriminate.
  - intros data tokenData. discriminate.
Defined.

(** ** Invariants of every run *)

(** ** A listener the service has lost track of *)

Section Orphan.
Variable s : nat.

Lemma orphaned_frame (w w' : World) :
  listener_fields w' = listener_fields w ->
  nextServer w' = nextServer w ->
  orphaned w s -> orphaned w' s.
Proof.
  unfold listener_fields, orphaned. intros [= Hs Hp] Hn.
  rewrite Hs, Hp, Hn. auto.
Qed.

Lemma call_reject_nextServer (q : nat) (e : JsError) (w : World) :
  nextServer (call_reject q e w) = nextServer w.
Proof. ops. simpl. destruct (promises w !! q) as [[| |]|]; reflexivity. Qed.

Lemma call_resolve_nextServer (q : nat) (w : World) :
  nextServer (call_resolve q w) = nextServer w.
Proof. ops. simpl. destruct (promises w !! q) as [[| |]|]; reflexivity. Qed.

Lemma orphaned_call_reject (q : nat) (e : JsError) (w : World) :
  orphaned w s -> orphaned (call_reject q e w) s.
Proof.
  apply orphaned_frame;
    [apply call_reject_listener | apply call_reject_nextServer].
Qed.

Lemma orphaned_call_resolve (q : nat) (w : World) :
  orphaned w s -> orphaned (call_resolve q w) s.
Proof.
  apply orphaned_frame;
    [apply call_resolve_listener | apply call_resolve_nextServer].
Qed.

Lemma orphaned_emit (e : Effect) (w : World) :
  orphaned w s -> orphaned (emit e w) s.
Proof. apply orphaned_frame; reflexivity. Qed.

(** [stopServer] closes the server object the service refers to, which is
    not the one that holds the port. *)
Lemma orphaned_stopServer (w : World) :
  orphaned w s -> orphaned (stopServer w) s.
Proof.
  intros (Hp & Hs & Hn). unfold stopServer.
  destruct (server w) as [srv|] eqn:Hsrv;
    [|split; [exact Hp | split; [rewrite Hsrv; discriminate | exact Hn]]].
  unfold close. cbv zeta.
  change (port (emit (ServerClose srv) w)) with (port w). rewrite Hp.
  destruct (decide (s = srv)) as [->|Hne]; [congruence|].
  repeat split; try assumption. discriminate.
Qed.

Lemma orphaned_cleanup (w : World) :
  orphaned w s -> orphaned (cleanup w) s.
Proof.
  intros H. unfold cleanup. apply orphaned_stopServer.
  revert H. apply orphaned_frame; reflexivity.
Qed.

Lemma orphaned_catch (e : JsError) (w : World) :
  orphaned w s -> orphaned (catch_authError e w) s.
Proof.
  intros H. unfold catch_authError. apply orphaned_emit.
  destruct (pendingAuthReject w); [now apply orphaned_call_reject | exact H].
Qed.

Lemma orphaned_after_exchange (failure : option JsError) (w : World) :
  orphaned w s -> orphaned (after_exchange failure w) s.
Proof.
  intros H. unfold after_exchange. destruct failure as [e|].
  - now apply orphaned_catch.
  - cbv zeta.
    change (pendingAuthResolve (emit (FireAuthStateChange true) w))
      with (pendingAuthResolve w).
    destruct (pendingAuthResolve w).
    + apply orphaned_emit, orphaned_call_resolve, orphaned_emit, H.
    + apply orphaned_catch, orphaned_emit, H.
Qed.

Lemma orphaned_resume
    (outcome : HttpOutcome CodeTokenData) (now : Z) (w : World) :
  orphaned w s -> orphaned (handleAuthCallback_resume outcome now w) s.
Proof.
  intros H. unfold handleAuthCallback_resume.
  assert (H1 : orphaned (fst (exchangeCodeForTokens_response outcome now w))
                 s).
  { revert H. apply orphaned_frame;
      [apply exchange_response_listener|].
    unfold exchangeCodeForTokens_response.
    destruct outcome as [e|status data [td|]]; try reflexivity;
      destruct (decide (status = 200)); reflexivity. }
  destruct (exchangeCodeForTokens_response outcome now w) as [w1 failure].
  cbn [fst] in H1. now apply orphaned_cleanup, orphaned_after_exchange.
Qed.

Lemma orphaned_begin (query : Query) (w : World) :
  orphaned w s -> orphaned (fst (handleAuthCallback_begin query w)) s.
Proof.
  intros H. unfold handleAuthCallback_begin.
  destruct (decide (q_state query = Some (authState w))).
  - destruct (truthy (q_code query) && _).
    + cbn [fst]. revert H. apply orphaned_frame; reflexivity.
    + destruct (pendingAuthReject w) as [q|];
        [destruct (truthy (q_error query))|]; cbn [fst];
        apply orphaned_cleanup; try exact H.
      now apply orphaned_emit, orphaned_call_reject.
  - cbn [fst]. apply orphaned_stopServer, orphaned_emit.
    destruct (pendingAuthReject w); [now apply orphaned_call_reject|exact H].
Qed.

Lemma orphaned_authTimeout (w : World) :
  orphaned w s -> orphaned (authTimeout w) s.
Proof.
  intros H. unfold authTimeout.
  destruct (pendingAuthReject w) as [q|]; [|exact H].
  apply orphaned_stopServer.
  apply (orphaned_frame
           (call_reject q (Error "Authentication timeout") w));
    [reflexivity | reflexivity |].
  now apply orphaned_call_reject.
Qed.

(** A new server object gets a fresh identifier and cannot bind. *)
Lemma orphaned_startServer (fault : option JsError) (w : World) :
  orphaned w s -> orphaned (fst (startServer fault w)) s.
Proof.
  intros (Hp & Hs & Hn). unfold startServer, listen.
  destruct fault as [e|].
  - destruct (decide (err_code e = Some "EADDRINUSE")); cbn [fst];
      (repeat split; [exact Hp | simpl; intros [= ?]; lia | simpl; lia]).
  - cbn [port set_server set_nextServer]. rewrite Hp. cbn [fst].
    repeat split; [exact Hp | simpl; intros [= ?]; lia | simpl; lia].
Qed.

Lemma orphaned_authenticate
    (fault : option JsError) (src : nat -> Z) (w : World) :
  orphaned w s -> orphaned (fst (authenticate fault src w)) s.
Proof.
  intros H. unfold authenticate.
  set (w1 := set_pendingAuthReject _ _).
  assert (H1 : orphaned (fst (startServer fault w1)) s).
  { apply orphaned_startServer. revert H.
    apply orphaned_frame; reflexivity. }
  destruct (startServer fault w1) as [w2 [e|n]]; cbn [fst] in *.
  - now apply orphaned_call_reject, orphaned_emit.
  - revert H1. apply orphaned_frame; reflexivity.
Qed.

Lemma orphaned_isAuthenticated
    (now : Z) (outcome : HttpOutcome RefreshTokenData) (now' : Z)
    (w : World) :
  orphaned w s -> orphaned (fst (isAuthenticated now outcome now' w)) s.
Proof.
  apply orphaned_frame; [apply isAuthenticated_listener|].
  unfold isAuthenticated, refreshAccessToken.
  destruct (negb _ || negb _); [reflexivity|].
  destruct (decide _); [|reflexivity].
  destruct (truthy (secrets w !! REFRESH_TOKEN_KEY)); [|reflexivity].
  unfold refreshAccessToken_response.
  destruct outcome as [e|status data [td|]]; try reflexivity;
    destruct (decide (status = 200)); try reflexivity.
  destruct (truthy (r_refresh_token td)); reflexivity.
Qed.

Lemma orphaned_step (w : World) (ev : Event) :
  orphaned w s -> orphaned (step w ev) s.
Proof.
  intros H.
  destruct ev as [fault src|query|outcome now| |now outcome now'|];
    unfold step.
  - now apply orphaned_authenticate.
  - now apply orphaned_begin.
  - destruct (inflight w) as [|n]; [exact H|].
    apply orphaned_resume. revert H. apply orphaned_frame; reflexivity.
  - destruct (timers w) as [|n]; [exact H|].
    apply orphaned_authTimeout. revert H. apply orphaned_frame; reflexivity.
  - now apply orphaned_isAuthenticated.
  - now apply orphaned_stopServer.
Qed.

Lemma orphaned_run (evs : list Event) (w : World) :
  orphaned w s -> orphaned (run evs w) s.
Proof.
  revert w. induction evs as [|ev evs IH]; intros w H; [exact H|].
  apply IH. now apply orphaned_step.
Qed.

End Orphan.

(** X8: calling [authenticate()] while the listener of an earlier session
    is still bound loses that listener for good.  [startServer] replaces
    [this.server] before it tries to bind, so from then on [stopServer]
    closes other server objects only: whatever happens afterwards, the
    first server object keeps the port, the listener is never stopped,
    and every later [startServer] fails with the port-in-use error. *)
Theorem overlapping_authenticate_loses_listener
    (w : World) (s : nat) (fault : option JsError) (src : nat -> Z)
    (evs : list Event) :
  port w = PortHeld s ->
  server w = Some s ->
  (s < nextServer w)%nat ->
  let w' := run evs (step w (EvAuthenticate fault src)) in
  port w' = PortHeld s
  /\ server w' <> Some s
  /\ ~ stopped w'
  /\ snd (startServer None w') = inl portInUseError.
Proof.
  intros Hp Hs Hn w'.
  assert (H0 : orphaned (step w (EvAuthenticate fault src)) s).
  { unfold step, authenticate.
    set (w1 := set_pendingAuthReject _ _).
    assert (Hp1 : port w1 = PortHeld s) by exact Hp.
    assert (Hn1 : nextServer w1 = nextServer w) by reflexivity.
    assert (H1 : orphaned (fst (startServer fault w1)) s).
    { unfold startServer, listen. destruct fault as [e|].
      - destruct (decide (err_code e = Some "EADDRINUSE")); cbn [fst];
          (repeat split; [exact Hp | simpl; intros [= ?]; lia | simpl; lia]).
      - cbn [port set_server set_nextServer]. rewrite Hp1. cbn [fst].
        repeat split; [exact Hp | simpl; intros [= ?]; lia | simpl; lia]. }
    destruct (startServer fault w1) as [w2 [e|n]]; cbn [fst] in *.
    - now apply orphaned_call_reject, orphaned_emit.
    - revert H1. apply orphaned_frame; reflexivity. }
  pose proof (orphaned_run s evs _ H0) as (Hp' & Hs' & Hn').
  fold w' in Hp', Hs', Hn'. clearbody w'.
  repeat match goal with |- _ /\ _ => split end; try assumption.
  - unfold stopped, listening. rewrite Hp'. intros [_ ?]. discriminate.
  - rewrite startServer_in_use; [reflexivity|]. rewrite Hp'. discriminate.
Qed.

Lemma overlapping_authenticate_loses_listener_witness :
  let w' :=
    run [ EvUriCallback Samples.good_query;
          EvExchangeDone Samples.ok200 1000; EvTimeout; EvDispose ]
      (step Samples.awaiting (EvAuthenticate None Samples.entropy)) in
  port w' = PortHeld 0
  /\ server w' <> Some 0%nat
  /\ ~ stopped w'
  /\ snd (startServer None w') = inl portInUseError.
Proof.
  apply (overlapping_authenticate_loses_listener Samples.awaiting 0 None
           Samples.entropy
           [ EvUriCallback Samples.good_query;
             EvExchangeDone Samples.ok200 1000; EvTimeout; EvDispose ]).
  - reflexivity.
  - reflexivity.
  - vm_compute. lia.
Defined.

(** ** The two continuations go together *)

Lemma paired_frame (w w' : World) :
  session_fields w' = session_fields w -> paired w -> paired w'.
Proof.
  unfold session_fields, paired. intros [= Hr Hj Hp]. rewrite Hr, Hj, Hp.
  auto.
Qed.

Lemma paired_cleared (w : World) :
  pendingAuthResolve w = None -> pendingAuthReject w = None -> paired w.
Proof. intros Hr Hj. split; [congruence|]. intros p. rewrite Hj. discriminate. Qed.

Lemma paired_cleanup (w : World) : paired (cleanup w).
Proof.
  destruct (cleanup_session w) as (Hr & Hj & _). now apply paired_cleared.
Qed.

Lemma call_reject_length (q : nat) (e : JsError) (w : World) :
  length (promises (call_reject q e w)) = length (promises w).
Proof.
  unfold call_reject. cbv zeta. rewrite emit_promises.
  destruct (promises w !! q) as [[| |]|]; try reflexivity.
  change (length (<[q := Rejected e]> (promises w)) = length (promises w)).
  apply length_insert.
Qed.

Lemma paired_call_reject (q : nat) (e : JsError) (w : World) :
  paired w -> paired (call_reject q e w).
Proof.
  intros [He Hb]. destruct (call_reject_continuations q e w) as [Hr Hj].
  split; [congruence|]. intros p. rewrite Hj, call_reject_length. apply Hb.
Qed.

Lemma paired_authenticate
    (fault : option JsError) (src : nat -> Z) (w : World) :
  paired (fst (authenticate fault src w)).
Proof.
  unfold authenticate. set (w1 := set_pendingAuthReject _ _).
  assert (H1 : paired w1).
  { split; [reflexivity|]. intros p [= <-].
    change (promises w1) with (promises w ++ [Pending]).
    rewrite length_app. simpl. lia. }
  assert (H2 : paired (fst (startServer fault w1))).
  { revert H1. apply paired_frame, startServer_session. }
  destruct (startServer fault w1) as [w2 [e|n]]; cbn [fst] in *.
  - apply paired_call_reject. revert H2. apply paired_frame. reflexivity.
  - revert H2. apply paired_frame. reflexivity.
Qed.

Lemma paired_begin (query : Query) (w : World) :
  paired w -> paired (fst (handleAuthCallback_begin query w)).
Proof.
  intros H. unfold handleAuthCallback_begin.
  destruct (decide (q_state query = Some (authState w))).
  - destruct (truthy (q_code query) && _).
    + cbn [fst]. revert H. apply paired_frame. reflexivity.
    + destruct (pendingAuthReject w) as [q|];
        [destruct (truthy (q_error query))|]; cbn [fst];
        apply paired_cleanup.
  - cbn [fst].
    apply (paired_frame match pendingAuthReject w with
                        | Some q => call_reject q stateError w
                        | None => w
                        end).
    + rewrite stopServer_session. reflexivity.
    + destruct (pendingAuthReject w); [now apply paired_call_reject|exact H].
Qed.

Lemma paired_resume
    (outcome : HttpOutcome CodeTokenData) (now : Z) (w : World) :
  paired (handleAuthCallback_resume outcome now w).
Proof.
  unfold handleAuthCallback_resume.
  destruct (exchangeCodeForTokens_response outcome now w) as [w1 failure].
  apply paired_cleanup.
Qed.

Lemma paired_authTimeout (w : World) : paired w -> paired (authTimeout w).
Proof.
  intros H. unfold authTimeout.
  destruct (pendingAuthReject w) as [q|]; [|exact H].
  apply paired_cleared.
  - pose proof (stopServer_session
                  (set_pendingAuthResolve None
                     (set_pendingAuthReject None
                        (call_reject q (Error "Authentication timeout") w))))
      as Hs.
    unfold session_fields in Hs. injection Hs as -> _ _. reflexivity.
  - pose proof (stopServer_session
                  (set_pendingAuthResolve None
                     (set_pendingAuthReject None
                        (call_reject q (Error "Authentication timeout") w))))
      as Hs.
    unfold session_fields in Hs. injection Hs as _ -> _. reflexivity.
Qed.

Lemma paired_step (w : World) (ev : Event) : paired w -> paired (step w ev).
Proof.
  intros H.
  destruct ev as [fault src|query|outcome now| |now outcome now'|];
    unfold step.
  - apply paired_authenticate.
  - now apply paired_begin.
  - destruct (inflight w) as [|n]; [exact H | apply paired_resume].
  - destruct (timers w) as [|n]; [exact H|].
    apply paired_authTimeout. revert H. apply paired_frame. reflexivity.
  - revert H. apply paired_frame, isAuthenticated_session.
  - revert H. apply paired_frame, stopServer_session.
Qed.

(** X9: in every state the service can reach from its construction, the
    resolve and the reject continuation are both set or both cleared, and
    when set they are the two functions of one promise that exists.  So
    the guards [code && this.pendingAuthResolve] and
    [error && this.pendingAuthReject] of [handleAuthCallback] test the
    same condition, and the callback of the timer never rejects a promise
    other than the one [handleAuthCallback] would resolve. *)
Theorem continuations_paired
    (evs : list Event) (settings : string) (env : option string) :
  paired (run evs (initial settings env)).
Proof.
  assert (H : forall w, paired w -> paired (run evs w)).
  { induction evs as [|ev evs IH]; intros w Hw; [exact Hw|].
    apply IH. now apply paired_step. }
  apply H. now apply paired_cleared.
Qed.

(** ** A token check that fails *)

Lemma refresh_response_failure
    (outcome : HttpOutcome RefreshTokenData) (now : Z) (w : World) :
  snd (refreshAccessToken_response outcome now w) = false ->
  stored_fields (fst (refreshAccessToken_response outcome now w))
  = stored_fields w
  /\ quiet w (fst (refreshAccessToken_response outcome now w)).
Proof.
  unfold refreshAccessToken_response.
  destruct outcome as [e|status data [td|]];
    try destruct (decide (status = 200)); cbn [fst snd];
    try discriminate; intros _; split; try reflexivity;
    try (now apply quiet_refl).
  now apply quiet_emit.
Qed.

(** X10: a token check that answers [false] leaves the stored record as it
    was: neither the absence of a token, nor a failed refresh (network
    error, status other than 200, unparsable body) deletes or changes the
    access token, the refresh token or the expiry.  It sends at most one
    request to the token endpoint, and none when no refresh token is
    stored. *)
Theorem failed_token_check_keeps_record
    (now : Z) (outcome : HttpOutcome RefreshTokenData) (now' : Z)
    (w : World) :
  snd (isAuthenticated now outcome now' w) = false ->
  stored_fields (fst (isAuthenticated now outcome now' w)) = stored_fields w
  /\ (token_posts (fst (isAuthenticated now outcome now' w))
      <= S (token_posts w))%nat
  /\ (truthy (secrets w !! REFRESH_TOKEN_KEY) = false ->
      fst (isAuthenticated now outcome now' w) = w).
Proof.
  unfold isAuthenticated, refreshAccessToken.
  destruct (negb _ || negb _); [intros _; cbn [fst]; auto|].
  destruct (decide _); [|discriminate].
  destruct (truthy (secrets w !! REFRESH_TOKEN_KEY)) eqn:Ht;
    [|intros _; cbn [fst]; auto].
  set (w1 := emit _ w). intros Hf.
  destruct (refresh_response_failure outcome now' w1 Hf) as [Hs Hq].
  split; [rewrite Hs; reflexivity|]. split; [|discriminate].
  destruct (quiet_counts _ _ Hq) as [-> _].
  unfold token_posts, w1, emit. simpl.
  rewrite filter_app, length_app. simpl. lia.
Qed.

Lemma failed_token_check_keeps_record_witness :
  stored_fields
    (fst (isAuthenticated 5000000
            (HttpResponse 400 "invalid_grant" None) 5000100
            (Samples.stored 5000000)))
  = stored_fields (Samples.stored 5000000)
  /\ (token_posts
        (fst (isAuthenticated 5000000
                (HttpResponse 400 "invalid_grant" None) 5000100
                (Samples.stored 5000000)))
      <= S (token_posts (Samples.stored 5000000)))%nat
  /\ (truthy (secrets (Samples.stored 5000000) !! REFRESH_TOKEN_KEY) = false ->
      fst (isAuthenticated 5000000
             (HttpResponse 400 "invalid_grant" None) 5000100
             (Samples.stored 5000000))
      = Samples.stored 5000000).
Proof.
  apply (failed_token_check_keeps_record 5000000
           (HttpResponse 400 "invalid_grant" None) 5000100
           (Samples.stored 5000000)).
  vm_compute. reflexivity.
Defined.

(** * The listener and the page escaper *)

(** ** What the listener hands to the editor *)

(** X11: the listener hands a URI to the editor only for a request to
    [/callback] that carries a non-empty [code]; the URI is the
    [auth-callback] URI with the percent-encoded code and state, and the
    response is the success page.  In particular a redirect that carries
    an [error] and no code (the user refused) is answered with the error
    page and never reaches [handleAuthCallback]. *)
Theorem listener_forwards_code_only
    (req_url : option (string * Query)) (uri : string) :
  handoff (requestListener req_url) = Some uri ->
  exists query code,
    req_url = Some ("/callback", query)
    /\ q_code query = Some code
    /\ code <> ""
    /\ uri
       = "vscode://sbblanke.vscode-pomodoro-spotify/auth-callback?code="
         +:+ encodeURIComponent code
         +:+ "&state=" +:+ encodeURIComponent (default "" (q_state query))
    /\ response (requestListener req_url)
       = MkResponse 200 "text/html" (Some "no-cache") getSuccessPageHtml.
Proof.
  unfold requestListener. destruct req_url as [[pathname query]|];
    [|discriminate].
  destruct (decide (pathname = "/callback")) as [->|]; [|discriminate].
  unfold handleCallback.
  destruct (q_code query) as [code|] eqn:Hc; cbn [truthy].
  - destruct (String.eqb_spec code "") as [->|Hne]; cbn [negb].
    + destruct (truthy (q_error query)); discriminate.
    + cbn [handoff response]. intros [= <-]. exists query, code.
      rewrite Hc. repeat split; try assumption.
      destruct (q_state query) as [state|]; cbn [truthy default];
        [|reflexivity].
      destruct (String.eqb_spec state "") as [->|]; reflexivity.
  - destruct (truthy (q_error query)); discriminate.
Qed.

Lemma listener_forwards_code_only_witness :
  exists query code,
    Some ("/callback", Samples.good_query) = Some ("/callback", query)
    /\ q_code query = Some code
    /\ code <> ""
    /\ "vscode://sbblanke.vscode-pomodoro-spotify/auth-callback?code="
       +:+ encodeURIComponent "abc123"
       +:+ "&state=" +:+ encodeURIComponent (authState Samples.awaiting)
       = "vscode://sbblanke.vscode-pomodoro-spotify/auth-callback?code="
         +:+ encodeURIComponent code
         +:+ "&state=" +:+ encodeURIComponent (default "" (q_state query))
    /\ response (requestListener (Some ("/callback", Samples.good_query)))
       = MkResponse 200 "text/html" (Some "no-cache") getSuccessPageHtml.
Proof.
  apply (listener_forwards_code_only
           (Some ("/callback", Samples.good_query))).
  reflexivity.
Defined.

(** ** The state parameter on its way back *)

Lemma in_alphabet_unreserved (c : ascii) :
  Base64Url.in_alphabet c = true -> uri_unreserved c = true.
Proof.
  destruct c as [[] [] [] [] [] [] [] []]; vm_compute;
    intros H; first [reflexivity | discriminate H].
Qed.

Lemma encodeURIComponent_url_safe (s : string) :
  Base64Url.url_safe s = true -> encodeURIComponent s = s.
Proof.
  unfold Base64Url.url_safe.
  induction s as [|c s IH]; [reflexivity|]. cbn [list_ascii_of_string forallb].
  intros [Hc Hs]%andb_prop. cbn [encodeURIComponent].
  rewrite (in_alphabet_unreserved c Hc), (IH Hs). reflexivity.
Qed.

(** X12: the state that [openAuthUrl] generates passes through the
    listener unchanged.  It consists of base64url digits only, which
    [encodeURIComponent] leaves as they are, so the URI handed to the
    editor carries exactly the stored state; the same holds for the
    verifier and the challenge in the authorize URL, which are inserted
    without encoding. *)
Theorem listener_forwards_state_verbatim
    (src : nat -> Z) (w : World) (code : string) (error : option string) :
  port w = PortFree ->
  code <> "" ->
  let w1 := fst (authenticate None src w) in
  handoff (requestListener
             (Some ("/callback",
                    MkQuery (Some code) error (Some (authState w1)))))
  = Some ("vscode://sbblanke.vscode-pomodoro-spotify/auth-callback?code="
          +:+ encodeURIComponent code +:+ "&state=" +:+ authState w1)
  /\ encodeURIComponent (codeVerifier w1) = codeVerifier w1
  /\ encodeURIComponent (generateCodeChallenge (codeVerifier w1))
     = generateCodeChallenge (codeVerifier w1).
Proof.
  intros Hp Hne w1.
  assert (Hst : authState w1 = Base64Url.encode (randomBytes 32 src 32)).
  { subst w1. now rewrite (authenticate_free src w Hp). }
  assert (Hcv : codeVerifier w1 = generateCodeVerifier src 0).
  { subst w1. now rewrite (authenticate_free src w Hp). }
  clearbody w1. split; [|split].
  - unfold requestListener.
    destruct (decide ("/callback" = "/callback")); [|congruence].
    unfold handleCallback. cbn [q_code q_state truthy default].
    destruct (String.eqb_spec code ""); [contradiction|]. cbn [negb handoff].
    assert (Hs : authState w1 <> "").
    { rewrite Hst. intros H.
      pose proof (encode_length (randomBytes 32 src 32)) as Hl.
      rewrite H, randomBytes_length in Hl. discriminate Hl. }
    destruct (String.eqb_spec (authState w1) ""); [contradiction|].
    cbn [negb]. unfold id.
    rewrite (encodeURIComponent_url_safe (authState w1));
      [reflexivity|].
    rewrite Hst. apply encode_url_safe.
  - apply encodeURIComponent_url_safe. rewrite Hcv. apply encode_url_safe.
  - apply encodeURIComponent_url_safe. apply encode_url_safe.
Qed.

Lemma listener_forwards_state_verbatim_witness :
  let w1 := fst (authenticate None Samples.entropy (initial "" None)) in
  handoff (requestListener
             (Some ("/callback",
                    MkQuery (Some "abc 123") None (Some (authState w1)))))
  = Some ("vscode://sbblanke.vscode-pomodoro-spotify/auth-callback?code="
          +:+ encodeURIComponent "abc 123" +:+ "&state=" +:+ authState w1)
  /\ encodeURIComponent (codeVerifier w1) = codeVerifier w1
  /\ encodeURIComponent (generateCodeChallenge (codeVerifier w1))
     = generateCodeChallenge (codeVerifier w1).
Proof.
  apply (listener_forwards_state_verbatim Samples.entropy (initial "" None)
           "abc 123" None).
  - reflexivity.
  - discriminate.
Defined.

(** ** [htmlEscape] *)

Lemma list_ascii_app (s t : string) :
  list_ascii_of_string (s +:+ t)
  = list_ascii_of_string s ++ list_ascii_of_string t.
Proof.
  induction s as [|c s IH]; [reflexivity|]. simpl. now rewrite IH.
Qed.

(** A character of [replace_char c by_ s] comes from [by_], or from [s]
    and is not [c]. *)
Lemma replace_char_In (c : ascii) (by_ s : string) (x : ascii) :
  In x (list_ascii_of_string (replace_char c by_ s)) ->
  In x (list_ascii_of_string by_)
  \/ (In x (list_ascii_of_string s) /\ x <> c).
Proof.
  induction s as [|y s IH]; [intros []|]. cbn [replace_char].
  destruct (Ascii.eqb_spec y c) as [->|Hne].
  - rewrite list_ascii_app, in_app_iff. intros [H|H]; [now left|].
    destruct (IH H) as [?|[? ?]]; [now left|].
    right. split; [now right | assumption].
  - cbn [list_ascii_of_string]. intros [<-|H].
    + right. split; [now left | assumption].
    + destruct (IH H) as [?|[? ?]]; [now left|].
      right. split; [now right | assumption].
Qed.

(** X13: the output of [htmlEscape] contains no [<], no [>], no double
    quote and no apostrophe, whatever the input, and [htmlEscape] leaves
    a string without [&], [<], [>] and quotes unchanged. *)
Theorem htmlEscape_no_markup (unsafe : string) :
  (forall x, In x (list_ascii_of_string (htmlEscape unsafe)) ->
             x <> "<"%char /\ x <> ">"%char
             /\ x <> ascii_of_nat 34 /\ x <> "'"%char)
  /\ ((forall x, In x (list_ascii_of_string unsafe) ->
                 x <> "&"%char /\ x <> "<"%char /\ x <> ">"%char
                 /\ x <> ascii_of_nat 34 /\ x <> "'"%char) ->
      htmlEscape unsafe = unsafe).
Proof.
  split.
  - intros x H. unfold htmlEscape in H.
    apply replace_char_In in H as [H|[H N5]].
    { simpl in H.
      repeat (destruct H as [<-|H];
              [repeat split; discriminate|]). destruct H. }
    apply replace_char_In in H as [H|[H N4]].
    { simpl in H.
      repeat (destruct H as [<-|H];
              [repeat split; discriminate|]). destruct H. }
    apply replace_char_In in H as [H|[H N3]].
    { simpl in H.
      repeat (destruct H as [<-|H];
              [repeat split; discriminate|]). destruct H. }
    apply replace_char_In in H as [H|[H N2]].
    { simpl in H.
      repeat (destruct H as [<-|H];
              [repeat split; discriminate|]). destruct H. }
    auto.
  - intros Hsafe.
    assert (Hid : forall c by_ s,
               ~ In c (list_ascii_of_string s) -> replace_char c by_ s = s).
    { intros c by_ s. induction s as [|y s IH]; [reflexivity|].
      cbn [list_ascii_of_string replace_char]. intros Hn.
      destruct (Ascii.eqb_spec y c) as [->|_].
      - exfalso. apply Hn. now left.
      - rewrite IH; [reflexivity|]. intros ?. apply Hn. now right. }
    unfold htmlEscape.
    rewrite (Hid "&"%char); [|intros H; now apply Hsafe in H as (? & _)].
    rewrite (Hid "<"%char); [|intros H; now apply Hsafe in H as (_ & ? & _)].
    rewrite (Hid ">"%char);
      [|intros H; now apply Hsafe in H as (_ & _ & ? & _)].
    rewrite (Hid (ascii_of_nat 34));
      [|intros H; now apply Hsafe in H as (_ & _ & _ & ? & _)].
    rewrite (Hid "'"%char);
      [|intros H; now apply Hsafe in H as (_ & _ & _ & _ & ?)].
    reflexivity.
Qed.

Lemma htmlEscape_no_markup_witness :
  (forall x, In x (list_ascii_of_string (htmlEscape Samples.markup)) ->
             x <> "<"%char /\ x <> ">"%char
             /\ x <> ascii_of_nat 34 /\ x <> "'"%char)
  /\ htmlEscape "25" = "25".
Proof.
  split.
  - apply (proj1 (htmlEscape_no_markup Samples.markup)).
  - apply (proj2 (htmlEscape_no_markup "25")).
    simpl. intros x [<-|[<-|[]]]; repeat split; discriminate.
Defined.

(** * The Web API side *)

Import SpotifyClient.

(** ** Device selection *)

Lemma filter_head {A : Type} (f : A -> bool) (l : list A) (x : A)
    (rest : list A) :
  List.filter f l = x :: rest -> In x l /\ f x = true.
Proof.
  intros H. apply List.filter_In. rewrite H. now left.
Qed.

Lemma filter_none {A : Type} (f : A -> bool) (l : list A) :
  List.filter f l = [] -> forall x, In x l -> f x = false.
Proof.
  intros H x Hx. destruct (f x) eqn:Hf; [|reflexivity].
  assert (Hin : In x (List.filter f l)) by now apply List.filter_In.
  rewrite H in Hin. destruct Hin.
Qed.

(** X14: [selectBestDevice] returns [null] exactly for an empty list, and
    otherwise one of the devices of the list.  The first active device
    wins, even a restricted one.  Without an active device, a restricted
    device is chosen only when every device is restricted, and a device
    that is not an unrestricted computer only when the list has no
    unrestricted computer. *)
Theorem selectBestDevice_priority (devices : list Device) :
  (selectBestDevice devices = None <-> devices = [])
  /\ forall d,
       selectBestDevice devices = Some d ->
       In d devices
       /\ (forall a, List.find is_active devices = Some a -> d = a)
       /\ (List.find is_active devices = None ->
           (is_restricted d = true ->
            forall d', In d' devices -> is_restricted d' = true)
           /\ (is_computer d = false ->
               forall d', In d' devices -> is_computer d' = false)).
Proof.
  split.
  - unfold selectBestDevice. destruct devices as [|d0 rest]; [tauto|].
    split; [|discriminate].
    destruct (List.find _ _); [discriminate|].
    destruct (List.filter is_computer _); [|discriminate].
    destruct (List.filter is_web_player _); [|discriminate].
    destruct (List.filter is_mobile _); [|discriminate].
    destruct (List.filter is_unrestricted _); discriminate.
  - intros d. unfold selectBestDevice.
    destruct devices as [|d0 rest]; [discriminate|].
    set (devices := d0 :: rest).
    destruct (List.find is_active devices) as [a|] eqn:Ha.
    { intros [= <-]. split; [now apply List.find_some in Ha|].
      split; [now intros ? [= <-] | discriminate]. }
    destruct (List.filter is_computer devices) as [|c cs] eqn:Hc.
    2:{ intros [= <-]. apply filter_head in Hc as [Hin Hf].
        split; [exact Hin|]. split; [discriminate|]. intros _. split.
        - intros Hr. unfold is_computer in Hf. rewrite Hr in Hf.
          discriminate.
        - intros Hx. rewrite Hf in Hx. discriminate. }
    pose proof (filter_none _ _ Hc) as Hnoc.
    destruct (List.filter is_web_player devices) as [|p ps] eqn:Hw.
    2:{ intros [= <-]. apply filter_head in Hw as [Hin Hf].
        split; [exact Hin|]. split; [discriminate|]. intros _. split.
        - intros Hr. unfold is_web_player in Hf. rewrite Hr in Hf.
          discriminate.
        - intros _. exact Hnoc. }
    destruct (List.filter is_mobile devices) as [|m ms] eqn:Hm.
    2:{ intros [= <-]. apply filter_head in Hm as [Hin Hf].
        split; [exact Hin|]. split; [discriminate|]. intros _. split.
        - intros Hr. unfold is_mobile in Hf. rewrite Hr in Hf.
          discriminate.
        - intros _. exact Hnoc. }
    destruct (List.filter is_unrestricted devices) as [|u us] eqn:Hu.
    2:{ intros [= <-]. apply filter_head in Hu as [Hin Hf].
        split; [exact Hin|]. split; [discriminate|]. intros _. split.
        - intros Hr. unfold is_unrestricted in Hf. rewrite Hr in Hf.
          discriminate.
        - intros _. exact Hnoc. }
    intros [= <-]. split; [now left|]. split; [discriminate|].
    intros _. split.
    + intros _ d' Hd'. pose proof (filter_none _ _ Hu d' Hd') as Hf.
      unfold is_unrestricted in Hf. now destruct (is_restricted d').
    + intros _. exact Hnoc.
Qed.

Lemma selectBestDevice_priority_witness :
  In Samples2.tv [Samples2.phone; Samples2.tv; Samples2.laptop]
  /\ In Samples2.laptop [Samples2.phone; Samples2.laptop; Samples2.browser]
  /\ (is_computer Samples2.browser = false ->
      forall d', In d' [Samples2.phone; Samples2.browser] ->
                 is_computer d' = false).
Proof.
  split; [|split].
  - apply (proj2 (selectBestDevice_priority
                    [Samples2.phone; Samples2.tv; Samples2.laptop])
             Samples2.tv).
    reflexivity.
  - apply (proj2 (selectBestDevice_priority
                    [Samples2.phone; Samples2.laptop; Samples2.browser])
             Samples2.laptop).
    reflexivity.
  - apply (proj2 (selectBestDevice_priority
                    [Samples2.phone; Samples2.browser])
             Samples2.browser).
    + reflexivity.
    + reflexivity.
Defined.

(** ** The track query *)

(** X15: when the request of [getCurrentTrack] fails (a network error or
    a status outside 200..299, for instance 401 or 429), the service
    marks the network as disconnected, keeps its cached track as it is and
    returns a copy of it whose name carries the warning sign and which
    counts as playing, or the "Network Error" placeholder when nothing is
    cached.  A further failure returns the same answer: the warning sign
    is never stacked. *)
Theorem getCurrentTrack_failure
    (accessToken : string) (outcome outcome' : HttpOutcome PlayingJson)
    (this : Player) :
  accessToken <> "" ->
  (forall body, makeSpotifyRequest outcome <> inr body) ->
  (forall body, makeSpotifyRequest outcome' <> inr body) ->
  let r := getCurrentTrack (Some accessToken) outcome this in
  networkConnected (snd r) = false
  /\ lastKnownTrack (snd r) = lastKnownTrack this
  /\ fst r
     = Some match lastKnownTrack this with
            | Some t =>
                MkCurrentTrack (warning_sign +:+ " " +:+ track_name t)
                  (artists t) true (progressMs t) (durationMs t) (album t)
                  (imageUrl t)
            | None =>
                MkCurrentTrack (warning_sign +:+ " Network Error")
                  ["Connection Lost"] false None None None None
            end
  /\ getCurrentTrack (Some accessToken) outcome' (snd r) = r.
Proof.
  intros Hne Hf Hf' r. subst r. unfold getCurrentTrack. cbn [truthy].
  destruct (String.eqb_spec accessToken ""); [contradiction|]. cbn [negb].
  destruct (makeSpotifyRequest outcome) as [e|body] eqn:Ho;
    [|now destruct (Hf body)].
  destruct (makeSpotifyRequest outcome') as [e'|body'] eqn:Ho';
    [|now destruct (Hf' body')].
  cbn [lastKnownTrack]. destruct (lastKnownTrack this) as [t|];
    cbn [fst snd lastKnownTrack networkConnected]; auto.
Qed.

Lemma getCurrentTrack_failure_witness :
  let r := getCurrentTrack (Some "AT") (HttpResponse 401 "{...}" None)
             (MkPlayer (Some Samples2.song) true) in
  networkConnected (snd r) = false
  /\ lastKnownTrack (snd r) = Some Samples2.song
  /\ fst r
     = Some (MkCurrentTrack (warning_sign +:+ " " +:+ "Song")
               ["Artist"] true (Some 1000) (Some 200000) (Some "Album") None)
  /\ getCurrentTrack (Some "AT") (NetworkError Samples2.timeout_error) (snd r)
     = r.
Proof.
  apply (getCurrentTrack_failure "AT" (HttpResponse 401 "{...}" None)
           (NetworkError Samples2.timeout_error)
           (MkPlayer (Some Samples2.song) true)).
  - discriminate.
  - intros body. discriminate.
  - intros body. discriminate.
Defined.

(** ** The two bounded logs *)

Lemma slice_last_length {A : Type} (n : nat) (xs : list A) :
  length (ErrorHandler.slice_last n xs) = Nat.min n (length xs).
Proof. unfold ErrorHandler.slice_last. rewrite length_skipn. lia. Qed.

Lemma slice_last_suffix {A : Type} (n : nat) (xs : list A) :
  exists dropped, xs = dropped ++ ErrorHandler.slice_last n xs.
Proof.
  exists (firstn (length xs - n) xs). unfold ErrorHandler.slice_last.
  now rewrite firstn_skipn.
Qed.

Lemma slice_last_snoc {A : Type} (n : nat) (xs : list A) (x : A) :
  ErrorHandler.slice_last (S n) (xs ++ [x])
  = ErrorHandler.slice_last n xs ++ [x].
Proof.
  unfold ErrorHandler.slice_last. rewrite length_app. cbn [length].
  replace (length xs + 1 - S n)%nat with (length xs - n)%nat by lia.
  rewrite skipn_app.
  replace (length xs - n - length xs)%nat with 0%nat by lia.
  reflexivity.
Qed.

(** X16: the usage log never holds more than ten entries.  After any
    number of calls of [logClientIdUsage], at least one, it holds the
    lesser of ten and the number of entries there would be without the
    limit, the newest entry is the last one, and with the built-in client
    id the usage counter has grown by the number of calls, while with a
    client id of the user's own it has not moved. *)
Theorem usage_log_bounded
    (w : World) (calls : list (string * string)) (timestamp sessionId : string)
    (u : Usage) :
  let record := fun (u : Usage) (call : string * string) =>
                  fst (logClientIdUsage w (fst call) (snd call) u) in
  let u' := fold_left record (calls ++ [(timestamp, sessionId)]) u in
  let shared := String.eqb (getClientId w) "c8bb1453d9954a9db7cceb166fdeb4d5" in
  length (clientIdUsageLogs u')
  = Nat.min (length (clientIdUsageLogs u) + S (length calls)) 10
  /\ last (clientIdUsageLogs u')
     = Some (MkUsageStats timestamp shared sessionId)
  /\ sharedClientIdUsageCount u'
     = sharedClientIdUsageCount u
       + (if shared then Z.of_nat (S (length calls)) else 0).
Proof.
  intros record u' shared.
  assert (Hone : forall u0 call,
             clientIdUsageLogs (record u0 call)
             = ErrorHandler.slice_last 9 (clientIdUsageLogs u0)
               ++ [MkUsageStats (fst call) shared (snd call)]
             /\ sharedClientIdUsageCount (record u0 call)
                = sharedClientIdUsageCount u0 + (if shared then 1 else 0)).
  { intros u0 call. unfold record, logClientIdUsage. cbv zeta. fold shared.
    destruct shared; cbn [fst clientIdUsageLogs sharedClientIdUsageCount];
      split; try reflexivity; lia. }
  assert (Hmany : forall cs u0,
             cs <> [] ->
             length (clientIdUsageLogs (fold_left record cs u0))
             = Nat.min (length (clientIdUsageLogs u0) + length cs) 10).
  { induction cs as [|c cs IH]; intros u0 Hne; [congruence|].
    cbn [fold_left]. destruct cs as [|c' cs].
    - cbn [fold_left length]. destruct (Hone u0 c) as [-> _].
      rewrite length_app, slice_last_length. cbn [length]. lia.
    - rewrite IH by discriminate. destruct (Hone u0 c) as [-> _].
      rewrite length_app, slice_last_length. cbn [length]. lia. }
  assert (Hcount : forall cs u0,
             sharedClientIdUsageCount (fold_left record cs u0)
             = sharedClientIdUsageCount u0
               + (if shared then Z.of_nat (length cs) else 0)).
  { induction cs as [|c cs IH]; intros u0; [destruct shared; simpl; lia|].
    cbn [fold_left]. rewrite IH. destruct (Hone u0 c) as [_ ->].
    destruct shared; cbn [length]; lia. }
  split; [|split].
  - subst u'. rewrite Hmany by (now destruct calls).
    rewrite length_app. cbn [length]. f_equal. lia.
  - subst u'. rewrite fold_left_app. cbn [fold_left].
    destruct (Hone (fold_left record calls u) (timestamp, sessionId))
      as [-> _].
    apply last_snoc.
  - subst u'. rewrite Hcount, length_app. cbn [length].
    destruct shared; [|reflexivity]. f_equal. lia.
Qed.

(** X17: the error log never holds more than fifty entries: [logError]
    appends the new entry at the end and drops the oldest entries beyond
    fifty, keeping the others in their order. *)
Theorem logError_bounded
    (now : string) (e : ErrorHandler.ExtensionError)
    (errorLog : list ErrorHandler.LogEntry) :
  length (ErrorHandler.logError now e errorLog)
  = Nat.min (S (length errorLog)) 50
  /\ last (ErrorHandler.logError now e errorLog)
     = Some (ErrorHandler.MkLogEntry now e)
  /\ exists dropped kept,
       errorLog = dropped ++ kept
       /\ ErrorHandler.logError now e errorLog
          = kept ++ [ErrorHandler.MkLogEntry now e]
       /\ length dropped = (length errorLog - 49)%nat.
Proof.
  unfold ErrorHandler.logError.
  rewrite (slice_last_snoc 49 errorLog (ErrorHandler.MkLogEntry now e)).
  split; [|split].
  - rewrite length_app, slice_last_length. cbn [length]. lia.
  - apply last_snoc.
  - exists (firstn (length errorLog - 49) errorLog),
           (ErrorHandler.slice_last 49 errorLog).
    split; [|split].
    + unfold ErrorHandler.slice_last. now rewrite firstn_skipn.
    + reflexivity.
    + rewrite length_firstn. lia.
Qed.

(** ** How a failed playlist query is reported *)

Lemma prefix_In (needle hay : string) (c : ascii) :
  String.prefix needle hay = true ->
  In c (list_ascii_of_string needle) -> In c (list_ascii_of_string hay).
Proof.
  revert needle. induction hay as [|b hay IH]; intros [|a needle];
    cbn [String.prefix list_ascii_of_string].
  - intros _ [].
  - discriminate.
  - intros _ [].
  - destruct (ascii_dec a b) as [->|]; [|discriminate].
    intros Hp [<-|Hin]; [now left|]. right. now apply (IH needle).
Qed.

Lemma contains_In (needle hay : string) (c : ascii) :
  contains needle hay = true ->
  In c (list_ascii_of_string needle) -> In c (list_ascii_of_string hay).
Proof.
  induction hay as [|b hay IH]; cbn [contains].
  - rewrite orb_false_r. apply prefix_In.
  - intros [Hp|Hc]%orb_prop Hin; [now apply (prefix_In needle)|].
    right. now apply IH.
Qed.

(** A needle with a character that the haystack lacks does not occur. *)
Lemma contains_absent (needle hay : string) (c : ascii) :
  In c (list_ascii_of_string needle) ->
  ~ In c (list_ascii_of_string hay) ->
  contains needle hay = false.
Proof.
  intros Hin Hno. destruct (contains needle hay) eqn:Hc; [|reflexivity].
  destruct Hno. now apply (contains_In needle).
Qed.

Lemma pretty_N_char_digit (x : N) :
  In (pretty_N_char x) (list_ascii_of_string "0123456789").
Proof.
  unfold pretty_N_char. repeat case_match; simpl; auto 12.
Qed.

Lemma pretty_N_go_chars (x : N) (s : string) (c : ascii) :
  In c (list_ascii_of_string (pretty_N_go x s)) ->
  In c (list_ascii_of_string s)
  \/ In c (list_ascii_of_string "0123456789").
Proof.
  revert s. induction (N.lt_wf_0 x) as [x _ IH]. intros s.
  destruct (decide (x = 0%N)) as [->|Hx].
  - rewrite pretty_N_go_0. now left.
  - rewrite pretty_N_go_step by lia. intros H.
    apply IH in H; [|apply N.div_lt; lia].
    destruct H as [H|H]; [|now right].
    cbn [list_ascii_of_string] in H. destruct H as [<-|H]; [|now left].
    right. apply pretty_N_char_digit.
Qed.

Lemma pretty_Z_chars (z : Z) (c : ascii) :
  In c (list_ascii_of_string (pretty z)) ->
  In c (list_ascii_of_string "-0123456789").
Proof.
  assert (Hd : forall c', In c' (list_ascii_of_string "0123456789") ->
                          In c' (list_ascii_of_string "-0123456789"))
    by (intros c' H; now right).
  assert (Hpos : forall p, In c (list_ascii_of_string (pretty (N.pos p))) ->
                           In c (list_ascii_of_string "0123456789")).
  { intros p. unfold pretty, pretty_N.
    destruct (decide (N.pos p = 0%N)); [discriminate|].
    intros H. apply pretty_N_go_chars in H as [[]|H]. exact H. }
  destruct z as [|p|p]; unfold pretty, pretty_Z.
  - simpl. intros [<-|[]]. simpl. auto.
  - intros H. apply Hd, (Hpos p), H.
  - rewrite list_ascii_app. rewrite in_app_iff. intros [H|H].
    + simpl in H. destruct H as [<-|[]]. now left.
    + apply Hd, (Hpos p), H.
Qed.

(** The message for a status without a name of its own is not taken for
    a network error or an authentication error. *)
Lemma status_message_unclassified (statusCode : Z) :
  let e := Error ("Request failed with status " +:+ pretty statusCode) in
  ErrorHandler.isNetworkError e = false
  /\ ErrorHandler.isSpotifyAuthError e = false.
Proof.
  assert (Hno : forall c,
             In c (list_ascii_of_string "EINTAUv") ->
             ~ In c (list_ascii_of_string
                       ("Request failed with status " +:+ pretty statusCode))).
  { intros c Hc. rewrite list_ascii_app, in_app_iff. intros [H|H].
    - simpl in Hc, H.
      repeat (destruct Hc as [<-|Hc];
              [repeat (destruct H as [H|H]; [discriminate H|]); exact H|]).
      exact Hc.
    - apply pretty_Z_chars in H. simpl in Hc, H.
      repeat (destruct Hc as [<-|Hc];
              [repeat (destruct H as [H|H]; [discriminate H|]); exact H|]).
      exact Hc. }
  intros e. subst e.
  unfold ErrorHandler.isNetworkError, ErrorHandler.isSpotifyAuthError,
    ErrorHandler.includes, Error.
  cbn [existsb err_message err_name].
  split.
  - rewrite (contains_absent "ENOTFOUND" _ "E"%char),
      (contains_absent "ECONNREFUSED" _ "E"%char),
      (contains_absent "ECONNRESET" _ "E"%char),
      (contains_absent "ETIMEDOUT" _ "E"%char),
      (contains_absent "Network request failed" _ "N"%char);
      try (simpl; tauto); try (apply Hno; simpl; tauto).
  - rewrite (contains_absent "Invalid access token" _ "I"%char),
      (contains_absent "Token expired" _ "T"%char),
      (contains_absent "Authentication required" _ "A"%char),
      (contains_absent "Unauthorized" _ "U"%char),
      (contains_absent "invalid_grant" _ "v"%char);
      try (simpl; tauto); try (apply Hno; simpl; tauto).
Qed.

(** X18: how [getPlaylists] reports a failure.  It always returns the
    empty list and logs one entry.  A response with status 401 is logged
    as an authentication error, whose recovery action is the
    authenticate command; every other status outside 200..299 is logged
    as an API error that advises to check the connection; and so is a
    missing access token, since "Spotify not authenticated" is none of
    the messages [isSpotifyAuthError] looks for. *)
Theorem getPlaylists_failure_reports
    (accessToken : string) (statusCode : Z) (data : string)
    (parsed : option (list PlaylistJson)) (now : string)
    (errorLog : list ErrorHandler.LogEntry) :
  accessToken <> "" ->
  ~ (200 <= statusCode < 300) ->
  getPlaylists (Some accessToken) (HttpResponse statusCode data parsed) now
    errorLog
  = ([], ErrorHandler.logError now
           (if decide (statusCode = 401)
            then ErrorHandler.createSpotifyAuthError
                   (Error "Authentication required")
            else ErrorHandler.createSpotifyAPIError
                   (Error (sanitizedError statusCode)) "fetching playlists")
           errorLog)
  /\ getPlaylists None (HttpResponse statusCode data parsed) now errorLog
     = ([], ErrorHandler.logError now
              (ErrorHandler.createSpotifyAPIError
                 (Error "Spotify not authenticated") "fetching playlists")
              errorLog).
Proof.
  intros Hne Hst. split; [|reflexivity].
  unfold getPlaylists, getPlaylists_operation. cbn [truthy].
  destruct (String.eqb_spec accessToken ""); [contradiction|]. cbn [negb].
  unfold makeSpotifyRequest.
  assert (Hr : negb (statusCode =? 0) && (200 <=? statusCode)
               && (statusCode <? 300) = false).
  { destruct (200 <=? statusCode) eqn:H1; [|now rewrite andb_false_r].
    destruct (statusCode <? 300) eqn:H2; [|now rewrite andb_false_r].
    lia. }
  rewrite Hr. unfold ErrorHandler.withErrorHandling, ErrorHandler.classify.
  unfold sanitizedError.
  destruct (decide (statusCode = 401)) as [->|H401]; [reflexivity|].
  destruct (decide (statusCode = 403)) as [->|H403]; [reflexivity|].
  destruct (decide (statusCode = 429)) as [->|H429]; [reflexivity|].
  destruct (decide (statusCode = 404)) as [->|H404]; [reflexivity|].
  destruct (status_message_unclassified statusCode) as [-> Ha].
  cbn [ErrorHandler.is_SpotifyAPI andb]. rewrite Ha. reflexivity.
Qed.

Lemma getPlaylists_failure_reports_witness :
  getPlaylists (Some "AT") (HttpResponse 500 "oops" None) "2024-01-01" []
  = ([], ErrorHandler.logError "2024-01-01"
           (if decide (500 = 401)
            then ErrorHandler.createSpotifyAuthError
                   (Error "Authentication required")
            else ErrorHandler.createSpotifyAPIError
                   (Error (sanitizedError 500)) "fetching playlists")
           [])
  /\ getPlaylists None (HttpResponse 500 "oops" None) "2024-01-01" []
     = ([], ErrorHandler.logError "2024-01-01"
              (ErrorHandler.createSpotifyAPIError
                 (Error "Spotify not authenticated") "fetching playlists")
              []).
Proof.
  apply (getPlaylists_failure_reports "AT" 500 "oops" None "2024-01-01" []).
  - discriminate.
  - lia.
Defined.

(** ** What a failed request reveals *)

(** X19: [makeSpotifyRequest] rejects a response exactly when its status
    is outside 200..299: every such response is rejected, every other one
    is resolved.  The error it rejects with is determined by the status
    alone, so two responses with the same status and different bodies
    give the same error and nothing of the body reaches the message. *)
Theorem makeSpotifyRequest_error_hides_body
    {A : Type} (statusCode : Z) (data data' : string)
    (parsed parsed' : option A) :
  (~ (200 <= statusCode < 300) ->
   makeSpotifyRequest (HttpResponse statusCode data parsed)
   = inl (Error (sanitizedError statusCode))
   /\ makeSpotifyRequest (HttpResponse statusCode data' parsed')
      = makeSpotifyRequest (HttpResponse statusCode data parsed))
  /\ (200 <= statusCode < 300 ->
      makeSpotifyRequest (HttpResponse statusCode data parsed)
      = inr (if String.eqb data "" then EmptyObject
             else match parsed with
                  | Some value => Json value
                  | None => RawText data
                  end))
  /\ (forall e,
        makeSpotifyRequest (HttpResponse statusCode data parsed) = inl e ->
        ~ (200 <= statusCode < 300)).
Proof.
  unfold makeSpotifyRequest.
  destruct (negb (statusCode =? 0) && (200 <=? statusCode)
            && (statusCode <? 300)) eqn:Hr.
  - assert (Hin : 200 <= statusCode < 300).
    { apply andb_prop in Hr as [Hr H3]. apply andb_prop in Hr as [_ H2].
      lia. }
    split; [intros Hout; now destruct Hout|]. split.
    + intros _. destruct (String.eqb data ""); [reflexivity|].
      destruct parsed; reflexivity.
    + intros e. destruct (String.eqb data ""); [discriminate|].
      destruct parsed; discriminate.
  - assert (Hout : ~ (200 <= statusCode < 300)).
    { intros [H1 H2].
      assert (H0 : (statusCode =? 0) = false) by lia.
      assert (H3 : (200 <=? statusCode) = true) by lia.
      assert (H4 : (statusCode <? 300) = true) by lia.
      rewrite H0, H3, H4 in Hr. discriminate. }
    split; [intros _; split; reflexivity|].
    split; [intros Hin; now destruct Hout|].
    intros e _. exact Hout.
Qed.

Lemma makeSpotifyRequest_error_hides_body_witness :
  (makeSpotifyRequest (HttpResponse 500 "{...}" (@None CurrentTrack))
   = inl (Error (sanitizedError 500))
   /\ makeSpotifyRequest
        (HttpResponse 500 "another body" (Some Samples2.song))
      = makeSpotifyRequest (HttpResponse 500 "{...}" None))
  /\ makeSpotifyRequest (HttpResponse 204 "" (@None CurrentTrack))
     = inr (if String.eqb "" "" then EmptyObject
            else match @None CurrentTrack with
                 | Some value => Json value
                 | None => RawText ""
                 end)
  /\ ~ (200 <= 404 < 300).
Proof.
  split; [|split].
  - apply (proj1 (makeSpotifyRequest_error_hides_body 500 "{...}"
                    "another body" None (Some Samples2.song))).
    lia.
  - apply (proj1 (proj2 (makeSpotifyRequest_error_hides_body 204 "" ""
                           (@None CurrentTrack) None))).
    lia.
  - apply (proj2 (proj2 (makeSpotifyRequest_error_hides_body 404 "{...}" ""
                           (@None CurrentTrack) None))
             (Error "Resource not found")).
    reflexivity.
Defined.
